(** * Stacked autoencoders: graph assembly and staged training

    A shallow embedding of [StackedAutoencoder] (graph views assembled over
    shared coders) and of [StackedAutoencoderTrainer] (the phase protocol),
    with the properties of the design document stated over it.

    Conventions.
    - C [int] values are [Z]; array reads are [nth] at [Z.to_nat].
    - Values of type [real] are carried by [R]. Where the code stores, copies
      or tests given values they are used as they are. Where it computes with
      them (the sums, quotients and square roots of [EvalHessian] and
      [IterInitialize]) the floating-point operations are a parameter of the
      model, [Arithmetic]: rounding, overflow, infinities and NaN are whatever
      the machine makes them, and nothing is assumed about them unless a
      property says so.
    - Code that aborts ([error], a failed [assert]) returns [None]. *)

From Stdlib Require Import List ZArith Lia Bool String Reals Lra.
Import ListNotations.
Open Scope Z_scope.

(** ** Control structure *)

Notation "x <- c ;; k" :=
  (match c with Some x => k | None => None end)
    (at level 61, c at next level, right associativity).

(** [for (int i = lo; i < hi; i++) body] threading a state. *)
Definition for_loop {S : Type} (lo hi : Z) (body : Z -> S -> S) (s : S) : S :=
  fold_left (fun s k => body (lo + Z.of_nat k) s)
            (seq 0 (Z.to_nat (hi - lo))) s.

(** The same loop when the body may abort. *)
Definition for_loop_opt {S : Type} (lo hi : Z) (body : Z -> S -> option S)
    (s : S) : option S :=
  fold_left (fun o k => s <- o ;; body (lo + Z.of_nat k) s)
            (seq 0 (Z.to_nat (hi - lo))) (Some s).

(** Array read [a[i]] and array write [a[i] = v] (a write outside the
    allocated block is not modelled: the list is left as it is). *)
Definition aget {A : Type} (d : A) (a : list A) (i : Z) : A :=
  nth (Z.to_nat i) a d.

Fixpoint upd_nat {A : Type} (a : list A) (n : nat) (v : A) : list A :=
  match a, n with
  | [], _ => []
  | _ :: t, O => v :: t
  | h :: t, S n' => h :: upd_nat t n' v
  end.

Definition aset {A : Type} (a : list A) (i : Z) (v : A) : list A :=
  if i <? 0 then a else upd_nat a (Z.to_nat i) v.

(** ** Modules and the connected machine *)

(** The gradient machines a [StackedAutoencoder] owns, by role and index. An
    [Autoencoder i] is itself a connected machine used as one node. *)
Inductive Machine : Type :=
| Encoder (i : Z)
| NoisyEncoder (i : Z)
| Decoder (i : Z)
| Autoencoder (i : Z)
| Outputer
| InputHandle.

Definition Machine_eq_dec (a b : Machine) : {a = b} + {a <> b}.
Proof. decide equality; apply Z.eq_dec. Defined.

Definition Machine_eqb (a b : Machine) : bool :=
  if Machine_eq_dec a b then true else false.

(** Modelled from the spec: the [ConnectedMachine] container (design document
    4.1, "ComputationGraph"), whose implementation is not part of the sources
    at hand. Registered modules carry the index of the execution layer they
    were added on (newest first); [links] holds (consumer, producer) pairs. *)
Record ConnectedMachine : Type := mkCM {
  nodes : list (Machine * nat);
  current_layer : nat;
  links : list (Machine * Machine);
  built : bool
}.

Definition new_machine : ConnectedMachine :=
  {| nodes := []; current_layer := 0%nat; links := []; built := false |}.

Definition modules (g : ConnectedMachine) : list Machine := map fst (nodes g).

Definition registered (g : ConnectedMachine) (m : Machine) : bool :=
  existsb (Machine_eqb m) (modules g).

Definition has_producer (g : ConnectedMachine) (m : Machine) : bool :=
  existsb (fun l => Machine_eqb (fst l) m) (links g).

Definition has_consumer (g : ConnectedMachine) (m : Machine) : bool :=
  existsb (fun l => Machine_eqb (snd l) m) (links g).

(** Modelled from the spec: [addModule(m)] registers [m]; fails if built. *)
Definition addMachine (m : Machine) (g : ConnectedMachine)
    : option ConnectedMachine :=
  if built g then None
  else Some {| nodes := (m, current_layer g) :: nodes g;
               current_layer := current_layer g;
               links := links g;
               built := false |}.

(** Modelled from the spec: [connect(consumer, producer)], the consumer being
    the module added last on the current layer; fails if either is
    unregistered or the graph is built. *)
Definition connectOn (p : Machine) (g : ConnectedMachine)
    : option ConnectedMachine :=
  if built g then None
  else match nodes g with
       | (c, l) :: _ =>
           if Nat.eqb l (current_layer g) && registered g p
           then Some {| nodes := nodes g;
                        current_layer := current_layer g;
                        links := (c, p) :: links g;
                        built := false |}
           else None
       | [] => None
       end.

(** Modelled from the spec: [markLayerBoundary()] closes the current group. *)
Definition addLayer (g : ConnectedMachine) : option ConnectedMachine :=
  if built g then None
  else Some {| nodes := nodes g;
               current_layer := S (current_layer g);
               links := links g;
               built := false |}.

Definition on_layer (g : ConnectedMachine) (l : nat) : list Machine :=
  map fst (filter (fun n => Nat.eqb (snd n) l) (nodes g)).

(** Modelled from the spec: a fully connected layer, the chaining step of the
    "Autoencoder", "Cumulative" and "Supervised" views (4.2): the module goes
    on a fresh layer and reads every module of the layer before. *)
Definition addFCL (m : Machine) (g : ConnectedMachine)
    : option ConnectedMachine :=
  g <- (if existsb (fun n => Nat.eqb (snd n) (current_layer g)) (nodes g)
        then addLayer g else Some g) ;;
  g <- addMachine m g ;;
  if Nat.eqb (current_layer g) 0 then Some g
  else fold_left (fun o p => g <- o ;; connectOn p g)
                 (rev (on_layer g (pred (current_layer g)))) (Some g).

(** Modelled from the spec: [build()] validates connectivity (no module with
    a missing producer except layer-0 inputs) and rejects further mutation;
    called twice it fails. *)
Definition build (g : ConnectedMachine) : option ConnectedMachine :=
  if built g then None
  else if forallb (fun n => Nat.eqb (snd n) 0 || has_producer g (fst n))
                  (nodes g)
       then Some {| nodes := nodes g;
                    current_layer := current_layer g;
                    links := links g;
                    built := true |}
       else None.

(** Modelled from the spec: the modules whose backward step finds no consumer
    to read a gradient from. The terminal modules (those of the last layer)
    read the gradient of the loss; every other evaluated module needs a
    consumer ("the node would have no alpha_links"). *)
Definition missing_consumers (g : ConnectedMachine) : list Machine :=
  map fst (filter (fun n => negb (Nat.eqb (snd n) (current_layer g))
                            && negb (has_consumer g (fst n)))
                  (nodes g)).

(** Modelled from the spec: [backward] on an unbuilt graph is a structural
    error; on a built graph it completes unless some module misses its
    consumer. *)
Definition backward_completes (g : ConnectedMachine) : bool :=
  built g && match missing_consumers g with [] => true | _ => false end.

(** ** The stacked autoencoder *)

(** Modelled from the spec: the fields of a [Coder] ("Codec", 3), in the
    order of the constructor's arguments as the calls in [BuildCoders] give
    them. *)
Record Coder : Type := mkCoder {
  n_inputs : Z;
  n_outputs : Z;
  coder_is_noisy : bool;
  from_coder : option Machine;
  is_transposed : bool;
  reparametrize : bool;
  coder_nonlinearity : string;
  smoothed : bool
}.

(** The members of [StackedAutoencoder] the constructor's arguments give. The
    coders and the machine views it goes on to build are the results of the
    [Build...] functions below, which read nothing else. *)
Record StackedAutoencoder : Type := mkSae {
  name : string;
  nonlinearity : string;
  tied_weights : bool;
  reparametrize_tied : bool;
  n_hidden_layers : Z;
  n_units_per_layer : list Z;
  is_noisy : bool;
  first_layer_smoothed : bool
}.

(** The constructor: the topology is the input width, the hidden widths and
    the output width. *)
Definition new_StackedAutoencoder (name_ nonlinearity_ : string)
    (tied_weights_ reparametrize_tied_ : bool) (n_inputs_ : Z)
    (n_hidden_layers_ : Z) (n_units_per_hidden_layer_ : list Z)
    (n_outputs_ : Z) (is_noisy_ first_layer_smoothed_ : bool)
    : StackedAutoencoder :=
  {| name := name_;
     nonlinearity := nonlinearity_;
     tied_weights := tied_weights_;
     reparametrize_tied := reparametrize_tied_;
     n_hidden_layers := n_hidden_layers_;
     n_units_per_layer :=
       n_inputs_
       :: map (fun k => aget 0 n_units_per_hidden_layer_ (Z.of_nat k))
              (seq 0 (Z.to_nat n_hidden_layers_))
       ++ [n_outputs_];
     is_noisy := is_noisy_;
     first_layer_smoothed := first_layer_smoothed_ |}.

(** The coders allocated by [BuildCoders]. *)
Record Coders : Type := mkCoders {
  encoders : list Coder;
  noisy_encoders : option (list Coder);
  decoders : list Coder;
  outputer : Coder
}.

Definition dummy_coder : Coder :=
  mkCoder 0 0 false None false false EmptyString false.

Definition range (n : Z) : list Z := map Z.of_nat (seq 0 (Z.to_nat n)).

Definition BuildCoders (sae : StackedAutoencoder) : Coders :=
  let n := n_hidden_layers sae in
  let u := n_units_per_layer sae in
  let encs :=
    map (fun i =>
           if (i =? 0) && first_layer_smoothed sae
           then mkCoder (aget 0 u i) (aget 0 u (i + 1)) false None false false
                        (nonlinearity sae) true
           else mkCoder (aget 0 u i) (aget 0 u (i + 1)) false None false false
                        (nonlinearity sae) false)
        (range n) in
  let noisy :=
    if is_noisy sae
    then Some (map (fun i =>
                      mkCoder (n_inputs (aget dummy_coder encs i))
                              (n_outputs (aget dummy_coder encs i))
                              true (Some (Encoder i)) false false
                              (nonlinearity sae) false)
                   (range n))
    else None in
  let decs :=
    map (fun i =>
           if tied_weights sae
           then mkCoder (n_outputs (aget dummy_coder encs i))
                        (n_inputs (aget dummy_coder encs i))
                        false (Some (Encoder i)) true (reparametrize_tied sae)
                        (nonlinearity sae) false
           else mkCoder (n_outputs (aget dummy_coder encs i))
                        (n_inputs (aget dummy_coder encs i))
                        false None false false (nonlinearity sae) false)
        (range n) in
  {| encoders := encs;
     noisy_encoders := noisy;
     decoders := decs;
     outputer := mkCoder (aget 0 u n) (aget 0 u (n + 1)) false None false false
                         "logsoftmax" false |}.

(** [autoencoders[i]]: the (noisy) encoder chained into the decoder. *)
Definition BuildAutoencoder (sae : StackedAutoencoder) (i : Z)
    : option ConnectedMachine :=
  g <- (if is_noisy sae then addFCL (NoisyEncoder i) new_machine
        else addFCL (Encoder i) new_machine) ;;
  g <- addFCL (Decoder i) g ;;
  build g.

(** [mesd_machines[i]]: the plain encoders below layer [i], then the
    autoencoder of layer [i]. *)
Definition BuildMesdMachine (sae : StackedAutoencoder) (i : Z)
    : option ConnectedMachine :=
  g <- for_loop_opt 0 i (fun j g => addFCL (Encoder j) g) new_machine ;;
  g <- (if is_noisy sae then addFCL (NoisyEncoder i) g
        else addFCL (Encoder i) g) ;;
  g <- addFCL (Decoder i) g ;;
  build g.

Definition BuildSupMachine (sae : StackedAutoencoder)
    : option ConnectedMachine :=
  g <- for_loop_opt 0 (n_hidden_layers sae)
         (fun i g => addFCL (Encoder i) g) new_machine ;;
  g <- addFCL Outputer g ;;
  build g.

Definition AddCoreMachines (sae : StackedAutoencoder) (mch : ConnectedMachine)
    : option ConnectedMachine :=
  for_loop_opt 0 (n_hidden_layers sae)
    (fun i mch =>
       mch <- addMachine (Encoder i) mch ;;
       mch <- (if 0 <? i then connectOn (Encoder (i - 1)) mch else Some mch) ;;
       mch <- (if (i =? 0) && is_noisy sae then addMachine InputHandle mch
               else Some mch) ;;
       addLayer mch)
    mch.

Definition AddEncodersUpToIncluded (mch : ConnectedMachine)
    (index_up_to_included : Z) (add_input_handle : bool)
    : option ConnectedMachine :=
  mch <- for_loop_opt 0 (index_up_to_included + 1)
           (fun i mch =>
              mch <- addMachine (Encoder i) mch ;;
              mch <- (if 0 <? i then connectOn (Encoder (i - 1)) mch
                      else Some mch) ;;
              mch <- (if (i =? 0) && add_input_handle
                      then addMachine InputHandle mch else Some mch) ;;
              addLayer mch)
           mch ;;
  if (index_up_to_included <? 0) && add_input_handle
  then mch <- addMachine InputHandle mch ;; addLayer mch
  else Some mch.

Definition AddUnsupMachines (sae : StackedAutoencoder) (mch : ConnectedMachine)
    : option ConnectedMachine :=
  for_loop_opt 0 (n_hidden_layers sae)
    (fun i mch =>
       if negb (is_noisy sae)
       then mch <- addMachine (Decoder i) mch ;; connectOn (Encoder i) mch
       else if 0 <? i
            then mch <- addMachine (Autoencoder i) mch ;;
                 connectOn (Encoder (i - 1)) mch
            else mch <- addMachine (Autoencoder i) mch ;;
                 connectOn InputHandle mch)
    mch.

(** The encoder loop of [BuildUnsupMachine]: in the noisy case the last
    encoder is not added. *)
Definition unsup_encoders (sae : StackedAutoencoder) (mch : ConnectedMachine)
    : option ConnectedMachine :=
  let n := n_hidden_layers sae in
  for_loop_opt 0 n
    (fun i mch =>
       mch <- (if (i <? n - 1) || negb (is_noisy sae)
               then mch <- addMachine (Encoder i) mch ;;
                    if 0 <? i then connectOn (Encoder (i - 1)) mch
                    else Some mch
               else Some mch) ;;
       mch <- (if (i =? 0) && is_noisy sae then addMachine InputHandle mch
               else Some mch) ;;
       if (i <? n - 1) || negb (is_noisy sae) then addLayer mch
       else if (i =? 0) && is_noisy sae then addLayer mch
       else Some mch)
    mch.

Definition BuildUnsupMachine (sae : StackedAutoencoder)
    : option ConnectedMachine :=
  mch <- unsup_encoders sae new_machine ;;
  mch <- AddUnsupMachines sae mch ;;
  build mch.

Definition BuildSupUnsupMachine (sae : StackedAutoencoder)
    : option ConnectedMachine :=
  mch <- AddCoreMachines sae new_machine ;;
  mch <- addMachine Outputer mch ;;
  mch <- connectOn (Encoder (n_hidden_layers sae - 1)) mch ;;
  mch <- AddUnsupMachines sae mch ;;
  build mch.

(** Weight decay goes on one machine only when the weights are shared. The
    options of every linear layer, by module and option name. *)
Definition Options : Type := Machine -> string -> option R.

Definition no_options : Options := fun _ _ => None.

Definition setROption (m : Machine) (key : string) (v : R) (o : Options)
    : Options :=
  fun m' key' =>
    if Machine_eq_dec m' m
    then if String.eqb key' key then Some v else o m' key'
    else o m' key'.

Definition set_decay (key : string) (sae : StackedAutoencoder)
    (weight_decay : R) (o : Options) : Options :=
  let o := for_loop 0 (n_hidden_layers sae)
             (fun i o => setROption (Encoder i) key weight_decay o) o in
  let o := setROption Outputer key weight_decay o in
  if negb (tied_weights sae)
  then for_loop 0 (n_hidden_layers sae)
         (fun i o => setROption (Decoder i) key weight_decay o) o
  else o.

Definition setL1WeightDecay : StackedAutoencoder -> R -> Options -> Options :=
  set_decay "l1 weight decay".

Definition setL2WeightDecay : StackedAutoencoder -> R -> Options -> Options :=
  set_decay "weight decay".

(** Bias decay only makes sense for encoders. *)
Definition setBiasDecay (sae : StackedAutoencoder) (bias_decay : R)
    (o : Options) : Options :=
  for_loop 0 (n_hidden_layers sae)
    (fun i o => setROption (Encoder i) "bias decay" bias_decay o) o.

(** The options set here are those of the destructive layer of each noisy
    encoder: [o] is the store of the destructive layers, apart from that of
    the linear layers. Without noise there are no noisy encoders and nothing
    is set. *)
Definition setDestructionOptions (sae : StackedAutoencoder)
    (destruct_prob destruct_value : R) (o : Options) : Options :=
  if is_noisy sae
  then for_loop 0 (n_hidden_layers sae)
         (fun i o =>
            setROption (NoisyEncoder i) "Destruction value" destruct_value
              (setROption (NoisyEncoder i) "Destruction probability"
                          destruct_prob o))
         o
  else o.

(** The smoothing decays go on the linear layer of the first encoder, when
    it is a smoothed one ([encoders[0]] exists: the constructor needs a
    hidden layer). *)
Definition setSmoothingDecay (sae : StackedAutoencoder)
    (l1_smoothing_decay l2_smoothing_decay : R) (o : Options) : Options :=
  if first_layer_smoothed sae
  then setROption (Encoder 0) "l2 smoothing weight decay" l2_smoothing_decay
         (setROption (Encoder 0) "l1 smoothing weight decay"
                     l1_smoothing_decay o)
  else o.

(** ** Gradient variance ("Hessian") evaluation *)

(** What [EvalHessian] prints. *)
Inductive Output : Type :=
| ParametersMessage (n_parameters : Z)
| LargeGradient (group size_of_group param : Z) (gradient : R)
| MaxMessage (sumX sumX2 means variance weight : R).

(** The parameter-gradients [der_params] of the machine under evaluation:
    [n_data] groups of [size[j]] values; [data i j k] is [data[j][k]] as read
    after the backward pass of example [i]. *)
Record Derivatives : Type := mkDerivatives {
  n_data : Z;
  size : list Z;
  data : Z -> Z -> Z -> R
}.

Record Accum : Type := mkAccum {
  index : Z;
  grad_sumX : list R;
  grad_sumX2 : list R;
  printed : list Output
}.

(** The floating-point arithmetic on [real]: what the machine's [+], [-],
    [*], [/], [sqrt], [<] and the conversion [(real) n] yield on the carriers
    of their operands. The carrier of the result of [real_div a b] stands for
    whatever the machine division gives, an infinity or NaN included. *)
Record Arithmetic : Type := mkArithmetic {
  real_add : R -> R -> R;
  real_sub : R -> R -> R;
  real_mul : R -> R -> R;
  real_div : R -> R -> R;
  real_sqrt : R -> R;
  real_lt : R -> R -> bool;
  real_of_int : Z -> R
}.

(** The arithmetic without rounding, in which the readings of the design
    document are stated: the operations of [R] (with Stdlib's conventions
    where they are partial). *)
Definition unrounded : Arithmetic :=
  {| real_add := Rplus;
     real_sub := Rminus;
     real_mul := Rmult;
     real_div := Rdiv;
     real_sqrt := sqrt;
     real_lt := fun a b => if Rlt_dec a b then true else false;
     real_of_int := IZR |}.

(** The "measure" loops for one example. The test [fabs(g) > 10.0] is on the
    gradient handed by the machine, taken to be finite. *)
Definition measure (ar : Arithmetic) (der : Derivatives) (i : Z) (acc : Accum)
    : Accum :=
  for_loop 0 (n_data der)
    (fun j acc =>
       for_loop 0 (aget 0 (size der) j)
         (fun k acc =>
            let v := data der i j k in
            {| index := index acc + 1;
               grad_sumX :=
                 aset (grad_sumX acc) (index acc)
                      (real_add ar (aget 0%R (grad_sumX acc) (index acc)) v);
               grad_sumX2 :=
                 aset (grad_sumX2 acc) (index acc)
                      (real_add ar (aget 0%R (grad_sumX2 acc) (index acc))
                                (real_mul ar v v));
               printed :=
                 if Rlt_dec 10 (Rabs v)
                 then printed acc
                      ++ [LargeGradient j (aget 0 (size der) j) k v]
                 else printed acc |})
         acc)
    {| index := 0;
       grad_sumX := grad_sumX acc;
       grad_sumX2 := grad_sumX2 acc;
       printed := printed acc |}.

Record MaxStats : Type := mkMaxStats {
  grad_means : list R;
  grad_variances : list R;
  max_sumX : R;
  max_sumX2 : R;
  max_means : R;
  max_variance : R
}.

(** "find the max": means and variances per parameter, keeping the statistics
    of the parameter of largest variance. *)
Definition find_max (ar : Arithmetic) (n_parameters n_samples : Z)
    (sumX sumX2 : list R) : MaxStats :=
  for_loop 0 n_parameters
    (fun i st =>
       let means :=
         aset (grad_means st) i
              (real_div ar (aget 0%R sumX i) (real_of_int ar n_samples)) in
       let variances :=
         aset (grad_variances st) i
              (real_sub ar
                 (real_div ar (aget 0%R sumX2 i) (real_of_int ar n_samples))
                 (real_mul ar (aget 0%R means i) (aget 0%R means i))) in
       if real_lt ar (max_variance st) (aget 0%R variances i)
       then {| grad_means := means;
               grad_variances := variances;
               max_sumX := aget 0%R sumX i;
               max_sumX2 := aget 0%R sumX2 i;
               max_means := aget 0%R means i;
               max_variance := aget 0%R variances i |}
       else {| grad_means := means;
               grad_variances := variances;
               max_sumX := max_sumX st;
               max_sumX2 := max_sumX2 st;
               max_means := max_means st;
               max_variance := max_variance st |})
    {| grad_means := repeat 0%R (Z.to_nat n_parameters);
       grad_variances := repeat 0%R (Z.to_nat n_parameters);
       max_sumX := 0%R; max_sumX2 := 0%R;
       max_means := 0%R; max_variance := 0%R |}.

Definition count_parameters (der : Derivatives) : Z :=
  for_loop 0 (n_data der) (fun i n => n + aget 0 (size der) i) 0.

Definition accumulate (ar : Arithmetic) (der : Derivatives) (n_samples : Z)
    : Accum :=
  let n_parameters := count_parameters der in
  for_loop 0 n_samples (fun i acc => measure ar der i acc)
    {| index := 0;
       grad_sumX := repeat 0%R (Z.to_nat n_parameters);
       grad_sumX2 := repeat 0%R (Z.to_nat n_parameters);
       printed := [ParametersMessage n_parameters] |}.

(** [EvalHessian]: [None] when [assert(n_samples <= n_examples)] fails; the
    returned value is [1.0 / max_variance] as the machine divides, next to
    what was printed. The pointers asserted non-null are taken to be valid;
    the forward and backward passes on the machine show through [data]
    only. *)
Definition EvalHessian (ar : Arithmetic) (der : Derivatives)
    (n_examples n_samples : Z) : option (R * list Output) :=
  if n_examples <? n_samples then None
  else
    let n_parameters := count_parameters der in
    let acc := accumulate ar der n_samples in
    let mx := find_max ar n_parameters n_samples
                       (grad_sumX acc) (grad_sumX2 acc) in
    Some (real_div ar 1%R (max_variance mx),
          printed acc
          ++ [MaxMessage (max_sumX mx) (max_sumX2 mx) (max_means mx)
                         (max_variance mx)
                         (real_div ar 1%R (max_variance mx))]).

(** ** The analysis utilities *)

Module Analysis.

(** [Parameters]: [n_data] groups, group [i] of [size[i]] values
    [data[i][0 .. size[i]-1]]. *)
Record Parameters : Type := mkParameters {
  n_data : Z;
  size : list Z;
  data : list (list R)
}.

(** The read [data[i][j]] and the write [data[i][j] = v]. *)
Definition load (p : Parameters) (i j : Z) : R :=
  aget 0%R (aget [] (data p) i) j.

Definition store (p : Parameters) (i j : Z) (v : R) : Parameters :=
  {| n_data := n_data p;
     size := size p;
     data := aset (data p) i (aset (aget [] (data p) i) j v) |}.

Definition GetNParams (params : Parameters) : Z :=
  for_loop 0 (n_data params)
    (fun i n_params => n_params + aget 0 (size params) i) 0.

Definition ClearDerivatives (der_params : Parameters) : Parameters :=
  for_loop 0 (n_data der_params)
    (fun i der_params =>
       for_loop 0 (aget 0 (size der_params) i)
         (fun j der_params => store der_params i j 0%R) der_params)
    der_params.

(** [EvaluateGradient]. [pass] is what the forward and backward passes over
    the data set leave in the parameter-gradients, started from the cleared
    ones. The result is the gradient vector and the parameter-gradients the
    function leaves behind. *)
Definition EvaluateGradient (ar : Arithmetic)
    (pass : Parameters -> Parameters) (der_params : Parameters)
    (n_examples : Z) (gradient : list R) : list R * Parameters :=
  let gradient :=
    for_loop 0 (Z.of_nat (List.length gradient))
      (fun i gradient => aset gradient i 0%R) gradient in
  let der_params := pass (ClearDerivatives der_params) in
  (* Copy and normalize *)
  let copied :=
    for_loop 0 (n_data der_params)
      (fun pg st =>
         (for_loop 0 (aget 0 (size der_params) pg)
            (fun i gradient =>
               aset gradient (snd st + i)
                    (real_div ar (load der_params pg i)
                              (real_of_int ar n_examples)))
            (fst st),
          snd st + aget 0 (size der_params) pg))
      (gradient, 0) in
  (fst copied, ClearDerivatives der_params).

Definition StepInParameterSpace (ar : Arithmetic) (params : Parameters)
    (direction : list R) (stepsize : R) : Parameters :=
  fst (for_loop 0 (n_data params)
         (fun i st =>
            (for_loop 0 (aget 0 (size (fst st)) i)
               (fun j params =>
                  store params i j
                    (real_add ar (load params i j)
                       (real_mul ar stepsize
                                 (aget 0%R direction (snd st + j)))))
               (fst st),
             snd st + aget 0 (size (fst st)) i))
         (params, 0)).

End Analysis.

(** ** The trainer *)

(** What the trainer's [machine] pointer may designate: the stacked
    autoencoder itself (the supervised view), one of its other views, a
    selective machine built for one phase, or a single module. *)
Inductive GradientMachine : Type :=
| Sae
| MesdMachine (i : Z)
| UnsupMachine
| SupUnsupMachine
| SelectiveMachine (g : ConnectedMachine)
| Module (m : Machine).

Inductive DataSet : Type :=
| UserData (id : Z)
| UnsupData (i : Z).

(** [weights] is the offset into [criterions_weights] the concatenation was
    given ([None] for a null pointer): the array is shared, not copied. *)
#[warnings="-register-all"]
Inductive Criterion : Type :=
| SupCriterion
| UnsupCriterion (i : Z)
| ConcatCriterion (n_outputs_of : GradientMachine) (n_criterions : Z)
                  (the_criterions : list Criterion) (weights : option Z).

Inductive Measurer : Type :=
| UserMeasurer (id : Z)
| UnsupMeasurer (i : Z)
| FakeDataMeasurer (d : DataSet) (m : Measurer).

Definition MeasurerList : Type := list Measurer.

(** Sequences handed to [forward] and [backward]. *)
Inductive Sequence : Type :=
| DataInputs
| Outputs (gm : GradientMachine)
| Beta (gm : GradientMachine)
| CriterionBeta (c : Criterion).

(** Calls into the substrate, in the order they are made. *)
Inductive Call : Type :=
| Forward (gm : GradientMachine) (inputs : Sequence)
| Backward (gm : GradientMachine) (inputs alpha : Sequence)
| CriterionForward (c : Criterion) (inputs : Sequence)
| CriterionBackward (c : Criterion) (inputs : Sequence)
| ParentFpropbprop (d : DataSet)
| ParentUpdateMachine (gm : GradientMachine) (lr : R)
| ClearDerivatives (gm : GradientMachine)
| SetExample (d : DataSet) (t : Z)
| ResizeBeta (m : Machine) (n : Z)
| ClearSequence (beta_of : Machine)
| CriterionSetDataSet (c : Criterion) (d : DataSet)
| MeasureExample (layer : Z)
| MeasureIteration (layer : Z)
| MeasureEnd (layer : Z)
| Message (text : string)
| Warning (text : string)
| StdOut (o : Output).

Record Trainer : Type := mkTrainer {
  sae : StackedAutoencoder;
  machine : GradientMachine;
  criterion : Criterion;
  sup_dataset : option DataSet;
  do_eval_criterion_weights : bool;
  epoch : Z;
  criterions_weights : list R;
  finetuning_learning_rates : list R;
  layerwise_training : bool;
  layerwise_layer : Z;
  topK_training : bool;
  topKlayers : Z;
  is_finetuning : bool;
  profile_gradients : bool;
  (* state of the modules the trainer drives *)
  partial_backprop : Machine -> bool;
  params : Machine -> nat -> R;
  der_params : Machine -> nat -> R;
  calls : list Call
}.

Definition set_machine (v : GradientMachine) (t : Trainer) : Trainer :=
  mkTrainer (sae t) v (criterion t) (sup_dataset t)
    (do_eval_criterion_weights t) (epoch t) (criterions_weights t)
    (finetuning_learning_rates t) (layerwise_training t) (layerwise_layer t)
    (topK_training t) (topKlayers t) (is_finetuning t) (profile_gradients t)
    (partial_backprop t) (params t) (der_params t) (calls t).

Definition set_criterion (v : Criterion) (t : Trainer) : Trainer :=
  mkTrainer (sae t) (machine t) v (sup_dataset t)
    (do_eval_criterion_weights t) (epoch t) (criterions_weights t)
    (finetuning_learning_rates t) (layerwise_training t) (layerwise_layer t)
    (topK_training t) (topKlayers t) (is_finetuning t) (profile_gradients t)
    (partial_backprop t) (params t) (der_params t) (calls t).

Definition set_sup_dataset (v : option DataSet) (t : Trainer) : Trainer :=
  mkTrainer (sae t) (machine t) (criterion t) v
    (do_eval_criterion_weights t) (epoch t) (criterions_weights t)
    (finetuning_learning_rates t) (layerwise_training t) (layerwise_layer t)
    (topK_training t) (topKlayers t) (is_finetuning t) (profile_gradients t)
    (partial_backprop t) (params t) (der_params t) (calls t).

Definition set_epoch (v : Z) (t : Trainer) : Trainer :=
  mkTrainer (sae t) (machine t) (criterion t) (sup_dataset t)
    (do_eval_criterion_weights t) v (criterions_weights t)
    (finetuning_learning_rates t) (layerwise_training t) (layerwise_layer t)
    (topK_training t) (topKlayers t) (is_finetuning t) (profile_gradients t)
    (partial_backprop t) (params t) (der_params t) (calls t).

Definition set_criterions_weights (v : list R) (t : Trainer) : Trainer :=
  mkTrainer (sae t) (machine t) (criterion t) (sup_dataset t)
    (do_eval_criterion_weights t) (epoch t) v
    (finetuning_learning_rates t) (layerwise_training t) (layerwise_layer t)
    (topK_training t) (topKlayers t) (is_finetuning t) (profile_gradients t)
    (partial_backprop t) (params t) (der_params t) (calls t).

Definition set_layerwise_training (v : bool) (t : Trainer) : Trainer :=
  mkTrainer (sae t) (machine t) (criterion t) (sup_dataset t)
    (do_eval_criterion_weights t) (epoch t) (criterions_weights t)
    (finetuning_learning_rates t) v (layerwise_layer t)
    (topK_training t) (topKlayers t) (is_finetuning t) (profile_gradients t)
    (partial_backprop t) (params t) (der_params t) (calls t).

Definition set_layerwise_layer (v : Z) (t : Trainer) : Trainer :=
  mkTrainer (sae t) (machine t) (criterion t) (sup_dataset t)
    (do_eval_criterion_weights t) (epoch t) (criterions_weights t)
    (finetuning_learning_rates t) (layerwise_training t) v
    (topK_training t) (topKlayers t) (is_finetuning t) (profile_gradients t)
    (partial_backprop t) (params t) (der_params t) (calls t).

Definition set_topK_training (v : bool) (t : Trainer) : Trainer :=
  mkTrainer (sae t) (machine t) (criterion t) (sup_dataset t)
    (do_eval_criterion_weights t) (epoch t) (criterions_weights t)
    (finetuning_learning_rates t) (layerwise_training t) (layerwise_layer t)
    v (topKlayers t) (is_finetuning t) (profile_gradients t)
    (partial_backprop t) (params t) (der_params t) (calls t).

Definition set_topKlayers (v : Z) (t : Trainer) : Trainer :=
  mkTrainer (sae t) (machine t) (criterion t) (sup_dataset t)
    (do_eval_criterion_weights t) (epoch t) (criterions_weights t)
    (finetuning_learning_rates t) (layerwise_training t) (layerwise_layer t)
    (topK_training t) v (is_finetuning t) (profile_gradients t)
    (partial_backprop t) (params t) (der_params t) (calls t).

Definition set_partial_backprop (v : Machine -> bool) (t : Trainer) : Trainer :=
  mkTrainer (sae t) (machine t) (criterion t) (sup_dataset t)
    (do_eval_criterion_weights t) (epoch t) (criterions_weights t)
    (finetuning_learning_rates t) (layerwise_training t) (layerwise_layer t)
    (topK_training t) (topKlayers t) (is_finetuning t) (profile_gradients t)
    v (params t) (der_params t) (calls t).

Definition set_params (v : Machine -> nat -> R) (t : Trainer) : Trainer :=
  mkTrainer (sae t) (machine t) (criterion t) (sup_dataset t)
    (do_eval_criterion_weights t) (epoch t) (criterions_weights t)
    (finetuning_learning_rates t) (layerwise_training t) (layerwise_layer t)
    (topK_training t) (topKlayers t) (is_finetuning t) (profile_gradients t)
    (partial_backprop t) v (der_params t) (calls t).

Definition set_der_params (v : Machine -> nat -> R) (t : Trainer) : Trainer :=
  mkTrainer (sae t) (machine t) (criterion t) (sup_dataset t)
    (do_eval_criterion_weights t) (epoch t) (criterions_weights t)
    (finetuning_learning_rates t) (layerwise_training t) (layerwise_layer t)
    (topK_training t) (topKlayers t) (is_finetuning t) (profile_gradients t)
    (partial_backprop t) (params t) v (calls t).

Definition call (c : Call) (t : Trainer) : Trainer :=
  mkTrainer (sae t) (machine t) (criterion t) (sup_dataset t)
    (do_eval_criterion_weights t) (epoch t) (criterions_weights t)
    (finetuning_learning_rates t) (layerwise_training t) (layerwise_layer t)
    (topK_training t) (topKlayers t) (is_finetuning t) (profile_gradients t)
    (partial_backprop t) (params t) (der_params t) (calls t ++ [c]).

(** The two members the main program writes directly before the supervised
    fine-tuning. *)
Definition set_finetuning_learning_rates (v : list R) (t : Trainer)
    : Trainer :=
  mkTrainer (sae t) (machine t) (criterion t) (sup_dataset t)
    (do_eval_criterion_weights t) (epoch t) (criterions_weights t)
    v (layerwise_training t) (layerwise_layer t)
    (topK_training t) (topKlayers t) (is_finetuning t) (profile_gradients t)
    (partial_backprop t) (params t) (der_params t) (calls t).

Definition set_is_finetuning (v : bool) (t : Trainer) : Trainer :=
  mkTrainer (sae t) (machine t) (criterion t) (sup_dataset t)
    (do_eval_criterion_weights t) (epoch t) (criterions_weights t)
    (finetuning_learning_rates t) (layerwise_training t) (layerwise_layer t)
    (topK_training t) (topKlayers t) v (profile_gradients t)
    (partial_backprop t) (params t) (der_params t) (calls t).

(** The constructor. The gradient-profiling pointers start null and are not
    part of the state. [sup_dataset] is left unset. *)
Definition new_StackedAutoencoderTrainer (machine_ : StackedAutoencoder)
    (do_eval_criterion_weights_ : bool)
    (partial0 : Machine -> bool) (params0 der0 : Machine -> nat -> R)
    : Trainer :=
  {| sae := machine_;
     machine := Sae;
     criterion := SupCriterion;
     sup_dataset := None;
     do_eval_criterion_weights := do_eval_criterion_weights_;
     epoch := 0;
     criterions_weights :=
       for_loop 0 (n_hidden_layers machine_ + 1)
         (fun i w => aset w i 0%R)
         (repeat 0%R (Z.to_nat (n_hidden_layers machine_ + 1)));
     finetuning_learning_rates :=
       for_loop 0 (n_hidden_layers machine_ + 1)
         (fun i w => aset w i 0%R)
         (repeat 0%R (Z.to_nat (n_hidden_layers machine_ + 1)));
     layerwise_training := false;
     layerwise_layer := 0;
     topK_training := false;
     topKlayers := 0;
     is_finetuning := false;
     profile_gradients := false;
     partial_backprop := partial0;
     params := params0;
     der_params := der0;
     calls := [] |}.

Definition setPartialBackprop (m : Machine) (flag : bool) (t : Trainer)
    : Trainer :=
  set_partial_backprop
    (fun m' => if Machine_eq_dec m' m then flag else partial_backprop t m') t.

(** *** Which parameters a machine holds *)

(** The coder record of a module, as [BuildCoders] made it. *)
Definition coder_of (s : StackedAutoencoder) (m : Machine) : option Coder :=
  let c := BuildCoders s in
  let at_ (l : list Coder) (i : Z) :=
    if (0 <=? i) && (i <? n_hidden_layers s) then nth_error l (Z.to_nat i)
    else None in
  match m with
  | Encoder i => at_ (encoders c) i
  | NoisyEncoder i =>
      match noisy_encoders c with Some l => at_ l i | None => None end
  | Decoder i => at_ (decoders c) i
  | Outputer => Some (outputer c)
  | Autoencoder _ | InputHandle => None
  end.

(** Modelled from the spec: a coder built from another one reads and
    accumulates into that coder's transform (tied weights are a view into the
    owner's storage; the noisy encoder is the encoder behind a corruption
    step). The parameter blocks a coder may write are its own and its
    owner's. *)
Definition coder_owners (s : StackedAutoencoder) (m : Machine)
    : list Machine :=
  match coder_of s m with
  | Some c => m :: match from_coder c with Some o => [o] | None => [] end
  | None => []
  end.

Definition module_owners (s : StackedAutoencoder) (m : Machine)
    : list Machine :=
  match m with
  | Autoencoder i =>
      (if is_noisy s then coder_owners s (NoisyEncoder i)
       else coder_owners s (Encoder i))
      ++ coder_owners s (Decoder i)
  | InputHandle => []
  | _ => coder_owners s m
  end.

Definition graph_of (s : StackedAutoencoder) (gm : GradientMachine)
    : option ConnectedMachine :=
  match gm with
  | Sae => BuildSupMachine s
  | MesdMachine i => BuildMesdMachine s i
  | UnsupMachine => BuildUnsupMachine s
  | SupUnsupMachine => BuildSupUnsupMachine s
  | SelectiveMachine g => Some g
  | Module _ => None
  end.

(** The parameter blocks reached through a machine. *)
Definition owners (s : StackedAutoencoder) (gm : GradientMachine)
    : list Machine :=
  match gm with
  | Module m => module_owners s m
  | _ => match graph_of s gm with
         | Some g => flat_map (module_owners s) (modules g)
         | None => []
         end
  end.

Definition owns (s : StackedAutoencoder) (gm : GradientMachine) (o : Machine)
    : bool :=
  existsb (Machine_eqb o) (owners s gm).

(** The substrate the trainer runs on: the numeric work of the gradient
    machines and of the generic stochastic-gradient trainer. *)
Record Substrate : Type := mkSubstrate {
  (* parameter-gradient of block [o], entry [k], after [gm->backward] *)
  backward_grad :
    GradientMachine -> Sequence -> Sequence -> Trainer -> Machine -> nat -> R;
  (* the generic update of one parameter: rate, parameter, gradient *)
  sgd_step : R -> R -> R -> R;
  learning_rate : R;
  (* the gradients [EvalHessian] samples for a machine, loss and data set *)
  derivatives : GradientMachine -> Criterion -> DataSet -> Derivatives;
  n_examples : DataSet -> Z;
  (* the floating-point arithmetic of the machine *)
  arith : Arithmetic
}.

(** [for (int i = hi; i > lo; i--) body]. *)
Definition for_down {S : Type} (hi lo : Z) (body : Z -> S -> S) (s : S) : S :=
  fold_left (fun s k => body (hi - Z.of_nat k) s)
            (seq 0 (Z.to_nat (hi - lo))) s.

Section Hooks.

Variable sub : Substrate.

(** Modelled from the spec: [gm->backward(inputs, alpha)] accumulates into
    the parameter-gradients of the blocks reached through [gm] and into no
    other block. *)
Definition do_backward (gm : GradientMachine) (inputs alpha : Sequence)
    (t : Trainer) : Trainer :=
  set_der_params
    (fun o k => if owns (sae t) gm o
                then backward_grad sub gm inputs alpha t o k
                else der_params t o k)
    (call (Backward gm inputs alpha) t).

(** Modelled from the spec: [ClearDerivatives(gm)] zeroes the
    parameter-gradients of [gm]. *)
Definition do_clear_derivatives (gm : GradientMachine) (t : Trainer)
    : Trainer :=
  set_der_params
    (fun o k => if owns (sae t) gm o then 0%R else der_params t o k)
    (call (ClearDerivatives gm) t).

(** Modelled from the spec: the generic parameter-update step of
    [StochasticGradientPlus], over the parameters of [gm]. *)
Definition parent_UpdateMachine (gm : GradientMachine) (lr : R)
    (t : Trainer) : Trainer :=
  set_params
    (fun o k => if owns (sae t) gm o
                then sgd_step sub lr (params t o k) (der_params t o k)
                else params t o k)
    (call (ParentUpdateMachine gm lr) t).

(** Modelled from the spec: [StochasticGradientPlus::fpropbprop], the
    uniform forward and backward pass through the active machine. *)
Definition parent_fpropbprop (d : DataSet) (t : Trainer) : Trainer :=
  let t := call (ParentFpropbprop d) t in
  let t := call (Forward (machine t) DataInputs) t in
  let t := call (CriterionForward (criterion t) (Outputs (machine t))) t in
  let t := call (CriterionBackward (criterion t) (Outputs (machine t))) t in
  do_backward (machine t) DataInputs (CriterionBeta (criterion t)) t.

Definition print_all (os : list Output) (t : Trainer) : Trainer :=
  fold_left (fun t o => call (StdOut o) t) os t.

Definition ProfileLocalGradMeasureExample (t : Trainer) : Trainer :=
  let n := n_hidden_layers (sae t) in
  (* supervised gradient *)
  let t := do_backward Sae DataInputs (CriterionBeta SupCriterion) t in
  let t := for_loop 0 n (fun i t => call (MeasureExample i) t) t in
  (* CLEAR! *)
  let t := do_clear_derivatives Sae t in
  (* gradient from upper (all costs) and decoder gradient *)
  let t := do_backward (machine t) DataInputs (CriterionBeta (criterion t)) t in
  for_loop 0 n (fun i t => call (MeasureExample i) t) t.

Definition ProfileLocalGradMeasureIteration (t : Trainer) : Trainer :=
  for_loop 0 (n_hidden_layers (sae t))
    (fun i t => call (MeasureIteration i) t) t.

Definition ProfileLocalGradMeasureEnd (t : Trainer) : Trainer :=
  for_loop 0 (n_hidden_layers (sae t)) (fun i t => call (MeasureEnd i) t) t.

Definition fpropbprop (d : DataSet) (t : Trainer) : Trainer :=
  let n := n_hidden_layers (sae t) in
  if negb (profile_gradients t) && negb (layerwise_training t)
     && negb (topK_training t)
  then parent_fpropbprop d t
  else if layerwise_training t then
    (* forward the mesd *)
    let t := call (Forward (MesdMachine (layerwise_layer t)) DataInputs) t in
    let t := call (CriterionForward (criterion t) (Outputs (machine t))) t in
    (* backward only the autoencoder *)
    let t := call (CriterionBackward (criterion t) (Outputs (machine t))) t in
    do_backward (Module (Autoencoder (layerwise_layer t))) DataInputs
                (CriterionBeta (criterion t)) t
  else if topK_training t then
    (* full forward *)
    let t := call (Forward (machine t) DataInputs) t in
    let t := call (CriterionForward (criterion t) (Outputs (machine t))) t in
    (* backward the criterion *)
    let t := call (CriterionBackward (criterion t) (Outputs (machine t))) t in
    (* backward the outputer (k must be at least 1) *)
    let t := do_backward (Module Outputer)
               (Outputs (Module (Encoder (n - 1))))
               (CriterionBeta (criterion t)) t in
    (* then backward the k-1 remaining layers *)
    for_down (n - 1) (n - topKlayers t)
      (fun i t =>
         if i =? n - 1
         then do_backward (Module (Encoder i))
                (Outputs (Module (Encoder (i - 1))))
                (Beta (Module Outputer)) t
         else if i =? 0
         then do_backward (Module (Encoder i)) DataInputs
                (Beta (Module (Encoder (i + 1)))) t
         else do_backward (Module (Encoder i))
                (Outputs (Module (Encoder (i - 1))))
                (Beta (Module (Encoder (i + 1)))) t)
      t
  else
    let t := call (Forward (machine t) DataInputs) t in
    let t := call (CriterionForward (criterion t) (Outputs (machine t))) t in
    let t := call (CriterionBackward (criterion t) (Outputs (machine t))) t in
    (* this does the backward!! *)
    ProfileLocalGradMeasureExample t.

Definition UpdateMachine (gm : GradientMachine) (current_learning_rate : R)
    (t : Trainer) : option Trainer :=
  if negb (is_finetuning t)
  then Some (parent_UpdateMachine gm current_learning_rate t)
  else
    match gm with
    | Sae =>
        let n := n_hidden_layers (sae t) in
        let t :=
          for_loop 0 n
            (fun i t =>
               if Rlt_dec 0 (aget 0%R (finetuning_learning_rates t) i)
               then parent_UpdateMachine (Module (Encoder i))
                      (aget 0%R (finetuning_learning_rates t) i) t
               else t)
            t in
        if Rlt_dec 0 (aget 0%R (finetuning_learning_rates t) n)
        then Some (parent_UpdateMachine (Module Outputer)
                     (aget 0%R (finetuning_learning_rates t) n) t)
        else Some t
    | _ => None (* assert(gm == sae) *)
    end.

(** Evaluation of the Hessian, skipped while [epoch] is zero. What
    [EvalHessian] prints is kept; the line that prints the weights is not.
    [sup_dataset] is read through a pointer that only [TrainSupUnsup] sets:
    reading it unset is undefined, and the model stops there. *)
Definition IterInitialize (t : Trainer) : option Trainer :=
  let n := n_hidden_layers (sae t) in
  if do_eval_criterion_weights t && negb (epoch t =? 0) then
    d <- sup_dataset t ;;
    r <- EvalHessian (arith sub) (derivatives sub Sae SupCriterion d)
                     (n_examples sub d) 1000 ;;
    let t := print_all (snd r) t in
    let t := set_criterions_weights
               (aset (criterions_weights t) 0 (fst r)) t in
    t <- for_loop_opt 0 n
           (fun i t =>
              r <- EvalHessian (arith sub)
                     (derivatives sub (MesdMachine i) (UnsupCriterion i)
                                  (UnsupData i))
                     (n_examples sub (UnsupData i)) 1000 ;;
              Some (set_criterions_weights
                      (aset (criterions_weights t) (1 + i) (fst r))
                      (print_all (snd r) t)))
           t ;;
    let t :=
      for_loop 0 n
        (fun i t =>
           let w := criterions_weights t in
           let w := aset w (1 + i)
                         (real_div (arith sub) (aget 0%R w (1 + i))
                                   (aget 0%R w 0)) in
           let w := aset w (1 + i)
                         (real_sqrt (arith sub) (aget 0%R w (1 + i))) in
           set_criterions_weights w t)
        t in
    Some (set_criterions_weights (aset (criterions_weights t) 0 1%R) t)
  else Some t.

Definition IterFinalize (t : Trainer) : Trainer :=
  let t := if profile_gradients t then ProfileLocalGradMeasureIteration t
           else t in
  set_epoch (epoch t + 1) t.

Definition TrainInitialize (t : Trainer) : Trainer := t.

Definition TrainFinalize (t : Trainer) : Trainer :=
  if profile_gradients t then ProfileLocalGradMeasureEnd t else t.

(** Modelled from the spec: one example of the generic training loop. The
    parameter-gradients are zeroed before each forward/backward pass, then
    the machine is updated (5). *)
Definition train_example (d : DataSet) (example : Z) (t : Trainer)
    : option Trainer :=
  let t := do_clear_derivatives (machine t) t in
  let t := call (SetExample d example) t in
  let t := fpropbprop d t in
  UpdateMachine (machine t) (learning_rate sub) t.

(** Modelled from the spec: [StochasticGradientPlus::train], which runs
    [n_iterations] epochs over the examples of [d] (the iteration cap, or
    fewer on convergence), with the trainer's hooks around them. *)
Definition sgd_train (n_iterations : Z) (d : DataSet) (ms : MeasurerList)
    (t : Trainer) : option Trainer :=
  let t := TrainInitialize t in
  t <- for_loop_opt 0 n_iterations
         (fun _ t =>
            t <- IterInitialize t ;;
            t <- for_loop_opt 0 (n_examples sub d)
                   (fun example t => train_example d example t) t ;;
            Some (IterFinalize t))
         t ;;
  Some (TrainFinalize t).

End Hooks.

Section Phases.

(** [train] of the generic stochastic-gradient trainer; it calls back the
    hooks above. *)
Variable train : DataSet -> MeasurerList -> Trainer -> option Trainer.

Definition TrainUnsupLayer (t : Trainer) : option Trainer :=
  if negb (layerwise_training t) then None (* assert(layerwise_training) *)
  else
    let t := set_machine (MesdMachine (layerwise_layer t)) t in
    let t := set_criterion (UnsupCriterion (layerwise_layer t)) t in
    let the_measurers := [UnsupMeasurer (layerwise_layer t)] in
    t <- train (UnsupData (layerwise_layer t)) the_measurers t ;;
    let t := set_machine Sae t in
    Some (set_criterion SupCriterion t).

Definition TrainUnsupLayerwise (t : Trainer) : option Trainer :=
  let t := set_layerwise_training true t in
  t <- for_loop_opt 0 (n_hidden_layers (sae t))
         (fun i t => TrainUnsupLayer (set_layerwise_layer i t)) t ;;
  Some (set_layerwise_training false t).

Definition TrainSelectiveUnsupLayerwise (pretrain_list : list Z)
    (t : Trainer) : option Trainer :=
  let t := set_layerwise_training true t in
  t <- for_loop_opt 0 (n_hidden_layers (sae t))
         (fun i t =>
            if aget 0 pretrain_list i =? 1
            then TrainUnsupLayer (set_layerwise_layer i t)
            else Some t)
         t ;;
  Some (set_layerwise_training false t).

(** "Find the topmost trained layer": the index and the number of layers
    to train. *)
Definition find_topmost (n : Z) (pretrain_list : list Z) : Z * Z :=
  for_loop 0 n
    (fun i r => if aget 0 pretrain_list i =? 1 then (i, snd r + 1) else r)
    (-1, 0).

(** "start by adding the encoders". *)
Definition selective_encoders (s : StackedAutoencoder)
    (pretrain_list : list Z) (selective_machine : ConnectedMachine)
    : option ConnectedMachine :=
  let index_topmost_trained :=
    fst (find_topmost (n_hidden_layers s) pretrain_list) in
  if negb (is_noisy s)
  then AddEncodersUpToIncluded selective_machine index_topmost_trained false
  else if aget 0 pretrain_list 0 =? 1
       then AddEncodersUpToIncluded selective_machine
              (index_topmost_trained - 1) true
       else AddEncodersUpToIncluded selective_machine
              (index_topmost_trained - 1) false.

(** "now add the decoders", which also sets the partial-backprop flags. *)
Definition selective_decoders (pretrain_list : list Z)
    (partial_backprop_ : bool) (tg : Trainer * ConnectedMachine)
    : option (Trainer * ConnectedMachine) :=
  let s := sae (fst tg) in
  for_loop_opt 0 (n_hidden_layers s)
    (fun i tg =>
       let t := fst tg in
       let selective_machine := snd tg in
       let t := setPartialBackprop (Encoder i) partial_backprop_ t in
       let t := if partial_backprop_ then call (ClearSequence (Encoder i)) t
                else t in
       if aget 0 pretrain_list i =? 1 then
         if negb (is_noisy s) then
           g <- addMachine (Decoder i) selective_machine ;;
           g <- connectOn (Encoder i) g ;;
           Some (t, g)
         else
           let t := setPartialBackprop (Autoencoder i) partial_backprop_ t in
           let t := if partial_backprop_
                    then call (ClearSequence (Autoencoder i)) t else t in
           if 0 <? i then
             g <- addMachine (Autoencoder i) selective_machine ;;
             g <- connectOn (Encoder (i - 1)) g ;;
             Some (t, g)
           else
             g <- addMachine (Autoencoder i) selective_machine ;;
             g <- connectOn InputHandle g ;;
             Some (t, g)
       else Some (t, selective_machine))
    tg.

(** [TrainSelectiveUnsup] up to its call of [train]: the trainer handed to
    [train] and the measurers. The criteria are collected in inclusion
    order; no weights are applied to them. *)
Definition TrainSelectiveUnsup_begin (pretrain_list : list Z)
    (partial_backprop_ : bool) (t : Trainer)
    : option (Trainer * MeasurerList) :=
  let s := sae t in
  let n := n_hidden_layers s in
  let index_topmost_trained := fst (find_topmost n pretrain_list) in
  let n_layers_to_train := snd (find_topmost n pretrain_list) in
  let t := if index_topmost_trained <? 0
           then call (Warning "no layer to pretrain!") t else t in
  g <- selective_encoders s pretrain_list new_machine ;;
  tg <- selective_decoders pretrain_list partial_backprop_ (t, g) ;;
  selective_machine <- build (snd tg) ;;
  let t := fst tg in
  let the_criterions :=
    for_loop 0 n
      (fun i cs => if aget 0 pretrain_list i =? 1
                   then cs ++ [UnsupCriterion i] else cs)
      [] in
  let concat_criterion :=
    ConcatCriterion (SelectiveMachine selective_machine) n_layers_to_train
                    the_criterions None in
  let the_measurers :=
    for_loop 0 n
      (fun i ms => if aget 0 pretrain_list i =? 1
                   then ms ++ [FakeDataMeasurer (UnsupData 0)
                                                (UnsupMeasurer i)]
                   else ms)
      [] in
  let t := set_machine (SelectiveMachine selective_machine) t in
  let t := set_criterion concat_criterion t in
  Some (t, the_measurers).

(** [TrainSelectiveUnsup] after [train] returned. *)
Definition TrainSelectiveUnsup_end (t : Trainer) : Trainer :=
  let s := sae t in
  let t :=
    for_loop 0 (n_hidden_layers s)
      (fun i t =>
         let t := setPartialBackprop (Encoder i) false t in
         if is_noisy s then setPartialBackprop (Autoencoder i) false t
         else t)
      t in
  let t := set_machine Sae t in
  set_criterion SupCriterion t.

Definition TrainSelectiveUnsup (pretrain_list : list Z)
    (partial_backprop_ : bool) (t : Trainer) : option Trainer :=
  tm <- TrainSelectiveUnsup_begin pretrain_list partial_backprop_ t ;;
  t <- train (UnsupData 0) (snd tm) (fst tm) ;;
  Some (TrainSelectiveUnsup_end t).

Definition TrainSupervisedTopKLayers (supervised_train_data : DataSet)
    (measurers : MeasurerList) (top_k_layers : Z) (t : Trainer)
    : option Trainer :=
  if (0 <? top_k_layers)
     && (top_k_layers <=? n_hidden_layers (sae t) + 1)
  then
    let t := set_topK_training true t in
    let t := set_topKlayers top_k_layers t in
    let t := set_machine Sae t in
    let t := set_criterion SupCriterion t in
    t <- train supervised_train_data measurers t ;;
    Some (set_topK_training false t)
  else None.

Definition TrainUnsupNotOutput (t : Trainer) : option Trainer :=
  let s := sae t in
  let n := n_hidden_layers s in
  let the_criterions := map UnsupCriterion (range n) in
  let t :=
    for_loop 0 n
      (fun i t => set_criterions_weights
                    (aset (criterions_weights t) (1 + i) 1%R) t)
      t in
  let concat_criterion :=
    ConcatCriterion UnsupMachine n the_criterions (Some 1) in
  let the_measurers :=
    map (fun i => FakeDataMeasurer (UnsupData 0) (UnsupMeasurer i))
        (range n) in
  let t := set_machine UnsupMachine t in
  let t := set_criterion concat_criterion t in
  t <- train (UnsupData 0) the_measurers t ;;
  let t := set_machine Sae t in
  Some (set_criterion SupCriterion t).

(** [TrainSupUnsup] up to its call of [train]. *)
Definition TrainSupUnsup_begin (supervised_train_data : DataSet)
    (measurers : MeasurerList) (the_unsup_criterions_weight : R)
    (t : Trainer) : Trainer * MeasurerList :=
  let s := sae t in
  let n := n_hidden_layers s in
  let t := set_sup_dataset (Some supervised_train_data) t in
  let the_criterions := criterion t :: map UnsupCriterion (range n) in
  let t := call (CriterionSetDataSet (criterion t) supervised_train_data) t in
  (* weights for the unsupervised criteria *)
  let t := set_criterions_weights (aset (criterions_weights t) 0 1%R) t in
  let t :=
    for_loop 0 n
      (fun i t => set_criterions_weights
                    (aset (criterions_weights t) (1 + i)
                          the_unsup_criterions_weight) t)
      t in
  let concat_criterion :=
    ConcatCriterion SupUnsupMachine (1 + n) the_criterions (Some 0) in
  let t := call (Warning "HACK - Assuming the first 2 measurers are on the trainset. Wrapping them!") t in
  let the_measurers :=
    for_loop 0 (Z.of_nat (List.length measurers))
      (fun i ms =>
         if i <? 2
         then ms ++ [FakeDataMeasurer (UnsupData 0)
                       (aget (UserMeasurer 0) measurers i)]
         else ms ++ [aget (UserMeasurer 0) measurers i])
      [] in
  let the_measurers :=
    for_loop 0 n
      (fun i ms => ms ++ [FakeDataMeasurer (UnsupData 0) (UnsupMeasurer i)])
      the_measurers in
  let t := set_machine SupUnsupMachine t in
  let t := set_criterion concat_criterion t in
  (t, the_measurers).

Definition TrainSupUnsup_end (t : Trainer) : Trainer :=
  let t := set_machine Sae t in
  set_criterion SupCriterion t.

Definition TrainSupUnsup (supervised_train_data : DataSet)
    (measurers : MeasurerList) (the_unsup_criterions_weight : R)
    (t : Trainer) : option Trainer :=
  let tm := TrainSupUnsup_begin supervised_train_data measurers
              the_unsup_criterions_weight t in
  t <- train (UnsupData 0) (snd tm) (fst tm) ;;
  Some (TrainSupUnsup_end t).

(** [TrainUnsup] before it trains: the outputer does partial backprop. *)
Definition TrainUnsup_begin (t : Trainer) : Trainer :=
  let t := setPartialBackprop Outputer true t in
  let t := call (ResizeBeta Outputer 1) t in
  call (ClearSequence Outputer) t.

Definition TrainUnsup (supervised_train_data : DataSet)
    (measurers : MeasurerList) (t : Trainer) : option Trainer :=
  let t := TrainUnsup_begin t in
  (* Train *)
  t <- TrainSupUnsup supervised_train_data measurers 1%R t ;;
  (* Restore the outputer *)
  Some (setPartialBackprop Outputer false t).

End Phases.

(** The weights a concatenated criterion reads: the shared array from the
    offset it was given. *)
Definition concat_weights (t : Trainer) : option (list R) :=
  match criterion t with
  | ConcatCriterion _ _ _ (Some off) =>
      Some (skipn (Z.to_nat off) (criterions_weights t))
  | _ => None
  end.

(** ** Vocabulary of the properties

    Invariants of the loops, closed forms and the instances the
    properties are tried on. *)

(** What holds of the machine after [i] rounds of the encoder loop of
    [BuildUnsupMachine], noisy case, [n] hidden layers. *)
Definition unsup_encoders_inv (n i : Z) (g : ConnectedMachine) : Prop :=
  built g = false
  /\ (i = 0 -> g = new_machine)
  /\ (forall m l, In (m, l) (nodes g) ->
        (m = InputHandle /\ 0 < i)
        \/ (exists j, m = Encoder j /\ 0 <= j < n - 1 /\ j < i))
  /\ (forall m l, In (m, l) (nodes g) ->
        l = 0%nat \/ exists p, In (m, p) (links g))
  /\ (forall j, 0 <= j < i -> j < n - 1 -> In (Encoder j) (modules g))
  /\ (0 < i -> In InputHandle (modules g)).

(** The producer [AddUnsupMachines] connects the autoencoder of layer [k]
    on, in the noisy case. *)
Definition noisy_source (k : Z) : Machine :=
  if 0 <? k then Encoder (k - 1) else InputHandle.

(** What holds after [i] rounds of [AddUnsupMachines] on [g0], noisy case. *)
Definition add_unsup_inv (g0 : ConnectedMachine) (i : Z)
    (g : ConnectedMachine) : Prop :=
  built g = false
  /\ current_layer g = current_layer g0
  /\ (forall x, In x (nodes g0) -> In x (nodes g))
  /\ (forall m l, In (m, l) (nodes g) ->
        In (m, l) (nodes g0)
        \/ (exists k, m = Autoencoder k /\ 0 <= k < i
                      /\ l = current_layer g0
                      /\ exists p, In (m, p) (links g)))
  /\ (forall x, In x (links g0) -> In x (links g))
  /\ (forall k, 0 <= k < i -> In (Autoencoder k, noisy_source k) (links g))
  /\ (forall k, 0 <= k < i -> In (Autoencoder k) (modules g)).

(** What holds after [i] rounds of the loop of [AddEncodersUpToIncluded]
    started on a new machine. *)
Definition add_encoders_inv (add_input_handle : bool) (i : Z)
    (g : ConnectedMachine) : Prop :=
  built g = false
  /\ (i = 0 -> g = new_machine)
  /\ (forall m l, In (m, l) (nodes g) ->
        (m = InputHandle /\ add_input_handle = true)
        \/ (exists j, m = Encoder j /\ 0 <= j < i))
  /\ (forall m l, In (m, l) (nodes g) ->
        l = 0%nat \/ exists p, In (m, p) (links g))
  /\ (forall j, 0 <= j < i -> In (Encoder j) (modules g))
  /\ (0 < i -> add_input_handle = true -> In InputHandle (modules g)).

(** The reconstruction branch of layer [k] and the module it is connected
    on. *)
Definition recon (noisy : bool) (k : Z) : Machine :=
  if noisy then Autoencoder k else Decoder k.

Definition recon_source (noisy : bool) (k : Z) : Machine :=
  if noisy then noisy_source k else Encoder k.

(** What holds after [i] rounds of "now add the decoders" started from the
    trainer [t0] and the machine [g0]. *)
Definition selective_inv (t0 : Trainer) (pl : list Z) (g0 : ConnectedMachine)
    (i : Z) (tg : Trainer * ConnectedMachine) : Prop :=
  let noisy := is_noisy (sae t0) in
  let g := snd tg in
  sae (fst tg) = sae t0
  /\ built g = false
  /\ current_layer g = current_layer g0
  /\ (forall x, In x (nodes g0) -> In x (nodes g))
  /\ (forall m l, In (m, l) (nodes g) ->
        In (m, l) (nodes g0)
        \/ (exists k, m = recon noisy k /\ 0 <= k < i /\ aget 0 pl k = 1
                      /\ exists p, In (m, p) (links g)))
  /\ (forall k, 0 <= k < i -> aget 0 pl k = 1 ->
                In (recon noisy k) (modules g))
  /\ (forall x, In x (links g0) -> In x (links g)).

Definition defaults_restored (t : Trainer) : Prop :=
  machine t = Sae /\ criterion t = SupCriterion.

(** Assumptions on the generic [train]: it returns, and it leaves the
    trainer's layerwise switch alone. *)
Definition train_returns
    (train : DataSet -> MeasurerList -> Trainer -> option Trainer) : Prop :=
  forall d ms x, exists y, train d ms x = Some y.

Definition train_keeps_layerwise
    (train : DataSet -> MeasurerList -> Trainer -> option Trainer) : Prop :=
  forall d ms x y, train d ms x = Some y ->
                   layerwise_training y = layerwise_training x.










(** The [max_variance] that [EvalHessian] ends with. *)
Definition hessian_max_variance (ar : Arithmetic) (der : Derivatives)
    (n_samples : Z) : R :=
  max_variance
    (find_max ar (count_parameters der) n_samples
              (grad_sumX (accumulate ar der n_samples))
              (grad_sumX2 (accumulate ar der n_samples))).










(** Fields a pass of the generic trainer leaves alone in layerwise mode. *)
Definition same_mode (t0 t : Trainer) : Prop :=
  sae t = sae t0
  /\ machine t = machine t0
  /\ criterion t = criterion t0
  /\ do_eval_criterion_weights t = do_eval_criterion_weights t0
  /\ is_finetuning t = is_finetuning t0
  /\ profile_gradients t = profile_gradients t0
  /\ layerwise_training t = layerwise_training t0
  /\ layerwise_layer t = layerwise_layer t0
  /\ partial_backprop t = partial_backprop t0.

Definition params_frame (t0 t : Trainer) : Prop :=
  forall o k, owns (sae t0) (machine t0) o = false ->
              params t o k = params t0 o k.

(** The topology of the end-to-end scenario: input width 4, one hidden layer
    of width 3, output width 2, not tied, not noisy. *)
Definition scenario_sae : StackedAutoencoder :=
  new_StackedAutoencoder "sae" "sigmoid" false false 4 1 [3] 2 false false.

(** The indices [hi, hi-1, ..., lo+1] a descending loop visits. *)
Definition descending (hi lo : Z) : list Z :=
  map (fun k => hi - Z.of_nat k) (seq 0 (Z.to_nat (hi - lo))).

(** What the top-K loop hands to the backward call of encoder [i]. *)
Definition topK_inputs (n i : Z) : Sequence :=
  if i =? n - 1 then Outputs (Module (Encoder (i - 1)))
  else if i =? 0 then DataInputs
  else Outputs (Module (Encoder (i - 1))).

Definition topK_alpha (n i : Z) : Sequence :=
  if i =? n - 1 then Beta (Module Outputer)
  else Beta (Module (Encoder (i + 1))).

(** A substrate with 1000 examples per data set and one group of two
    parameter-gradients, which vary twice as fast with the example for the
    layers' machines as for the supervised machine; it computes without
    rounding. *)
Definition example_substrate : Substrate :=
  {| backward_grad := fun _ _ _ _ _ _ => 1%R;
     sgd_step := fun lr p g => (p - lr * g)%R;
     learning_rate := (1 / 100)%R;
     derivatives :=
       fun gm _ _ =>
         mkDerivatives 1 [2]
           (fun i _ k => match gm with
                         | Sae => IZR (i + k)
                         | _ => IZR (2 * i + k)
                         end);
     n_examples := fun _ => 1000;
     arith := unrounded |}.

(** A fresh trainer on the scenario topology, and one on three hidden
    layers. *)
Definition example_trainer : Trainer :=
  new_StackedAutoencoderTrainer scenario_sae false
    (fun _ => false) (fun _ _ => 0%R) (fun _ _ => 0%R).

Definition three_layer_trainer : Trainer :=
  new_StackedAutoencoderTrainer
    (new_StackedAutoencoder "sae" "sigmoid" false false 4 3 [3; 3; 3] 2
                            false false)
    false (fun _ => false) (fun _ _ => 0%R) (fun _ _ => 0%R).

(** A trainer with reweighting enabled, after its first epoch. *)
Definition reweighting_trainer : Trainer :=
  set_epoch 1
    (set_sup_dataset (Some (UserData 0))
       (new_StackedAutoencoderTrainer scenario_sae true
          (fun _ => false) (fun _ _ => 0%R) (fun _ _ => 0%R))).

(** A stand-in for [train]: one pass over one example. *)
Definition one_pass (d : DataSet) (ms : MeasurerList) (t : Trainer)
    : option Trainer :=
  Some (IterFinalize (fpropbprop example_substrate d t)).


(** The value fine-tuning leaves in a parameter updated at rate [r]. *)
Definition finetuned (sub : Substrate) (r : R) (t : Trainer) (o : Machine)
    (k : nat) : R :=
  if Rlt_dec 0 r then sgd_step sub r (params t o k) (der_params t o k)
  else params t o k.

Definition finetune_inv (sub : Substrate) (t : Trainer) (b : Z)
    (t' : Trainer) : Prop :=
  sae t' = sae t
  /\ finetuning_learning_rates t' = finetuning_learning_rates t
  /\ der_params t' = der_params t
  /\ (forall i k, 0 <= i < b ->
        params t' (Encoder i) k
        = finetuned sub (aget 0%R (finetuning_learning_rates t) i) t
                    (Encoder i) k)
  /\ (forall o k, (forall i, 0 <= i < b -> o <> Encoder i) ->
        params t' o k = params t o k).

(** The settings of the trainer that a pass over the data reads but does not
    write: everything but the epoch counter, the criterion weights, the
    parameters, their gradients and the call log. *)
Definition settings (t : Trainer) :=
  (sae t, machine t, criterion t, sup_dataset t, do_eval_criterion_weights t,
   finetuning_learning_rates t, (layerwise_training t, layerwise_layer t),
   (topK_training t, topKlayers t), (is_finetuning t, profile_gradients t),
   partial_backprop t).

(** What a pass may not change: the settings and the epoch counter. *)
Definition schedule (t : Trainer) := (settings t, epoch t).

(** What holds after [i] rounds of [AddUnsupMachines] on [g0], in either
    mode: the reconstruction branches of the layers below [i] sit on the
    current layer, each connected on its source, and nothing else is new. *)
Definition add_recon_inv (noisy : bool) (g0 : ConnectedMachine) (i : Z)
    (g : ConnectedMachine) : Prop :=
  built g = false
  /\ current_layer g = current_layer g0
  /\ (forall x, In x (nodes g0) -> In x (nodes g))
  /\ (forall m l, In (m, l) (nodes g) ->
        In (m, l) (nodes g0)
        \/ (exists k, m = recon noisy k /\ 0 <= k < i
                      /\ l = current_layer g0
                      /\ exists p, In (m, p) (links g)))
  /\ (forall x, In x (links g0) -> In x (links g))
  /\ (forall k, 0 <= k < i ->
        In (recon noisy k, recon_source noisy k) (links g))
  /\ (forall k, 0 <= k < i -> In (recon noisy k) (modules g)).

(** The layers whose flag is 1, in increasing order. *)
Definition included_layers (n : Z) (pretrain_list : list Z) : list Z :=
  filter (fun i => aget 0 pretrain_list i =? 1) (range n).

(** The partial-backprop flags after [b] rounds of "now add the decoders". *)
Definition flags_inv (t0 : Trainer) (pl : list Z) (pb : bool) (b : Z)
    (tg : Trainer * ConnectedMachine) : Prop :=
  sae (fst tg) = sae t0
  /\ (forall i, 0 <= i < b -> partial_backprop (fst tg) (Encoder i) = pb)
  /\ (is_noisy (sae t0) = true ->
      forall i, 0 <= i < b -> aget 0 pl i = 1 ->
                partial_backprop (fst tg) (Autoencoder i) = pb).

(** The scenario trainer in fine-tuning mode: rate 1/2 for the encoder, no
    rate for the outputer. *)
Definition finetuning_trainer : Trainer :=
  set_finetuning_learning_rates [(1 / 2)%R; 0%R]
    (set_is_finetuning true example_trainer).

(** The groups are allocated as their sizes say. *)
Definition shaped (p : Analysis.Parameters) : Prop :=
  0 <= Analysis.n_data p
  /\ Z.of_nat (List.length (Analysis.data p)) = Analysis.n_data p
  /\ forall i, 0 <= i < Analysis.n_data p ->
       0 <= aget 0 (Analysis.size p) i
       /\ Z.of_nat (List.length (aget [] (Analysis.data p) i))
          = aget 0 (Analysis.size p) i.

(** Two parameter sets of the same layout. *)
Definition same_layout (p q : Analysis.Parameters) : Prop :=
  Analysis.n_data q = Analysis.n_data p
  /\ Analysis.size q = Analysis.size p
  /\ List.length (Analysis.data q) = List.length (Analysis.data p)
  /\ forall i, List.length (aget [] (Analysis.data q) i)
               = List.length (aget [] (Analysis.data p) i).

(** The position of group [pg] in a flat vector: the sizes before it. *)
Definition offset_of (sizes : list Z) (pg : Z) : Z :=
  for_loop 0 pg (fun q o => o + aget 0 sizes q) 0.

Definition in_group (p : Analysis.Parameters) (pg i : Z) : Prop :=
  0 <= pg < Analysis.n_data p /\ 0 <= i < aget 0 (Analysis.size p) pg.

(** The gradients of two groups, of one and of two parameters, and
    parameters of the same layout. *)
Definition example_gradients : Analysis.Parameters :=
  Analysis.mkParameters 2 [1; 2] [[3%R]; [4%R; 5%R]].

Definition example_parameters : Analysis.Parameters :=
  Analysis.mkParameters 2 [1; 2] [[1%R]; [1%R; 1%R]].

(** * Properties *)

(** ** Loops *)

Lemma seq_to_nat_succ (lo hi : Z) :
  lo <= hi ->
  seq 0 (Z.to_nat (hi + 1 - lo))
  = seq 0 (Z.to_nat (hi - lo)) ++ [Z.to_nat (hi - lo)].
Proof.
  intros H. replace (Z.to_nat (hi + 1 - lo)) with (S (Z.to_nat (hi - lo))) by lia.
  now rewrite seq_S.
Qed.

Lemma for_loop_empty {S : Type} (lo hi : Z) (body : Z -> S -> S) (s : S) :
  hi <= lo -> for_loop lo hi body s = s.
Proof.
  intros H. unfold for_loop. now replace (Z.to_nat (hi - lo)) with 0%nat by lia.
Qed.

Lemma for_loop_last {S : Type} (lo hi : Z) (body : Z -> S -> S) (s : S) :
  lo <= hi ->
  for_loop lo (hi + 1) body s = body hi (for_loop lo hi body s).
Proof.
  intros H. unfold for_loop. rewrite seq_to_nat_succ by assumption.
  rewrite fold_left_app. simpl. f_equal. lia.
Qed.

Lemma for_loop_inv {S : Type} (P : Z -> S -> Prop) (lo hi : Z)
    (body : Z -> S -> S) (s : S) :
  lo <= hi ->
  P lo s ->
  (forall i s, lo <= i < hi -> P i s -> P (i + 1) (body i s)) ->
  P hi (for_loop lo hi body s).
Proof.
  intros Hle H0 Hstep.
  assert (H : forall k : nat, Z.of_nat k <= hi - lo ->
            P (lo + Z.of_nat k) (for_loop lo (lo + Z.of_nat k) body s)).
  { induction k as [|k IH]; intros Hk.
    - rewrite Z.add_0_r, for_loop_empty by lia. assumption.
    - rewrite Nat2Z.inj_succ, <- Z.add_1_r, Z.add_assoc.
      rewrite for_loop_last by lia. apply Hstep; [lia | apply IH; lia]. }
  specialize (H (Z.to_nat (hi - lo))).
  replace (lo + Z.of_nat (Z.to_nat (hi - lo))) with hi in H by lia.
  apply H. lia.
Qed.

Lemma for_loop_opt_empty {S : Type} (lo hi : Z) (body : Z -> S -> option S)
    (s : S) :
  hi <= lo -> for_loop_opt lo hi body s = Some s.
Proof.
  intros H. unfold for_loop_opt.
  now replace (Z.to_nat (hi - lo)) with 0%nat by lia.
Qed.

Lemma for_loop_opt_last {S : Type} (lo hi : Z) (body : Z -> S -> option S)
    (s : S) :
  lo <= hi ->
  for_loop_opt lo (hi + 1) body s
  = (s' <- for_loop_opt lo hi body s ;; body hi s').
Proof.
  intros H. unfold for_loop_opt. rewrite seq_to_nat_succ by assumption.
  rewrite fold_left_app. simpl.
  replace (lo + Z.of_nat (Z.to_nat (hi - lo))) with hi by lia. reflexivity.
Qed.

(** The invariant rule of the aborting loop: the loop runs to its end when
    every iteration that starts from the invariant succeeds and keeps it. *)
Lemma for_loop_opt_inv {S : Type} (P : Z -> S -> Prop) (lo hi : Z)
    (body : Z -> S -> option S) (s : S) :
  lo <= hi ->
  P lo s ->
  (forall i s, lo <= i < hi -> P i s ->
               exists s', body i s = Some s' /\ P (i + 1) s') ->
  exists s', for_loop_opt lo hi body s = Some s' /\ P hi s'.
Proof.
  intros Hle H0 Hstep.
  assert (H : forall k : nat, Z.of_nat k <= hi - lo ->
            exists s', for_loop_opt lo (lo + Z.of_nat k) body s = Some s'
                       /\ P (lo + Z.of_nat k) s').
  { induction k as [|k IH]; intros Hk.
    - rewrite Z.add_0_r, for_loop_opt_empty by lia. eauto.
    - rewrite Nat2Z.inj_succ, <- Z.add_1_r, Z.add_assoc.
      rewrite for_loop_opt_last by lia.
      destruct IH as (s1 & E1 & P1); [lia|]. rewrite E1.
      apply Hstep; [lia | assumption]. }
  specialize (H (Z.to_nat (hi - lo))).
  replace (lo + Z.of_nat (Z.to_nat (hi - lo))) with hi in H by lia.
  apply H. lia.
Qed.

Lemma for_loop_opt_one {S : Type} (body : Z -> S -> option S) (s : S) :
  for_loop_opt 0 1 body s = body 0 s.
Proof. reflexivity. Qed.

(** ** Arrays *)


Lemma nth_error_range (n i : Z) :
  0 <= i < n -> nth_error (range n) (Z.to_nat i) = Some i.
Proof.
  intros H. unfold range. rewrite nth_error_map.
  rewrite nth_error_seq.
  destruct (Nat.ltb_spec (Z.to_nat i) (Z.to_nat n)); [|lia].
  simpl. f_equal. lia.
Qed.

Lemma aget_map_range {A : Type} (d : A) (f : Z -> A) (n i : Z) :
  0 <= i < n -> aget d (map f (range n)) i = f i.
Proof.
  intros H. unfold aget. apply nth_error_nth.
  rewrite nth_error_map, nth_error_range by assumption. reflexivity.
Qed.

Lemma upd_nat_length {A : Type} (a : list A) (n : nat) (v : A) :
  List.length (upd_nat a n v) = List.length a.
Proof.
  revert n. induction a as [|h t IH]; intros [|n]; simpl; auto.
Qed.

Lemma aset_length {A : Type} (a : list A) (i : Z) (v : A) :
  List.length (aset a i v) = List.length a.
Proof. unfold aset. destruct (i <? 0); auto using upd_nat_length. Qed.

Lemma nth_upd_nat_same {A : Type} (d : A) (a : list A) (n : nat) (v : A) :
  (n < List.length a)%nat -> nth n (upd_nat a n v) d = v.
Proof.
  revert n. induction a as [|h t IH]; intros [|n] H; simpl in *;
    try lia; auto. apply IH. lia.
Qed.

Lemma nth_upd_nat_other {A : Type} (d : A) (a : list A) (n m : nat) (v : A) :
  n <> m -> nth m (upd_nat a n v) d = nth m a d.
Proof.
  revert n m. induction a as [|h t IH]; intros [|n] [|m] H; simpl;
    try congruence; auto.
Qed.

Lemma aget_aset_same {A : Type} (d : A) (a : list A) (i : Z) (v : A) :
  0 <= i < Z.of_nat (List.length a) -> aget d (aset a i v) i = v.
Proof.
  intros H. unfold aget, aset.
  destruct (Z.ltb_spec i 0); [lia|]. apply nth_upd_nat_same. lia.
Qed.

Lemma aget_aset_other {A : Type} (d : A) (a : list A) (i j : Z) (v : A) :
  0 <= j -> i <> j -> aget d (aset a i v) j = aget d a j.
Proof.
  intros Hj H. unfold aget, aset.
  destruct (Z.ltb_spec i 0); [reflexivity|]. apply nth_upd_nat_other. lia.
Qed.

(** ** Coders *)

Lemma encoder_built (s : StackedAutoencoder) (i : Z) :
  0 <= i < n_hidden_layers s ->
  aget dummy_coder (encoders (BuildCoders s)) i
  = mkCoder (aget 0 (n_units_per_layer s) i)
            (aget 0 (n_units_per_layer s) (i + 1))
            false None false false (nonlinearity s)
            ((i =? 0) && first_layer_smoothed s).
Proof.
  intros H. unfold BuildCoders. cbn [encoders].
  rewrite aget_map_range by assumption.
  destruct ((i =? 0) && first_layer_smoothed s); reflexivity.
Qed.

Lemma coder_of_encoder (s : StackedAutoencoder) (i : Z) :
  0 <= i < n_hidden_layers s ->
  coder_of s (Encoder i)
  = Some (aget dummy_coder (encoders (BuildCoders s)) i).
Proof.
  intros H. unfold coder_of.
  destruct (Z.leb_spec 0 i); [|lia].
  destruct (Z.ltb_spec i (n_hidden_layers s)); [|lia]. cbn [andb].
  unfold aget. unfold BuildCoders at 1. cbn [encoders].
  rewrite nth_error_map, nth_error_range by assumption. cbn [option_map].
  f_equal. symmetry. apply nth_error_nth.
  unfold BuildCoders. cbn [encoders].
  rewrite nth_error_map, nth_error_range by assumption. reflexivity.
Qed.

Lemma coder_of_decoder (s : StackedAutoencoder) (i : Z) :
  0 <= i < n_hidden_layers s ->
  exists d,
    coder_of s (Decoder i) = Some d
    /\ n_inputs d = n_outputs (aget dummy_coder (encoders (BuildCoders s)) i)
    /\ n_outputs d = n_inputs (aget dummy_coder (encoders (BuildCoders s)) i)
    /\ from_coder d = (if tied_weights s then Some (Encoder i) else None)
    /\ is_transposed d = tied_weights s.
Proof.
  intros H. unfold coder_of.
  destruct (Z.leb_spec 0 i); [|lia].
  destruct (Z.ltb_spec i (n_hidden_layers s)); [|lia]. cbn [andb].
  unfold BuildCoders at 1. cbn [decoders].
  rewrite nth_error_map, nth_error_range by assumption. cbn [option_map].
  eexists. split; [reflexivity|].
  unfold BuildCoders. cbn [encoders].
  destruct (tied_weights s); cbn; auto.
Qed.

(** C3. Reconstruction shape symmetry: for every hidden layer [i] of every
    stacked autoencoder, [Decoder i] is constructed with the output width of
    [Encoder i] as its input width and the input width of [Encoder i] as its
    output width, with tied weights or without; these are the widths [i+1]
    and [i] of the topology. *)
Theorem decoder_mirrors_encoder (s : StackedAutoencoder) (i : Z) :
  0 <= i < n_hidden_layers s ->
  exists e d,
    coder_of s (Encoder i) = Some e
    /\ coder_of s (Decoder i) = Some d
    /\ n_inputs d = n_outputs e
    /\ n_outputs d = n_inputs e
    /\ n_inputs e = aget 0 (n_units_per_layer s) i
    /\ n_outputs e = aget 0 (n_units_per_layer s) (i + 1).
Proof.
  intros H.
  destruct (coder_of_decoder s i H) as (d & Ed & Hin & Hout & _).
  exists (aget dummy_coder (encoders (BuildCoders s)) i), d.
  rewrite coder_of_encoder by assumption.
  repeat split; try assumption; rewrite encoder_built by assumption;
    reflexivity.
Qed.

Lemma decoder_mirrors_encoder_witness :
  let s := new_StackedAutoencoder "sae" "tanh" true false 4 2 [3; 5] 2
                                  false false in
  exists e d,
    coder_of s (Encoder 1) = Some e
    /\ coder_of s (Decoder 1) = Some d
    /\ n_inputs d = n_outputs e
    /\ n_outputs d = n_inputs e
    /\ n_inputs e = aget 0 (n_units_per_layer s) 1
    /\ n_outputs e = aget 0 (n_units_per_layer s) (1 + 1).
Proof.
  intros s. apply (decoder_mirrors_encoder s 1). simpl. lia.
Defined.

(** ** Weight decay *)

Lemma setROption_same (m : Machine) (key : string) (v : R) (o : Options) :
  setROption m key v o m key = Some v.
Proof.
  unfold setROption. destruct (Machine_eq_dec m m); [|congruence].
  now rewrite String.eqb_refl.
Qed.

Lemma setROption_other (m m' : Machine) (key key' : string) (v : R)
    (o : Options) :
  m' <> m -> setROption m key v o m' key' = o m' key'.
Proof.
  intros H. unfold setROption. destruct (Machine_eq_dec m' m); congruence.
Qed.

(** One pass of [setROption] over the modules [f 0 .. f (n-1)]. *)
Lemma decay_loop (f : Z -> Machine) (key : string) (n : Z) (v : R)
    (o : Options) :
  (forall i j, f i = f j -> i = j) ->
  let o' := for_loop 0 n (fun i o => setROption (f i) key v o) o in
  (forall i, 0 <= i < n -> o' (f i) key = Some v)
  /\ (forall m k, (forall i, m <> f i) -> o' m k = o m k).
Proof.
  intros Hinj o'. subst o'.
  destruct (Z.le_gt_cases 0 n) as [Hn|Hn].
  - apply (for_loop_inv
             (fun b o' => (forall i, 0 <= i < b -> o' (f i) key = Some v)
                          /\ (forall m k, (forall i, m <> f i) ->
                                          o' m k = o m k)));
      [assumption | split; [intros; lia | reflexivity] |].
    intros i o1 Hi [H1 H2]. split.
    + intros j Hj. destruct (Z.eq_dec j i) as [->|Hne].
      * apply setROption_same.
      * rewrite setROption_other; [apply H1; lia|].
        intros E. apply Hne, Hinj, E.
    + intros m k Hm. rewrite setROption_other by apply Hm. now apply H2.
  - rewrite for_loop_empty by lia. split; [intros; lia | reflexivity].
Qed.

Lemma set_decay_spec (key : string) (s : StackedAutoencoder) (wd : R)
    (o : Options) :
  let o' := set_decay key s wd o in
  (forall i, 0 <= i < n_hidden_layers s -> o' (Encoder i) key = Some wd)
  /\ o' Outputer key = Some wd
  /\ (tied_weights s = true -> forall i k, o' (Decoder i) k = o (Decoder i) k)
  /\ (tied_weights s = false ->
      forall i, 0 <= i < n_hidden_layers s -> o' (Decoder i) key = Some wd).
Proof.
  intros o'. subst o'. unfold set_decay.
  destruct (decay_loop Encoder key (n_hidden_layers s) wd o) as [E1 E2];
    [congruence|].
  set (o1 := for_loop 0 (n_hidden_layers s)
               (fun i o => setROption (Encoder i) key wd o) o) in *.
  destruct (decay_loop Decoder key (n_hidden_layers s) wd
              (setROption Outputer key wd o1)) as [D1 D2]; [congruence|].
  destruct (tied_weights s); cbn [negb].
  - repeat split; try discriminate.
    + intros i Hi. rewrite setROption_other by discriminate. now apply E1.
    + apply setROption_same.
    + intros _ i k. rewrite setROption_other by discriminate.
      apply E2. discriminate.
  - repeat split; try discriminate.
    + intros i Hi. rewrite D2 by discriminate.
      rewrite setROption_other by discriminate. now apply E1.
    + rewrite D2 by discriminate. apply setROption_same.
    + intros _ i Hi. now apply D1.
Qed.

(** C10. With tied weights, [setL1WeightDecay] and [setL2WeightDecay] set
    the decay option on the linear layers of the encoders and of the
    outputer and leave every option of every decoder as it was; without
    tying, the decoders' linear layers receive the option too. *)
Theorem weight_decay_once_when_tied (s : StackedAutoencoder) (wd : R)
    (o : Options) :
  let o1 := setL1WeightDecay s wd o in
  let o2 := setL2WeightDecay s wd o in
  ((forall i, 0 <= i < n_hidden_layers s ->
      o1 (Encoder i) "l1 weight decay"%string = Some wd)
   /\ o1 Outputer "l1 weight decay"%string = Some wd
   /\ (tied_weights s = true ->
       forall i k, o1 (Decoder i) k = o (Decoder i) k)
   /\ (tied_weights s = false ->
       forall i, 0 <= i < n_hidden_layers s ->
                 o1 (Decoder i) "l1 weight decay"%string = Some wd))
  /\
  ((forall i, 0 <= i < n_hidden_layers s ->
      o2 (Encoder i) "weight decay"%string = Some wd)
   /\ o2 Outputer "weight decay"%string = Some wd
   /\ (tied_weights s = true ->
       forall i k, o2 (Decoder i) k = o (Decoder i) k)
   /\ (tied_weights s = false ->
       forall i, 0 <= i < n_hidden_layers s ->
                 o2 (Decoder i) "weight decay"%string = Some wd)).
Proof.
  intros o1 o2. split; apply set_decay_spec.
Qed.

(** ** The connected machine *)

Lemma Machine_eqb_true (a b : Machine) : Machine_eqb a b = true <-> a = b.
Proof. unfold Machine_eqb. destruct (Machine_eq_dec a b); split; congruence. Qed.

Lemma registered_In (g : ConnectedMachine) (m : Machine) :
  registered g m = true <-> In m (modules g).
Proof.
  unfold registered. rewrite existsb_exists. split.
  - intros (x & Hx & E). apply Machine_eqb_true in E. now subst.
  - intros H. exists m. split; [assumption | now apply Machine_eqb_true].
Qed.

Lemma has_producer_In (g : ConnectedMachine) (m : Machine) :
  has_producer g m = true <-> exists p, In (m, p) (links g).
Proof.
  unfold has_producer. rewrite existsb_exists. split.
  - intros ([c p] & Hx & E). apply Machine_eqb_true in E. simpl in E.
    subst. eauto.
  - intros (p & H). exists (m, p). split; [assumption|].
    now apply Machine_eqb_true.
Qed.

Lemma has_consumer_In (g : ConnectedMachine) (m : Machine) :
  has_consumer g m = true <-> exists c, In (c, m) (links g).
Proof.
  unfold has_consumer. rewrite existsb_exists. split.
  - intros ([c p] & Hx & E). apply Machine_eqb_true in E. simpl in E.
    subst. eauto.
  - intros (c & H). exists (c, m). split; [assumption|].
    now apply Machine_eqb_true.
Qed.

Lemma In_modules (g : ConnectedMachine) (m : Machine) :
  In m (modules g) <-> exists l, In (m, l) (nodes g).
Proof.
  unfold modules. rewrite in_map_iff. split.
  - intros ([m' l] & E & H). simpl in E. subst. eauto.
  - intros (l & H). exists (m, l). auto.
Qed.

Lemma addMachine_ok (m : Machine) (g : ConnectedMachine) :
  built g = false ->
  addMachine m g
  = Some (mkCM ((m, current_layer g) :: nodes g) (current_layer g)
               (links g) false).
Proof. intros H. unfold addMachine. now rewrite H. Qed.

Lemma addLayer_ok (g : ConnectedMachine) :
  built g = false ->
  addLayer g = Some (mkCM (nodes g) (S (current_layer g)) (links g) false).
Proof. intros H. unfold addLayer. now rewrite H. Qed.

(** Adding a module and connecting it on a registered producer. *)
Lemma add_connect_ok (m p : Machine) (g : ConnectedMachine) :
  built g = false ->
  In p (modules g) ->
  (x <- addMachine m g ;; connectOn p x)
  = Some (mkCM ((m, current_layer g) :: nodes g) (current_layer g)
               ((m, p) :: links g) false).
Proof.
  intros Hb Hp. rewrite addMachine_ok by assumption.
  unfold connectOn. cbn [built nodes current_layer links].
  rewrite Nat.eqb_refl. cbn [andb].
  replace (registered _ p) with true; [reflexivity|].
  symmetry. apply registered_In. unfold modules. cbn. now right.
Qed.

Lemma build_ok (g : ConnectedMachine) :
  built g = false ->
  (forall m l, In (m, l) (nodes g) ->
               l = 0%nat \/ exists p, In (m, p) (links g)) ->
  build g = Some (mkCM (nodes g) (current_layer g) (links g) true).
Proof.
  intros Hb H. unfold build. rewrite Hb.
  replace (forallb _ (nodes g)) with true; [reflexivity|].
  symmetry. apply forallb_forall. intros [m l] Hin. cbn [fst snd].
  destruct (H m l Hin) as [->|Hp]; [reflexivity|].
  apply has_producer_In in Hp. rewrite Hp. apply orb_true_r.
Qed.

Lemma filter_none {A : Type} (f : A -> bool) (l : list A) :
  (forall x, In x l -> f x = false) -> filter f l = [].
Proof.
  induction l as [|a l IH]; intros H; [reflexivity|].
  simpl. rewrite (H a) by now left. apply IH. intros x Hx. apply H. now right.
Qed.

Lemma backward_completes_ok (g : ConnectedMachine) :
  built g = true ->
  (forall m l, In (m, l) (nodes g) ->
               l = current_layer g \/ exists c, In (c, m) (links g)) ->
  backward_completes g = true.
Proof.
  intros Hb H. unfold backward_completes, missing_consumers. rewrite Hb.
  replace (filter _ (nodes g)) with (@nil (Machine * nat)); [reflexivity|].
  symmetry. apply filter_none. intros [m l] Hin. cbn [fst snd].
  destruct (H m l Hin) as [->|Hc].
  - now rewrite Nat.eqb_refl.
  - apply has_consumer_In in Hc. rewrite Hc. cbn. apply andb_false_r.
Qed.

(** ** The unsupervised machine in the noisy case *)

Ltac arith_goal := repeat split; try reflexivity; lia.

Lemma unsup_encoders_noisy (s : StackedAutoencoder) :
  is_noisy s = true ->
  0 <= n_hidden_layers s ->
  exists g, unsup_encoders s new_machine = Some g
            /\ unsup_encoders_inv (n_hidden_layers s) (n_hidden_layers s) g.
Proof.
  intros Hnoisy Hn. unfold unsup_encoders. rewrite Hnoisy.
  set (n := n_hidden_layers s) in *.
  apply (for_loop_opt_inv (unsup_encoders_inv n)); [assumption | |].
  - unfold unsup_encoders_inv. cbn.
    repeat split; try (intros; contradiction || lia).
  - intros i g Hi (Hb & H0 & Hshape & Hprod & Hreg & Hhandle).
    cbn [negb orb]. rewrite orb_false_r, andb_true_r.
    destruct (Z.ltb_spec i (n - 1)) as [Hlt|Hge];
      destruct (Z.eqb_spec i 0) as [Hi0|Hi0].
    + (* first layer, not the last: encoder and input handle *)
      subst i. rewrite (H0 eq_refl). cbn.
      eexists. split; [reflexivity|]. unfold unsup_encoders_inv. cbn.
      repeat split; try (intros; lia || discriminate).
      * intros m l [E|[E|[]]]; inversion E; subst;
          [left; split; [reflexivity | lia] | right; exists 0; arith_goal].
      * intros m l [E|[E|[]]]; inversion E; now left.
      * intros j Hj _. replace j with 0 by lia. auto.
      * auto.
    + (* an inner layer: encoder connected on the one below *)
      destruct (Z.ltb_spec 0 i) as [_|]; [|lia].
      assert (Hp : In (Encoder (i - 1)) (modules g)) by (apply Hreg; lia).
      pose proof (add_connect_ok (Encoder i) (Encoder (i - 1)) g Hb Hp) as E.
      destruct (addMachine (Encoder i) g) as [g1|]; [|discriminate].
      rewrite E. cbn.
      eexists. split; [reflexivity|]. unfold unsup_encoders_inv. cbn.
      repeat split; try (intros; lia).
      * intros m l [E'|Hin].
        -- inversion E'; subst. right. exists i. arith_goal.
        -- destruct (Hshape m l Hin) as [[-> ?]|(j & -> & ? & ?)];
             [left; split; [reflexivity | lia] | right; exists j; arith_goal].
      * intros m l [E'|Hin].
        -- inversion E'; subst. right. eexists. now left.
        -- destruct (Hprod m l Hin) as [->|(p & Hp')];
             [now left | right; exists p; now right].
      * intros j Hj Hj'. destruct (Z.eq_dec j i) as [->|Hne];
          [now left | right; apply Hreg; lia].
      * intros _. right. apply Hhandle. lia.
    + (* the only layer: the input handle alone *)
      subst i. rewrite (H0 eq_refl). cbn.
      eexists. split; [reflexivity|]. unfold unsup_encoders_inv. cbn.
      repeat split; try (intros; lia || discriminate).
      * intros m l [E|[]]; inversion E; subst. left. split; [reflexivity|lia].
      * intros m l [E|[]]; inversion E; now left.
      * auto.
    + (* the last layer, not the first: nothing is added *)
      exists g. split; [reflexivity|]. unfold unsup_encoders_inv.
      repeat split; try assumption; try (intros; lia).
      * intros m l Hin.
        destruct (Hshape m l Hin) as [[-> ?]|(j & -> & ? & ?)];
          [left; split; [reflexivity | lia] | right; exists j; arith_goal].
      * intros j Hj Hj'. apply Hreg; lia.
      * intros _. apply Hhandle. lia.
Qed.

Lemma AddUnsupMachines_noisy (s : StackedAutoencoder) (g0 : ConnectedMachine) :
  is_noisy s = true ->
  0 <= n_hidden_layers s ->
  built g0 = false ->
  (forall k, 0 <= k < n_hidden_layers s -> In (noisy_source k) (modules g0)) ->
  exists g, AddUnsupMachines s g0 = Some g
            /\ add_unsup_inv g0 ((n_hidden_layers s)) g.
Proof.
  intros Hnoisy Hn Hb0 Hsrc. unfold AddUnsupMachines. rewrite Hnoisy.
  apply (for_loop_opt_inv (add_unsup_inv g0)); [assumption | |].
  - unfold add_unsup_inv. repeat split; auto; intros; lia.
  - intros i g Hi (Hb & Hcur & Hnodes & Hshape & Hlinks & Hae & Hreg).
    cbn [negb].
    assert (Hp : In (noisy_source i) (modules g)).
    { apply In_modules. destruct (proj1 (In_modules g0 _) (Hsrc i Hi)) as [l Hl].
      exists l. now apply Hnodes. }
    assert (E : (if 0 <? i
                 then mch <- addMachine (Autoencoder i) g ;;
                      connectOn (Encoder (i - 1)) mch
                 else mch <- addMachine (Autoencoder i) g ;;
                      connectOn InputHandle mch)
                = (mch <- addMachine (Autoencoder i) g ;;
                   connectOn (noisy_source i) mch)).
    { unfold noisy_source. destruct (0 <? i); reflexivity. }
    rewrite E, add_connect_ok by assumption.
    eexists. split; [reflexivity|]. unfold add_unsup_inv. cbn.
    repeat split; try assumption.
    + intros x Hx. right. now apply Hnodes.
    + intros m l [E'|Hin].
      * inversion E'; subst. right. exists i.
        repeat split; try reflexivity; try lia; try assumption.
        eexists. now left.
      * destruct (Hshape m l Hin) as [?|(k & -> & ? & -> & p & Hp')];
          [now left|].
        right. exists k. repeat split; try reflexivity; try lia.
        exists p. now right.
    + intros x Hx. right. now apply Hlinks.
    + intros k Hk. destruct (Z.eq_dec k i) as [->|Hne];
        [now left | right; apply Hae; lia].
    + intros k Hk. destruct (Z.eq_dec k i) as [->|Hne];
        [now left | right; apply Hreg; lia].
Qed.

(** C1 (as amended). In the noisy case the unsupervised machine is built,
    holds [Encoder j] as a node of its own exactly for [0 <= j < N-1] (so
    never [Encoder (N-1)], and no encoder at all when [N = 1]), holds the
    input handle and every autoencoder, and its backward pass finds a
    consumer for every module outside the last layer. *)
Theorem unsup_machine_drops_last_encoder (s : StackedAutoencoder) :
  is_noisy s = true ->
  0 <= n_hidden_layers s ->
  exists g,
    BuildUnsupMachine s = Some g
    /\ (forall j, In (Encoder j) (modules g) <-> 0 <= j < n_hidden_layers s - 1)
    /\ ~ In (Encoder (n_hidden_layers s - 1)) (modules g)
    /\ (forall k, 0 <= k < n_hidden_layers s -> In (Autoencoder k) (modules g))
    /\ (1 <= n_hidden_layers s -> In InputHandle (modules g))
    /\ missing_consumers g = []
    /\ backward_completes g = true.
Proof.
  intros Hnoisy Hn. unfold BuildUnsupMachine.
  destruct (unsup_encoders_noisy s Hnoisy Hn)
    as (g0 & E0 & Hb0 & _ & Hshape0 & Hprod0 & Hreg0 & Hhandle0).
  rewrite E0.
  assert (Hsrc : forall k, 0 <= k < n_hidden_layers s ->
                           In (noisy_source k) (modules g0)).
  { intros k Hk. unfold noisy_source.
    destruct (Z.ltb_spec 0 k); [apply Hreg0; lia | apply Hhandle0; lia]. }
  destruct (AddUnsupMachines_noisy s g0 Hnoisy Hn Hb0 Hsrc)
    as (g1 & E1 & Hb1 & Hcur1 & Hnodes1 & Hshape1 & Hlinks1 & Hae1 & Hreg1).
  rewrite E1.
  rewrite build_ok; [| assumption |].
  2:{ intros m l Hin. destruct (Hshape1 m l Hin) as [H0|(k & _ & _ & _ & Hp)].
      - destruct (Hprod0 m l H0) as [?|(p & Hp)]; [now left|].
        right. exists p. now apply Hlinks1.
      - now right. }
  assert (Hcons : forall m l, In (m, l) (nodes g1) ->
            l = current_layer g1 \/ exists c, In (c, m) (links g1)).
  { intros m l Hin. destruct (Hshape1 m l Hin) as [H0|(k & _ & _ & -> & _)].
    - right. destruct (Hshape0 m l H0) as [[-> ?]|(j & -> & ? & ?)].
      + exists (Autoencoder 0). apply (Hae1 0). lia.
      + exists (Autoencoder (j + 1)).
        replace (Encoder j) with (noisy_source (j + 1)); [apply Hae1; lia|].
        unfold noisy_source. destruct (Z.ltb_spec 0 (j + 1)); [|lia].
        f_equal. lia.
    - now left. }
  assert (Henc : forall j, In (Encoder j) (modules g1)
                           <-> 0 <= j < n_hidden_layers s - 1).
  { intros j. split.
    - intros Hin. apply In_modules in Hin. destruct Hin as [l Hin].
      destruct (Hshape1 (Encoder j) l Hin) as [H0|(k & Ek & _)];
        [|discriminate].
      destruct (Hshape0 _ l H0) as [[Ek ?]|(j' & Ej & ? & ?)];
        [discriminate|]. inversion Ej. lia.
    - intros Hj. apply In_modules.
      destruct (proj1 (In_modules g0 _) (Hreg0 j ltac:(lia) ltac:(lia)))
        as [l Hl]. exists l. now apply Hnodes1. }
  assert (Hcomplete :
            backward_completes
              (mkCM (nodes g1) (current_layer g1) (links g1) true) = true).
  { apply backward_completes_ok; [reflexivity | exact Hcons]. }
  eexists. split; [reflexivity|].
  split; [exact Henc|]. split; [rewrite Henc; lia|].
  split; [exact Hreg1|].
  split.
  { intros H1. apply In_modules.
    destruct (proj1 (In_modules g0 _) (Hhandle0 ltac:(lia))) as [l Hl].
    exists l. now apply Hnodes1. }
  split; [|exact Hcomplete].
  unfold backward_completes in Hcomplete. cbn [built andb] in Hcomplete.
  destruct (missing_consumers _); [reflexivity | discriminate].
Qed.

Lemma unsup_machine_drops_last_encoder_witness :
  let s := new_StackedAutoencoder "sae" "sigmoid" false false 4 3 [3; 3; 3] 2
                                  true false in
  exists g,
    BuildUnsupMachine s = Some g
    /\ (forall j, In (Encoder j) (modules g) <-> 0 <= j < n_hidden_layers s - 1)
    /\ ~ In (Encoder (n_hidden_layers s - 1)) (modules g)
    /\ (forall k, 0 <= k < n_hidden_layers s -> In (Autoencoder k) (modules g))
    /\ (1 <= n_hidden_layers s -> In InputHandle (modules g))
    /\ missing_consumers g = []
    /\ backward_completes g = true.
Proof.
  intros s. apply (unsup_machine_drops_last_encoder s).
  - reflexivity.
  - simpl. lia.
Defined.

(** C1, the boundary case: with one hidden layer in the noisy case the only
    encoder is not a node of the unsupervised machine (it is not "still
    present"); the machine consists of the autoencoder and the input
    handle. *)
Lemma unsup_machine_one_layer_has_no_encoder :
  exists g,
    BuildUnsupMachine
      (new_StackedAutoencoder "sae" "sigmoid" false false 4 1 [3] 2 true false)
    = Some g
    /\ modules g = [Autoencoder 0; InputHandle]
    /\ ~ In (Encoder 0) (modules g)
    /\ backward_completes g = true.
Proof.
  eexists. split; [vm_compute; reflexivity|].
  split; [reflexivity|]. split; [|reflexivity].
  cbn. intros [H|[H|[]]]; discriminate.
Qed.

(** ** The selective machine *)

Lemma connectOn_added (m p : Machine) (cl : nat) (ns : list (Machine * nat))
    (ls : list (Machine * Machine)) :
  In p (m :: map fst ns) ->
  connectOn p (mkCM ((m, cl) :: ns) cl ls false)
  = Some (mkCM ((m, cl) :: ns) cl ((m, p) :: ls) false).
Proof.
  intros H. unfold connectOn. cbn [built nodes current_layer links].
  rewrite Nat.eqb_refl. cbn [andb].
  replace (registered _ p) with true; [reflexivity|].
  symmetry. apply registered_In. exact H.
Qed.

(** The index found by "find the topmost trained layer" is the highest
    included layer, or [-1] when no layer is included. *)
Lemma find_topmost_spec (n : Z) (pl : list Z) :
  0 <= n ->
  let top := fst (find_topmost n pl) in
  (forall k, 0 <= k < n -> aget 0 pl k = 1 -> k <= top)
  /\ (top = -1 \/ (0 <= top < n /\ aget 0 pl top = 1)).
Proof.
  intros Hn top. subst top. unfold find_topmost.
  apply (for_loop_inv
           (fun b r => (forall k, 0 <= k < b -> aget 0 pl k = 1 -> k <= fst r)
                       /\ (fst r = -1 \/ (0 <= fst r < b
                                          /\ aget 0 pl (fst r) = 1))));
    [assumption | cbn; split; [intros; lia | now left] |].
  intros i r Hi [Hmax Htop].
  destruct (Z.eqb_spec (aget 0 pl i) 1) as [E|E]; cbn [fst].
  - split; [intros; lia | right; split; [lia | assumption]].
  - split.
    + intros k Hk Hk1. destruct (Z.eq_dec k i) as [->|]; [congruence|].
      apply Hmax; [lia | assumption].
    + destruct Htop as [?|[? ?]]; [now left | right; split; [lia|assumption]].
Qed.

Lemma AddEncodersUpToIncluded_new (idx : Z) (h : bool) :
  exists g,
    AddEncodersUpToIncluded new_machine idx h = Some g
    /\ built g = false
    /\ (forall m l, In (m, l) (nodes g) ->
          (m = InputHandle /\ h = true)
          \/ (exists j, m = Encoder j /\ 0 <= j <= idx))
    /\ (forall m l, In (m, l) (nodes g) ->
          l = 0%nat \/ exists p, In (m, p) (links g))
    /\ (forall j, 0 <= j <= idx -> In (Encoder j) (modules g))
    /\ (h = true -> In InputHandle (modules g)).
Proof.
  unfold AddEncodersUpToIncluded.
  destruct (Z.le_gt_cases 0 idx) as [Hidx|Hidx].
  - (* the loop runs; the trailing branch is not taken *)
    destruct (for_loop_opt_inv (add_encoders_inv h) 0 (idx + 1)
                (fun i mch =>
                   mch <- addMachine (Encoder i) mch ;;
                   mch <- (if 0 <? i then connectOn (Encoder (i - 1)) mch
                           else Some mch) ;;
                   mch <- (if (i =? 0) && h then addMachine InputHandle mch
                           else Some mch) ;;
                   addLayer mch)
                new_machine) as (g & E & Hb & _ & Hshape & Hprod & Hreg & Hh).
    + lia.
    + unfold add_encoders_inv. cbn.
      repeat split; try (intros; contradiction || lia).
    + intros i g Hi (Hb & H0 & Hshape & Hprod & Hreg & Hh).
      rewrite addMachine_ok by assumption.
      destruct (Z.eqb_spec i 0) as [Hi0|Hi0].
      * subst i. rewrite (H0 eq_refl). cbn [Z.ltb Z.compare andb].
        destruct h; cbn; (eexists; split; [reflexivity|]);
          unfold add_encoders_inv; cbn;
          repeat split; try (intros; lia || discriminate).
        -- intros m l [E|[E|[]]]; inversion E; subst;
             [now left | right; exists 0; arith_goal].
        -- intros m l [E|[E|[]]]; inversion E; now left.
        -- intros j Hj. replace j with 0 by lia. auto.
        -- auto.
        -- intros m l [E|[]]; inversion E; subst. right. exists 0. arith_goal.
        -- intros m l [E|[]]; inversion E; now left.
        -- intros j Hj. replace j with 0 by lia. auto.
      * destruct (Z.ltb_spec 0 i) as [_|]; [|lia].
        rewrite connectOn_added
          by (right; apply (Hreg (i - 1)); lia).
        cbn [andb]. rewrite addLayer_ok by reflexivity. cbn.
        eexists. split; [reflexivity|]. unfold add_encoders_inv. cbn.
        repeat split; try (intros; lia).
        -- intros m l [E'|Hin].
           ++ inversion E'; subst. right. exists i. arith_goal.
           ++ destruct (Hshape m l Hin) as [[-> ?]|(j & -> & ?)];
                [now left | right; exists j; arith_goal].
        -- intros m l [E'|Hin].
           ++ inversion E'; subst. right. eexists. now left.
           ++ destruct (Hprod m l Hin) as [->|(p & Hp')];
                [now left | right; exists p; now right].
        -- intros j Hj. destruct (Z.eq_dec j i) as [->|Hne];
             [now left | right; apply Hreg; lia].
        -- intros _ Hh'. right. apply Hh; [lia | assumption].
    + rewrite E. destruct (Z.ltb_spec idx 0); [lia|]. cbn [andb].
      exists g. repeat split; try assumption.
      * intros m l Hin. destruct (Hshape m l Hin) as [?|(j & -> & ?)];
          [now left | right; exists j; arith_goal].
      * intros j Hj. apply Hreg. lia.
      * intros Hh'. apply Hh; [lia | assumption].
  - (* no encoder: only the input handle, if asked for *)
    rewrite for_loop_opt_empty by lia.
    destruct (Z.ltb_spec idx 0); [|lia]. cbn [andb].
    destruct h; cbn; (eexists; split; [reflexivity|]); cbn;
      repeat split; try (intros; contradiction || lia || discriminate).
    + intros m l [E|[]]; inversion E; now left.
    + intros m l [E|[]]; inversion E; now left.
    + auto.
Qed.

Lemma selective_decoders_spec (t0 : Trainer) (pl : list Z) (pb : bool)
    (g0 : ConnectedMachine) :
  0 <= n_hidden_layers (sae t0) ->
  built g0 = false ->
  (forall k, 0 <= k < n_hidden_layers (sae t0) -> aget 0 pl k = 1 ->
             In (recon_source (is_noisy (sae t0)) k) (modules g0)) ->
  exists tg, selective_decoders pl pb (t0, g0) = Some tg
             /\ selective_inv t0 pl g0 (n_hidden_layers (sae t0)) tg.
Proof.
  intros Hn Hb0 Hsrc. unfold selective_decoders. cbn [fst].
  apply (for_loop_opt_inv (selective_inv t0 pl g0)); [assumption | |].
  - unfold selective_inv. cbn.
    repeat split; auto; intros; lia.
  - intros i [t g] Hi (Hsae & Hb & Hcur & Hnodes & Hshape & Hreg & Hlinks).
    cbn [fst snd] in *.
    assert (Hp : aget 0 pl i = 1 ->
                 In (recon_source (is_noisy (sae t0)) i) (modules g)).
    { intros Hi1. apply In_modules.
      destruct (proj1 (In_modules g0 _) (Hsrc i Hi Hi1)) as [l Hl].
      exists l. now apply Hnodes. }
    assert (Hkeep : forall t',
              sae t' = sae t0 ->
              selective_inv t0 pl g0 (i + 1) (t', g) \/ aget 0 pl i = 1).
    { intros t' Ht'. destruct (Z.eq_dec (aget 0 pl i) 1) as [?|Hne];
        [now right | left].
      unfold selective_inv. cbn [fst snd].
      repeat split; try assumption.
      - intros m l Hin.
        destruct (Hshape m l Hin) as [?|(k & -> & ? & ? & ?)];
          [now left | right; exists k; repeat split; auto; lia].
      - intros k Hk Hk1. destruct (Z.eq_dec k i) as [->|];
          [congruence | apply Hreg; [lia | assumption]]. }
    assert (Hadd : forall t',
              sae t' = sae t0 -> aget 0 pl i = 1 ->
              selective_inv t0 pl g0 (i + 1)
                (t', mkCM ((recon (is_noisy (sae t0)) i, current_layer g)
                           :: nodes g)
                          (current_layer g)
                          ((recon (is_noisy (sae t0)) i,
                            recon_source (is_noisy (sae t0)) i) :: links g)
                          false)).
    { intros t' Ht' Hi1. unfold selective_inv. cbn.
      repeat split; try assumption.
      - intros x Hx. right. now apply Hnodes.
      - intros m l [E'|Hin].
        + inversion E'; subst. right. exists i.
          repeat split; try lia; try assumption. eexists. now left.
        + destruct (Hshape m l Hin) as [?|(k & -> & ? & ? & p & Hp')];
            [now left|].
          right. exists k. repeat split; try lia; try assumption.
          exists p. now right.
      - intros k Hk Hk1. destruct (Z.eq_dec k i) as [->|];
          [now left | right; apply Hreg; [lia | assumption]].
      - intros x Hx. right. now apply Hlinks. }
    destruct (Z.eqb_spec (aget 0 pl i) 1) as [Hi1|Hi1].
    + specialize (Hp Hi1). unfold recon, recon_source, noisy_source in *.
      destruct (is_noisy (sae t0)); cbn [negb].
      * destruct (0 <? i);
          rewrite addMachine_ok, connectOn_added
            by (assumption || (right; exact Hp));
          (eexists; split; [reflexivity|]); apply Hadd; try assumption;
          destruct pb; cbn; assumption.
      * rewrite addMachine_ok, connectOn_added
          by (assumption || (right; exact Hp)).
        eexists. split; [reflexivity|]. apply Hadd; try assumption.
        destruct pb; cbn; assumption.
    + eexists. split; [reflexivity|].
      destruct (Hkeep (if pb
                       then call (ClearSequence (Encoder i))
                              (setPartialBackprop (Encoder i) pb t)
                       else setPartialBackprop (Encoder i) pb t))
        as [H|H]; [destruct pb; cbn; assumption | exact H | contradiction].
Qed.

Lemma selective_encoders_spec (s : StackedAutoencoder) (pl : list Z) :
  let top := fst (find_topmost (n_hidden_layers s) pl) in
  let last := top - (if is_noisy s then 1 else 0) in
  exists g,
    selective_encoders s pl new_machine = Some g
    /\ built g = false
    /\ (forall m l, In (m, l) (nodes g) ->
          (m = InputHandle /\ is_noisy s = true /\ aget 0 pl 0 = 1)
          \/ (exists j, m = Encoder j /\ 0 <= j <= last))
    /\ (forall m l, In (m, l) (nodes g) ->
          l = 0%nat \/ exists p, In (m, p) (links g))
    /\ (forall j, 0 <= j <= last -> In (Encoder j) (modules g))
    /\ (is_noisy s = true -> aget 0 pl 0 = 1 -> In InputHandle (modules g)).
Proof.
  intros top last. subst last. unfold selective_encoders. fold top.
  destruct (is_noisy s); cbn [negb].
  - destruct (Z.eqb_spec (aget 0 pl 0) 1) as [E|E].
    + destruct (AddEncodersUpToIncluded_new (top - 1) true)
        as (g & Eg & Hb & Hshape & Hprod & Hreg & Hh).
      exists g. repeat split; try assumption.
      * intros m l Hin. destruct (Hshape m l Hin) as [[-> _]|?]; auto.
      * intros _ _. now apply Hh.
    + destruct (AddEncodersUpToIncluded_new (top - 1) false)
        as (g & Eg & Hb & Hshape & Hprod & Hreg & Hh).
      exists g. repeat split; try assumption.
      * intros m l Hin. destruct (Hshape m l Hin) as [[_ ?]|?];
          [discriminate | auto].
      * intros _ ?. contradiction.
  - destruct (AddEncodersUpToIncluded_new top false)
      as (g & Eg & Hb & Hshape & Hprod & Hreg & Hh).
    exists g. rewrite Z.sub_0_r. repeat split; try assumption.
    + intros m l Hin. destruct (Hshape m l Hin) as [[_ ?]|?];
        [discriminate | auto].
    + intros ?. discriminate.
Qed.

(** The machine [TrainSelectiveUnsup] builds, and what it holds. *)
Lemma TrainSelectiveUnsup_begin_spec (t : Trainer) (pl : list Z) (pb : bool) :
  0 <= n_hidden_layers (sae t) ->
  let n := n_hidden_layers (sae t) in
  let noisy := is_noisy (sae t) in
  let top := fst (find_topmost n pl) in
  exists t' ms g,
    TrainSelectiveUnsup_begin pl pb t = Some (t', ms)
    /\ machine t' = SelectiveMachine g
    /\ built g = true
    /\ (forall j, In (Encoder j) (modules g)
                  <-> 0 <= j <= top - (if noisy then 1 else 0))
    /\ (forall i, In (recon noisy i) (modules g)
                  <-> (0 <= i < n /\ aget 0 pl i = 1))
    /\ (forall i, ~ In (recon (negb noisy) i) (modules g))
    /\ (In InputHandle (modules g) <-> (noisy = true /\ aget 0 pl 0 = 1)).
Proof.
  intros Hn n noisy top. subst noisy.
  destruct (find_topmost_spec n pl Hn) as [Hmax Htop]. fold top in Hmax, Htop.
  destruct (selective_encoders_spec (sae t) pl)
    as (g0 & E0 & Hb0 & Hshape0 & Hprod0 & Hreg0 & Hh0).
  fold n top in Hshape0, Hreg0, Hh0.
  set (t1 := if top <? 0 then call (Warning "no layer to pretrain!") t else t).
  assert (Hsae1 : sae t1 = sae t) by (subst t1; destruct (top <? 0); reflexivity).
  destruct (selective_decoders_spec t1 pl pb g0) as ([t2 g2] & E2 & Hinv).
  { rewrite Hsae1. exact Hn. }
  { exact Hb0. }
  { rewrite Hsae1. fold n. intros k Hk Hk1. unfold recon_source.
    pose proof (Hmax k Hk Hk1) as Hle. unfold noisy_source.
    destruct (is_noisy (sae t)) eqn:En.
    - destruct (Z.ltb_spec 0 k).
      + apply Hreg0. lia.
      + assert (k = 0) by lia. subst k. apply Hh0; [reflexivity | assumption].
    - apply Hreg0. lia. }
  unfold selective_inv in Hinv. cbv zeta in Hinv.
  rewrite !Hsae1 in Hinv. fold n in Hinv.
  destruct Hinv as (Hsae2 & Hb2 & Hcur2 & Hnodes2 & Hshape2 & Hreg2 & Hlinks2).
  cbn [fst snd] in *.
  assert (Hbuild : build g2
                   = Some (mkCM (nodes g2) (current_layer g2) (links g2) true)).
  { apply build_ok; [assumption|]. intros m l Hin.
    destruct (Hshape2 m l Hin) as [H0|(k & _ & _ & _ & Hp)]; [|now right].
    destruct (Hprod0 m l H0) as [?|(p & Hp)]; [now left|].
    right. exists p. now apply Hlinks2. }
  unfold TrainSelectiveUnsup_begin. fold n top. fold t1.
  rewrite E0, E2. cbn [fst snd]. rewrite Hbuild.
  eexists _, _, _. split; [reflexivity|]. split; [reflexivity|].
  split; [reflexivity|].
  unfold modules. cbn [nodes]. fold (modules g2).
  assert (Henc : forall j, In (Encoder j) (modules g2)
                           <-> 0 <= j <= top - (if is_noisy (sae t) then 1 else 0)).
  { intros j. split.
    - intros Hin. apply In_modules in Hin. destruct Hin as [l Hin].
      destruct (Hshape2 _ l Hin) as [H0|(k & Ek & _)].
      + destruct (Hshape0 _ l H0) as [[Ek _]|(j' & Ej & ?)];
          [discriminate | inversion Ej; lia].
      + unfold recon in Ek. destruct (is_noisy (sae t)); discriminate.
    - intros Hj. apply In_modules.
      destruct (proj1 (In_modules g0 _) (Hreg0 j Hj)) as [l Hl].
      exists l. now apply Hnodes2. }
  split; [exact Henc|].
  split.
  { intros i. split.
    - intros Hin. apply In_modules in Hin. destruct Hin as [l Hin].
      destruct (Hshape2 _ l Hin) as [H0|(k & Ek & ? & ? & _)].
      + destruct (Hshape0 _ l H0) as [[Ek _]|(j' & Ej & ?)];
          unfold recon in *; destruct (is_noisy (sae t)); discriminate.
      + assert (i = k) by (unfold recon in Ek; destruct (is_noisy (sae t)); congruence).
        subst. split; assumption.
    - intros [Hi Hi1]. now apply Hreg2. }
  split.
  { intros i Hin. apply In_modules in Hin. destruct Hin as [l Hin].
    destruct (Hshape2 _ l Hin) as [H0|(k & Ek & _)].
    - destruct (Hshape0 _ l H0) as [[Ek _]|(j' & Ej & ?)];
        unfold recon in *; destruct (is_noisy (sae t)); discriminate.
    - unfold recon in Ek. destruct (is_noisy (sae t)); discriminate. }
  split.
  - intros Hin. apply In_modules in Hin. destruct Hin as [l Hin].
    destruct (Hshape2 _ l Hin) as [H0|(k & Ek & _)].
    + destruct (Hshape0 _ l H0) as [[_ ?]|(j' & Ej & ?)];
        [assumption | discriminate].
    + unfold recon in Ek. destruct (is_noisy (sae t)); discriminate.
  - intros [Hnoisy H1]. apply In_modules.
    destruct (proj1 (In_modules g0 _) (Hh0 Hnoisy H1)) as [l Hl].
    exists l. now apply Hnodes2.
Qed.

(** C7. The selective machine of [TrainSelectiveUnsup]: it is built; its
    encoders are those up to the highest included layer (in the noisy case,
    up to the layer below it), so none above that layer; a reconstruction
    branch (decoder, or autoencoder in the noisy case) is attached exactly
    for the included layers; the input handle is a module exactly when the
    machine is noisy and layer 0 is included. A read of the inclusion list
    past its end counts as "not included". *)
Theorem selective_machine_modules (t : Trainer) (pl : list Z) (pb : bool) :
  0 <= n_hidden_layers (sae t) ->
  let n := n_hidden_layers (sae t) in
  let noisy := is_noisy (sae t) in
  let top := fst (find_topmost n pl) in
  exists t' ms g,
    TrainSelectiveUnsup_begin pl pb t = Some (t', ms)
    /\ machine t' = SelectiveMachine g
    /\ built g = true
    /\ (forall k, 0 <= k < n -> aget 0 pl k = 1 -> k <= top)
    /\ (top = -1 \/ (0 <= top < n /\ aget 0 pl top = 1))
    /\ (forall j, In (Encoder j) (modules g)
                  <-> 0 <= j <= top - (if noisy then 1 else 0))
    /\ (forall j, top < j -> ~ In (Encoder j) (modules g))
    /\ (forall i, In (recon noisy i) (modules g)
                  <-> (0 <= i < n /\ aget 0 pl i = 1))
    /\ (forall i, ~ In (recon (negb noisy) i) (modules g))
    /\ (In InputHandle (modules g) <-> (noisy = true /\ aget 0 pl 0 = 1)).
Proof.
  intros Hn n noisy top.
  destruct (find_topmost_spec n pl Hn) as [Hmax Htop]. fold top in Hmax, Htop.
  destruct (TrainSelectiveUnsup_begin_spec t pl pb Hn)
    as (t' & ms & g & E & Hm & Hb & Henc & Hrec & Hother & Hhandle).
  fold n noisy top in Henc, Hrec, Hother, Hhandle.
  exists t', ms, g.
  split; [exact E|]. split; [exact Hm|]. split; [exact Hb|].
  split; [exact Hmax|]. split; [exact Htop|]. split; [exact Henc|].
  split.
  { intros j Hj Hin. apply Henc in Hin. destruct noisy; lia. }
  split; [exact Hrec|]. split; [exact Hother | exact Hhandle].
Qed.

(** ** Criterion weights *)

Lemma for_loop_opt_some {S : Type} (P : Z -> S -> Prop) (lo hi : Z)
    (body : Z -> S -> option S) (s s' : S) :
  lo <= hi ->
  P lo s ->
  (forall i s s', lo <= i < hi -> P i s -> body i s = Some s' ->
                  P (i + 1) s') ->
  for_loop_opt lo hi body s = Some s' ->
  P hi s'.
Proof.
  intros Hle H0 Hstep.
  assert (H : forall k : nat, Z.of_nat k <= hi - lo ->
            forall s', for_loop_opt lo (lo + Z.of_nat k) body s = Some s' ->
                       P (lo + Z.of_nat k) s').
  { induction k as [|k IH]; intros Hk r.
    - rewrite Z.add_0_r, for_loop_opt_empty by lia. congruence.
    - rewrite Nat2Z.inj_succ, <- Z.add_1_r, Z.add_assoc.
      rewrite for_loop_opt_last by lia.
      destruct (for_loop_opt lo (lo + Z.of_nat k) body s) as [s1|] eqn:E1;
        [|discriminate].
      intros Hr. apply (Hstep _ s1); [lia | apply IH; [lia | reflexivity] |].
      exact Hr. }
  intros E. specialize (H (Z.to_nat (hi - lo))).
  replace (lo + Z.of_nat (Z.to_nat (hi - lo))) with hi in H by lia.
  apply H; [lia | exact E].
Qed.

(** Filling entries [1..n] of an array of [n+1] entries whose entry 0 is
    1.0. *)
Lemma weights_filled (n : Z) (w : R) (l : list R) :
  0 <= n ->
  Z.of_nat (List.length l) = n + 1 ->
  for_loop 0 n (fun i l => aset l (1 + i) w) (aset l 0 1%R)
  = 1%R :: repeat w (Z.to_nat n).
Proof.
  intros Hn Hlen.
  assert (H : List.length (for_loop 0 n (fun i l => aset l (1 + i) w)
                                    (aset l 0 1%R)) = List.length l
              /\ aget 0%R (for_loop 0 n (fun i l => aset l (1 + i) w)
                                    (aset l 0 1%R)) 0 = 1%R
              /\ forall j, 1 <= j < 1 + n ->
                   aget 0%R (for_loop 0 n (fun i l => aset l (1 + i) w)
                                      (aset l 0 1%R)) j = w).
  { apply (for_loop_inv
             (fun b l' => List.length l' = List.length l
                          /\ aget 0%R l' 0 = 1%R
                          /\ forall j, 1 <= j < 1 + b -> aget 0%R l' j = w));
      [assumption | |].
    - split; [apply aset_length|]. split; [|intros; lia].
      apply aget_aset_same. lia.
    - intros i l' Hi (Hl & H0 & Hj). split; [now rewrite aset_length|].
      split; [rewrite aget_aset_other by lia; assumption|].
      intros j Hj'. destruct (Z.eq_dec j (1 + i)) as [->|Hne].
      + apply aget_aset_same. lia.
      + rewrite aget_aset_other by lia. apply Hj. lia. }
  destruct H as (Hl & H0 & Hj).
  apply (nth_ext _ _ 0%R 0%R).
  - rewrite Hl. cbn [List.length]. rewrite repeat_length. lia.
  - intros k Hk. rewrite Hl in Hk. destruct k as [|k].
    + exact H0.
    + cbn [nth]. rewrite nth_repeat_lt by lia.
      specialize (Hj (Z.of_nat (S k)) ltac:(lia)).
      unfold aget in Hj. now rewrite Nat2Z.id in Hj.
Qed.

(** The weight-setting loops write [criterions_weights] and nothing else. *)
Lemma weights_loop (n : Z) (f : Z -> list R -> list R) (t0 : Trainer) :
  0 <= n ->
  let t := for_loop 0 n
             (fun i t => set_criterions_weights (f i (criterions_weights t)) t)
             t0 in
  criterions_weights t = for_loop 0 n f (criterions_weights t0)
  /\ sae t = sae t0
  /\ machine t = machine t0
  /\ criterion t = criterion t0
  /\ sup_dataset t = sup_dataset t0
  /\ partial_backprop t = partial_backprop t0
  /\ calls t = calls t0.
Proof.
  intros Hn t. subst t.
  apply (for_loop_inv
           (fun b t => criterions_weights t
                       = for_loop 0 b f (criterions_weights t0)
                       /\ sae t = sae t0
                       /\ machine t = machine t0
                       /\ criterion t = criterion t0
                       /\ sup_dataset t = sup_dataset t0
                       /\ partial_backprop t = partial_backprop t0
                       /\ calls t = calls t0));
    [assumption | |].
  - rewrite for_loop_empty by lia. repeat split.
  - intros i t Hi (Hw & ? & ? & ? & ? & ? & ?). cbn.
    rewrite for_loop_last by lia. rewrite Hw. repeat split; assumption.
Qed.

Lemma TrainSupUnsup_begin_spec (d : DataSet) (ms : MeasurerList) (w : R)
    (t : Trainer) :
  0 <= n_hidden_layers (sae t) ->
  Z.of_nat (List.length (criterions_weights t)) = n_hidden_layers (sae t) + 1 ->
  let n := n_hidden_layers (sae t) in
  let t' := fst (TrainSupUnsup_begin d ms w t) in
  sae t' = sae t
  /\ machine t' = SupUnsupMachine
  /\ criterion t'
     = ConcatCriterion SupUnsupMachine (1 + n)
                       (criterion t :: map UnsupCriterion (range n)) (Some 0)
  /\ criterions_weights t' = 1%R :: repeat w (Z.to_nat n)
  /\ partial_backprop t' = partial_backprop t.
Proof.
  intros Hn Hlen n t'. subst t'. unfold TrainSupUnsup_begin. cbn [fst].
  fold n.
  set (t0 := set_criterions_weights _ _).
  pose proof (weights_loop n (fun i l => aset l (1 + i) w) t0 Hn) as H.
  cbv beta zeta in H.
  remember (for_loop 0 n
              (fun i t => set_criterions_weights
                            (aset (criterions_weights t) (1 + i) w) t) t0)
    as L eqn:EL.
  destruct H as (Hw & Hs & Hm & Hc & Hd & Hp & Hcalls).
  cbn. rewrite Hs, Hw, Hp. subst t0. cbn.
  repeat split. apply weights_filled; assumption.
Qed.

(** C5. [TrainSupUnsup] hands [train] the joint machine and a concatenated
    criterion over the current criterion and the [N] unsupervised criteria,
    whose weights are 1.0 for the supervised loss and the caller's scalar for
    every unsupervised loss. [TrainUnsup] runs the same phase with weight 1.0
    while the outputer does partial backprop, and clears that flag once
    [train] has returned. *)
Theorem joint_criterion_weights (d : DataSet) (ms : MeasurerList) (w : R)
    (t : Trainer) :
  0 <= n_hidden_layers (sae t) ->
  Z.of_nat (List.length (criterions_weights t)) = n_hidden_layers (sae t) + 1 ->
  let n := n_hidden_layers (sae t) in
  let joint := TrainSupUnsup_begin d ms w t in
  let unsup := TrainSupUnsup_begin d ms 1%R (TrainUnsup_begin t) in
  (* the joint phase *)
  machine (fst joint) = SupUnsupMachine
  /\ criterion (fst joint)
     = ConcatCriterion SupUnsupMachine (1 + n)
                       (criterion t :: map UnsupCriterion (range n)) (Some 0)
  /\ concat_weights (fst joint) = Some (1%R :: repeat w (Z.to_nat n))
  /\ (forall train,
        TrainSupUnsup train d ms w t
        = (x <- train (UnsupData 0) (snd joint) (fst joint) ;;
           Some (TrainSupUnsup_end x)))
  (* the unsupervised phase that also trains the outputer *)
  /\ partial_backprop (fst unsup) Outputer = true
  /\ concat_weights (fst unsup) = Some (1%R :: repeat 1%R (Z.to_nat n))
  /\ (forall train,
        TrainUnsup train d ms t
        = (x <- train (UnsupData 0) (snd unsup) (fst unsup) ;;
           Some (setPartialBackprop Outputer false (TrainSupUnsup_end x))))
  /\ (forall x,
        partial_backprop
          (setPartialBackprop Outputer false (TrainSupUnsup_end x)) Outputer
        = false).
Proof.
  intros Hn Hlen n joint unsup.
  destruct (TrainSupUnsup_begin_spec d ms w t Hn Hlen)
    as (_ & Hm & Hc & Hw & _).
  destruct (TrainSupUnsup_begin_spec d ms 1%R (TrainUnsup_begin t) Hn Hlen)
    as (_ & Hm' & Hc' & Hw' & Hp').
  fold n joint in Hm, Hc, Hw. cbn [sae TrainUnsup_begin] in Hw'.
  change (sae (TrainUnsup_begin t)) with (sae t) in *.
  fold n unsup in Hm', Hc', Hw', Hp'.
  split; [exact Hm|]. split; [exact Hc|].
  split; [unfold concat_weights; now rewrite Hc, Hw|].
  split; [reflexivity|].
  split.
  { rewrite Hp'. cbn. destruct (Machine_eq_dec Outputer Outputer); congruence. }
  split; [unfold concat_weights; now rewrite Hc', Hw'|].
  split.
  { intros train. unfold TrainUnsup, TrainSupUnsup. fold unsup.
    destruct (train (UnsupData 0) (snd unsup) (fst unsup)); reflexivity. }
  intros x. cbn. destruct (Machine_eq_dec Outputer Outputer); congruence.
Qed.

(** ** Phases restore the defaults *)

Lemma setPartialBackprop_same (m : Machine) (b : bool) (t : Trainer) :
  partial_backprop (setPartialBackprop m b t) m = b.
Proof. cbn. destruct (Machine_eq_dec m m); congruence. Qed.

Lemma setPartialBackprop_false (m m' : Machine) (t : Trainer) :
  partial_backprop t m' = false ->
  partial_backprop (setPartialBackprop m false t) m' = false.
Proof. intros H. cbn. destruct (Machine_eq_dec m' m); auto. Qed.

Lemma TrainSelectiveUnsup_end_spec (y : Trainer) :
  let t' := TrainSelectiveUnsup_end y in
  sae t' = sae y
  /\ defaults_restored t'
  /\ forall i, 0 <= i < n_hidden_layers (sae y) ->
       partial_backprop t' (Encoder i) = false
       /\ (is_noisy (sae y) = true ->
           partial_backprop t' (Autoencoder i) = false).
Proof.
  intros t'. subst t'. unfold TrainSelectiveUnsup_end, defaults_restored.
  cbn [sae machine criterion partial_backprop set_machine set_criterion].
  destruct (Z.le_gt_cases 0 (n_hidden_layers (sae y))) as [Hn|Hn].
  - assert (H : sae (for_loop 0 (n_hidden_layers (sae y))
                       (fun i t =>
                          let t := setPartialBackprop (Encoder i) false t in
                          if is_noisy (sae y)
                          then setPartialBackprop (Autoencoder i) false t
                          else t) y) = sae y
                /\ forall i, 0 <= i < n_hidden_layers (sae y) ->
                     partial_backprop
                       (for_loop 0 (n_hidden_layers (sae y))
                          (fun i t =>
                             let t := setPartialBackprop (Encoder i) false t in
                             if is_noisy (sae y)
                             then setPartialBackprop (Autoencoder i) false t
                             else t) y) (Encoder i) = false
                     /\ (is_noisy (sae y) = true ->
                         partial_backprop
                           (for_loop 0 (n_hidden_layers (sae y))
                              (fun i t =>
                                 let t :=
                                   setPartialBackprop (Encoder i) false t in
                                 if is_noisy (sae y)
                                 then setPartialBackprop (Autoencoder i) false t
                                 else t) y) (Autoencoder i) = false)).
    { apply (for_loop_inv
               (fun b t => sae t = sae y
                           /\ forall i, 0 <= i < b ->
                                partial_backprop t (Encoder i) = false
                                /\ (is_noisy (sae y) = true ->
                                    partial_backprop t (Autoencoder i)
                                    = false)));
        [assumption | split; [reflexivity | intros; lia] |].
      intros i t Hi [Hs Hf]. cbv zeta.
      destruct (is_noisy (sae y)) eqn:En.
      - split; [exact Hs|]. intros j Hj.
        destruct (Z.eq_dec j i) as [->|Hne].
        + split; [|intros _; apply setPartialBackprop_same].
          apply setPartialBackprop_false, setPartialBackprop_same.
        + destruct (Hf j ltac:(lia)) as [H1 H2]. split.
          * now apply setPartialBackprop_false, setPartialBackprop_false.
          * intros _.
            apply setPartialBackprop_false, setPartialBackprop_false.
            now apply H2.
      - split; [exact Hs|]. intros j Hj. split; [|discriminate].
        destruct (Z.eq_dec j i) as [->|Hne].
        + apply setPartialBackprop_same.
        + apply setPartialBackprop_false. apply Hf. lia. }
    destruct H as [Hs Hf]. repeat split; try assumption; now apply Hf.
  - rewrite for_loop_empty by lia. repeat split; intros; lia.
Qed.

Lemma TrainUnsupLayer_some
    (train : DataSet -> MeasurerList -> Trainer -> option Trainer)
    (t t' : Trainer) :
  TrainUnsupLayer train t = Some t' ->
  defaults_restored t'
  /\ exists y, train (UnsupData (layerwise_layer t))
                     [UnsupMeasurer (layerwise_layer t)]
                     (set_criterion (UnsupCriterion (layerwise_layer t))
                        (set_machine (MesdMachine (layerwise_layer t)) t))
               = Some y
               /\ t' = set_criterion SupCriterion (set_machine Sae y).
Proof.
  unfold TrainUnsupLayer. destruct (layerwise_training t); [|discriminate].
  cbn [negb layerwise_layer set_machine set_criterion].
  destruct (train _ _ _) as [y|] eqn:E; [|discriminate].
  intros H. inversion H; subst. split; [split; reflexivity|].
  exists y. split; reflexivity.
Qed.

Lemma TrainUnsupLayer_returns
    (train : DataSet -> MeasurerList -> Trainer -> option Trainer)
    (t : Trainer) :
  train_returns train ->
  train_keeps_layerwise train ->
  layerwise_training t = true ->
  exists t', TrainUnsupLayer train t = Some t'
             /\ layerwise_training t' = true.
Proof.
  intros Hret Hkeep Hl. unfold TrainUnsupLayer. rewrite Hl.
  cbn [negb layerwise_layer set_machine set_criterion].
  destruct (Hret (UnsupData (layerwise_layer t))
                 [UnsupMeasurer (layerwise_layer t)]
                 (set_criterion (UnsupCriterion (layerwise_layer t))
                    (set_machine (MesdMachine (layerwise_layer t)) t)))
    as [y Ey].
  cbn [set_machine set_criterion layerwise_layer] in Ey. rewrite Ey.
  eexists. split; [reflexivity|]. cbn. rewrite (Hkeep _ _ _ _ Ey). exact Hl.
Qed.

Section PhaseProtocol.

Variable train : DataSet -> MeasurerList -> Trainer -> option Trainer.

Lemma TrainUnsupLayerwise_restores (t t' : Trainer) :
  1 <= n_hidden_layers (sae t) ->
  TrainUnsupLayerwise train t = Some t' ->
  defaults_restored t' /\ layerwise_training t' = false.
Proof.
  intros Hn. unfold TrainUnsupLayerwise.
  cbn [sae set_layerwise_training].
  destruct (for_loop_opt _ _ _ _) as [t1|] eqn:E; [|discriminate].
  intros H. inversion H; subst. split; [|reflexivity].
  change (defaults_restored t1).
  refine (for_loop_opt_some (fun i s => 0 < i -> defaults_restored s)
            0 (n_hidden_layers (sae t)) _ _ t1 _ _ _ E _); try lia.
  intros i s s' Hi _ Hs _. now apply TrainUnsupLayer_some in Hs.
Qed.

Lemma TrainUnsupLayerwise_returns (t : Trainer) :
  train_returns train ->
  train_keeps_layerwise train ->
  0 <= n_hidden_layers (sae t) ->
  exists t', TrainUnsupLayerwise train t = Some t'.
Proof.
  intros Hret Hkeep Hn. unfold TrainUnsupLayerwise.
  cbn [sae set_layerwise_training].
  destruct (for_loop_opt_inv (fun _ s => layerwise_training s = true)
              0 (n_hidden_layers (sae t))
              (fun i t => TrainUnsupLayer train (set_layerwise_layer i t))
              (set_layerwise_training true t)) as (t1 & E & _);
    [assumption | reflexivity | | rewrite E; eauto].
  intros i s Hi Hs.
  apply (TrainUnsupLayer_returns train (set_layerwise_layer i s));
    assumption.
Qed.

Lemma TrainSelectiveUnsupLayerwise_restores (pl : list Z) (t t' : Trainer) :
  0 <= n_hidden_layers (sae t) ->
  TrainSelectiveUnsupLayerwise train pl t = Some t' ->
  layerwise_training t' = false
  /\ ((exists i, 0 <= i < n_hidden_layers (sae t) /\ aget 0 pl i = 1) ->
      defaults_restored t')
  /\ ((forall i, 0 <= i < n_hidden_layers (sae t) -> aget 0 pl i <> 1) ->
      machine t' = machine t /\ criterion t' = criterion t).
Proof.
  intros Hn. unfold TrainSelectiveUnsupLayerwise.
  cbn [sae set_layerwise_training].
  destruct (for_loop_opt _ _ _ _) as [t1|] eqn:E; [|discriminate].
  intros H. inversion H; subst. split; [reflexivity|].
  change (((exists i, 0 <= i < n_hidden_layers (sae t) /\ aget 0 pl i = 1) ->
           defaults_restored t1)
          /\ ((forall i, 0 <= i < n_hidden_layers (sae t) ->
                         aget 0 pl i <> 1) ->
              machine t1 = machine t /\ criterion t1 = criterion t)).
  refine (for_loop_opt_some
            (fun b s =>
               ((exists i, 0 <= i < b /\ aget 0 pl i = 1) ->
                defaults_restored s)
               /\ ((forall i, 0 <= i < b -> aget 0 pl i <> 1) ->
                   machine s = machine t /\ criterion s = criterion t))
            0 (n_hidden_layers (sae t)) _ _ t1 Hn _ _ E).
  - split; [intros (i & ? & _); lia | intros _; split; reflexivity].
  - intros i s s' Hi [H1 H2] Hs.
    destruct (Z.eqb_spec (aget 0 pl i) 1) as [Ei|Ei].
    + apply TrainUnsupLayer_some in Hs. destruct Hs as [Hs _].
      split; [intros _; exact Hs|].
      intros Hnone. exfalso. apply (Hnone i); [lia | exact Ei].
    + inversion Hs; subst s'. split.
      * intros (k & Hk & Ek). apply H1. exists k. split; [|exact Ek].
        destruct (Z.eq_dec k i) as [->|]; [congruence | lia].
      * intros Hnone. apply H2. intros k Hk. apply Hnone. lia.
Qed.

Lemma TrainSelectiveUnsupLayerwise_returns (pl : list Z) (t : Trainer) :
  train_returns train ->
  train_keeps_layerwise train ->
  0 <= n_hidden_layers (sae t) ->
  exists t', TrainSelectiveUnsupLayerwise train pl t = Some t'.
Proof.
  intros Hret Hkeep Hn. unfold TrainSelectiveUnsupLayerwise.
  cbn [sae set_layerwise_training].
  destruct (for_loop_opt_inv (fun _ s => layerwise_training s = true)
              0 (n_hidden_layers (sae t))
              (fun i t => if aget 0 pl i =? 1
                          then TrainUnsupLayer train (set_layerwise_layer i t)
                          else Some t)
              (set_layerwise_training true t)) as (t1 & E & _);
    [assumption | reflexivity | | rewrite E; eauto].
  intros i s Hi Hs. destruct (aget 0 pl i =? 1); [|eauto].
  apply (TrainUnsupLayer_returns train (set_layerwise_layer i s));
    assumption.
Qed.

Lemma TrainSelectiveUnsup_restores (pl : list Z) (pb : bool)
    (t t' : Trainer) :
  TrainSelectiveUnsup train pl pb t = Some t' ->
  defaults_restored t'
  /\ forall i, 0 <= i < n_hidden_layers (sae t') ->
       partial_backprop t' (Encoder i) = false
       /\ (is_noisy (sae t') = true ->
           partial_backprop t' (Autoencoder i) = false).
Proof.
  unfold TrainSelectiveUnsup.
  destruct (TrainSelectiveUnsup_begin pl pb t) as [tm|]; [|discriminate].
  destruct (train _ _ _) as [y|]; [|discriminate].
  intros H. inversion H; subst.
  destruct (TrainSelectiveUnsup_end_spec y) as (Hs & Hd & Hf).
  rewrite Hs. split; assumption.
Qed.

Lemma TrainSelectiveUnsup_returns (pl : list Z) (pb : bool) (t : Trainer) :
  train_returns train ->
  0 <= n_hidden_layers (sae t) ->
  exists t', TrainSelectiveUnsup train pl pb t = Some t'.
Proof.
  intros Hret Hn. unfold TrainSelectiveUnsup.
  destruct (TrainSelectiveUnsup_begin_spec t pl pb Hn)
    as (t1 & ms & g & E & _).
  rewrite E. cbn [fst snd].
  destruct (Hret (UnsupData 0) ms t1) as [y Ey]. rewrite Ey. eauto.
Qed.

Lemma joint_phases_restore (d : DataSet) (ms : MeasurerList) (w : R)
    (t : Trainer) :
  (forall t', TrainUnsupNotOutput train t = Some t' -> defaults_restored t')
  /\ (forall t', TrainSupUnsup train d ms w t = Some t' ->
                 defaults_restored t')
  /\ (forall t', TrainUnsup train d ms t = Some t' ->
                 defaults_restored t'
                 /\ partial_backprop t' Outputer = false).
Proof.
  split; [|split].
  - intros t'. unfold TrainUnsupNotOutput.
    destruct (train _ _ _) as [y|]; [|discriminate].
    intros H. inversion H; subst. split; reflexivity.
  - intros t'. unfold TrainSupUnsup.
    destruct (train _ _ _) as [y|]; [|discriminate].
    intros H. inversion H; subst. split; reflexivity.
  - intros t'. unfold TrainUnsup, TrainSupUnsup.
    destruct (train _ _ _) as [y|]; [|discriminate].
    intros H. inversion H; subst. split; [split; reflexivity|].
    apply setPartialBackprop_same.
Qed.

Lemma joint_phases_return (d : DataSet) (ms : MeasurerList) (w : R)
    (t : Trainer) :
  train_returns train ->
  (exists t', TrainUnsupNotOutput train t = Some t')
  /\ (exists t', TrainSupUnsup train d ms w t = Some t')
  /\ (exists t', TrainUnsup train d ms t = Some t').
Proof.
  intros Hret. split; [|split].
  - unfold TrainUnsupNotOutput.
    destruct (Hret (UnsupData 0)
                (map (fun i => FakeDataMeasurer (UnsupData 0)
                                                (UnsupMeasurer i))
                     (range (n_hidden_layers (sae t))))
                (set_criterion
                   (ConcatCriterion UnsupMachine (n_hidden_layers (sae t))
                      (map UnsupCriterion (range (n_hidden_layers (sae t))))
                      (Some 1))
                   (set_machine UnsupMachine
                      (for_loop 0 (n_hidden_layers (sae t))
                         (fun i t => set_criterions_weights
                                       (aset (criterions_weights t)
                                             (1 + i) 1%R) t) t))))
      as [y Ey].
    rewrite Ey. eauto.
  - unfold TrainSupUnsup.
    destruct (Hret (UnsupData 0) (snd (TrainSupUnsup_begin d ms w t))
                   (fst (TrainSupUnsup_begin d ms w t))) as [y Ey].
    rewrite Ey. eauto.
  - unfold TrainUnsup, TrainSupUnsup.
    destruct (Hret (UnsupData 0)
                (snd (TrainSupUnsup_begin d ms 1%R (TrainUnsup_begin t)))
                (fst (TrainSupUnsup_begin d ms 1%R (TrainUnsup_begin t))))
      as [y Ey].
    rewrite Ey. eauto.
Qed.

End PhaseProtocol.

(** C8. Every training phase that completes leaves the trainer on the full
    supervised machine and the supervised criterion, whatever [train] did in
    between; the partial-backprop flags the phase set (every encoder and, in
    the noisy case, every autoencoder for the selective phase; the outputer
    for [TrainUnsup]) are false again; the layerwise switch is off. The
    selective layerwise phase touches the machine only when a layer is
    included. Each phase completes when [train] does and leaves the layerwise
    switch alone. *)
Theorem phases_restore_defaults
    (train : DataSet -> MeasurerList -> Trainer -> option Trainer)
    (pl : list Z) (pb : bool) (d : DataSet) (ms : MeasurerList) (w : R)
    (t : Trainer) :
  1 <= n_hidden_layers (sae t) ->
  (forall t', TrainUnsupLayerwise train t = Some t' ->
     defaults_restored t' /\ layerwise_training t' = false)
  /\ (forall t', TrainSelectiveUnsupLayerwise train pl t = Some t' ->
        layerwise_training t' = false
        /\ ((exists i, 0 <= i < n_hidden_layers (sae t) /\ aget 0 pl i = 1) ->
            defaults_restored t')
        /\ ((forall i, 0 <= i < n_hidden_layers (sae t) -> aget 0 pl i <> 1) ->
            machine t' = machine t /\ criterion t' = criterion t))
  /\ (forall t', TrainSelectiveUnsup train pl pb t = Some t' ->
        defaults_restored t'
        /\ forall i, 0 <= i < n_hidden_layers (sae t') ->
             partial_backprop t' (Encoder i) = false
             /\ (is_noisy (sae t') = true ->
                 partial_backprop t' (Autoencoder i) = false))
  /\ (forall t', TrainUnsupNotOutput train t = Some t' -> defaults_restored t')
  /\ (forall t', TrainSupUnsup train d ms w t = Some t' -> defaults_restored t')
  /\ (forall t', TrainUnsup train d ms t = Some t' ->
        defaults_restored t' /\ partial_backprop t' Outputer = false)
  /\ (train_returns train -> train_keeps_layerwise train ->
      (exists t', TrainUnsupLayerwise train t = Some t')
      /\ (exists t', TrainSelectiveUnsupLayerwise train pl t = Some t')
      /\ (exists t', TrainSelectiveUnsup train pl pb t = Some t')
      /\ (exists t', TrainUnsupNotOutput train t = Some t')
      /\ (exists t', TrainSupUnsup train d ms w t = Some t')
      /\ (exists t', TrainUnsup train d ms t = Some t')).
Proof.
  intros Hn.
  destruct (joint_phases_restore train d ms w t) as (J1 & J2 & J3).
  split; [intros t'; apply TrainUnsupLayerwise_restores; assumption|].
  split; [intros t'; apply TrainSelectiveUnsupLayerwise_restores; lia|].
  split; [intros t'; apply TrainSelectiveUnsup_restores|].
  split; [exact J1|]. split; [exact J2|]. split; [exact J3|].
  intros Hret Hkeep.
  destruct (joint_phases_return train d ms w t Hret) as (R1 & R2 & R3).
  split; [apply TrainUnsupLayerwise_returns; assumption || lia|].
  split; [apply TrainSelectiveUnsupLayerwise_returns; assumption || lia|].
  split; [apply TrainSelectiveUnsup_returns; assumption || lia|].
  split; [exact R1|]. split; [exact R2|]. exact R3.
Qed.

(** ** Gradient variance evaluation *)

Lemma for_loop_range {S : Type} (n : Z) (body : Z -> S -> S) (s : S) :
  for_loop 0 n body s = fold_left (fun s i => body i s) (range n) s.
Proof.
  unfold for_loop, range. rewrite Z.sub_0_r.
  generalize (seq 0 (Z.to_nat n)). intros l. revert s.
  induction l as [|a l IH]; intros s; [reflexivity|]. cbn. apply IH.
Qed.


Lemma fold_left_ext {S A : Type} (f g : S -> A -> S) (l : list A) (s : S) :
  (forall s a, f s a = g s a) -> fold_left f l s = fold_left g l s.
Proof.
  intros H. revert s. induction l as [|a l IH]; intros s; [reflexivity|].
  cbn. rewrite H. apply IH.
Qed.

Lemma fold_left_over_map {S A B : Type} (f : S -> B -> S) (h : A -> B)
    (l : list A) (s : S) :
  fold_left f (map h l) s = fold_left (fun s x => f s (h x)) l s.
Proof.
  revert s. induction l as [|a l IH]; intros s; [reflexivity|]. cbn. apply IH.
Qed.





Lemma In_range (n i : Z) : In i (range n) <-> 0 <= i < n.
Proof.
  unfold range. rewrite in_map_iff. split.
  - intros (k & <- & Hk). apply in_seq in Hk. lia.
  - intros H. exists (Z.to_nat i). split; [lia|]. apply in_seq. lia.
Qed.













Lemma EvalHessian_returns (ar : Arithmetic) (der : Derivatives)
    (n_examples n_samples : Z) :
  n_samples <= n_examples ->
  EvalHessian ar der n_examples n_samples
  = Some (real_div ar 1%R (hessian_max_variance ar der n_samples),
          printed (accumulate ar der n_samples)
          ++ [MaxMessage
                (max_sumX (find_max ar (count_parameters der) n_samples
                             (grad_sumX (accumulate ar der n_samples))
                             (grad_sumX2 (accumulate ar der n_samples))))
                (max_sumX2 (find_max ar (count_parameters der) n_samples
                              (grad_sumX (accumulate ar der n_samples))
                              (grad_sumX2 (accumulate ar der n_samples))))
                (max_means (find_max ar (count_parameters der) n_samples
                              (grad_sumX (accumulate ar der n_samples))
                              (grad_sumX2 (accumulate ar der n_samples))))
                (hessian_max_variance ar der n_samples)
                (real_div ar 1%R (hessian_max_variance ar der n_samples))]).
Proof.
  intros H. unfold EvalHessian. destruct (Z.ltb_spec n_examples n_samples);
    [lia | reflexivity].
Qed.

Lemma EvalHessian_some (ar : Arithmetic) (der : Derivatives)
    (n_examples n_samples : Z) :
  n_samples <= n_examples ->
  exists out,
    EvalHessian ar der n_examples n_samples
    = Some (real_div ar 1%R (hessian_max_variance ar der n_samples), out).
Proof. intros H. rewrite EvalHessian_returns by assumption. eauto. Qed.

Lemma EvalHessian_none (ar : Arithmetic) (der : Derivatives)
    (n_examples n_samples : Z) :
  n_examples < n_samples -> EvalHessian ar der n_examples n_samples = None.
Proof.
  intros H. unfold EvalHessian.
  destruct (Z.ltb_spec n_examples n_samples); [reflexivity | lia].
Qed.



(** ** Adaptive criterion weights *)






(** ** Layerwise training touches the current autoencoder only *)

Lemma owns_false (s : StackedAutoencoder) (gm : GradientMachine) (o : Machine) :
  ~ In o (owners s gm) -> owns s gm o = false.
Proof.
  intros H. unfold owns. destruct (existsb _ _) eqn:E; [|reflexivity].
  exfalso. apply H. apply existsb_exists in E. destruct E as (x & Hx & E).
  apply Machine_eqb_true in E. now subst.
Qed.

Lemma coder_owners_shape (s : StackedAutoencoder) (m o : Machine) :
  In o (coder_owners s m) ->
  o = m \/ exists c, coder_of s m = Some c /\ from_coder c = Some o.
Proof.
  unfold coder_owners. destruct (coder_of s m) as [c|]; [|contradiction].
  intros [<-|H]; [now left|]. right. exists c. split; [reflexivity|].
  destruct (from_coder c); [|contradiction].
  destruct H as [<-|[]]. reflexivity.
Qed.

Lemma coder_of_range (s : StackedAutoencoder) (l : Z) :
  (0 <=? l) && (l <? n_hidden_layers s) = true -> 0 <= l < n_hidden_layers s.
Proof.
  intros H. apply andb_true_iff in H. destruct H as [H0 H1].
  apply Z.leb_le in H0. apply Z.ltb_lt in H1. lia.
Qed.

Lemma noisy_encoder_from (s : StackedAutoencoder) (l : Z) (c : Coder)
    (o : Machine) :
  coder_of s (NoisyEncoder l) = Some c -> from_coder c = Some o ->
  o = Encoder l.
Proof.
  unfold coder_of, BuildCoders. cbn [noisy_encoders].
  destruct (is_noisy s); [|discriminate].
  destruct ((0 <=? l) && (l <? n_hidden_layers s)) eqn:Hr; [|discriminate].
  apply coder_of_range in Hr.
  rewrite nth_error_map, nth_error_range by lia. cbn [option_map].
  intros Hc Hf. inversion Hc; subst. cbn in Hf. congruence.
Qed.

Lemma decoder_from (s : StackedAutoencoder) (l : Z) (c : Coder) (o : Machine) :
  coder_of s (Decoder l) = Some c -> from_coder c = Some o -> o = Encoder l.
Proof.
  unfold coder_of, BuildCoders. cbn [decoders].
  destruct ((0 <=? l) && (l <? n_hidden_layers s)) eqn:Hr; [|discriminate].
  apply coder_of_range in Hr.
  rewrite nth_error_map, nth_error_range by lia. cbn [option_map].
  intros Hc Hf. inversion Hc; subst.
  destruct (tied_weights s); cbn in Hf; congruence.
Qed.

Lemma encoder_from (s : StackedAutoencoder) (l : Z) (c : Coder) :
  coder_of s (Encoder l) = Some c -> from_coder c = None.
Proof.
  unfold coder_of, BuildCoders. cbn [encoders].
  destruct ((0 <=? l) && (l <? n_hidden_layers s)) eqn:Hr; [|discriminate].
  apply coder_of_range in Hr.
  rewrite nth_error_map, nth_error_range by lia. cbn [option_map].
  intros Hc. inversion Hc; subst.
  destruct ((l =? 0) && first_layer_smoothed s); reflexivity.
Qed.

(** The parameter blocks behind the autoencoder of layer [l]: those of its
    encoder (through the noisy encoder in the noisy case) and its decoder. *)
Lemma autoencoder_owners (s : StackedAutoencoder) (l : Z) (o : Machine) :
  In o (module_owners s (Autoencoder l)) ->
  o = Encoder l \/ o = NoisyEncoder l \/ o = Decoder l.
Proof.
  unfold module_owners. intros H. apply in_app_or in H.
  destruct H as [H|H].
  - destruct (is_noisy s);
      apply coder_owners_shape in H; destruct H as [->|(c & Hc & Hf)]; auto.
    + left. eapply noisy_encoder_from; eauto.
    + apply encoder_from in Hc. congruence.
  - apply coder_owners_shape in H. destruct H as [->|(c & Hc & Hf)]; auto.
    left. eapply decoder_from; eauto.
Qed.

(** One layerwise forward/backward pass, call by call. *)
Lemma fpropbprop_layerwise (sub : Substrate) (d : DataSet) (t : Trainer) :
  layerwise_training t = true ->
  let l := layerwise_layer t in
  fpropbprop sub d t
  = do_backward sub (Module (Autoencoder l)) DataInputs
      (CriterionBeta (criterion t))
      (call (CriterionBackward (criterion t) (Outputs (machine t)))
         (call (CriterionForward (criterion t) (Outputs (machine t)))
            (call (Forward (MesdMachine l) DataInputs) t))).
Proof.
  intros Hl l. unfold fpropbprop. rewrite Hl.
  cbn [negb andb]. rewrite andb_false_r. reflexivity.
Qed.

Lemma train_example_layerwise (sub : Substrate) (d : DataSet) (e : Z)
    (t0 t : Trainer) :
  same_mode t0 t -> params_frame t0 t ->
  layerwise_training t0 = true ->
  is_finetuning t0 = false ->
  exists t', train_example sub d e t = Some t'
             /\ same_mode t0 t' /\ params_frame t0 t'.
Proof.
  intros (Hs & Hm & Hc & Hd & Hf & Hp & Hl & Hll & Hpb) Hfr Hlw Hft.
  unfold train_example. rewrite fpropbprop_layerwise by (cbn; congruence).
  unfold UpdateMachine.
  cbn [is_finetuning layerwise_layer criterion machine do_backward
       do_clear_derivatives call set_der_params].
  rewrite Hf, Hft. cbn [negb].
  eexists. split; [reflexivity|]. split.
  - unfold same_mode. cbn. repeat split; assumption.
  - intros o k Ho. cbn. rewrite Hs, Hm, Ho. now apply Hfr.
Qed.

(** The generic trainer in layerwise mode, without reweighting, fine-tuning
    or gradient profiling: it returns, in the same mode, and only parameter
    blocks of the active machine may have changed. *)
Lemma sgd_train_layerwise (sub : Substrate) (iters : Z) (d : DataSet)
    (ms : MeasurerList) (t0 : Trainer) :
  layerwise_training t0 = true ->
  do_eval_criterion_weights t0 = false ->
  is_finetuning t0 = false ->
  profile_gradients t0 = false ->
  0 <= iters ->
  0 <= n_examples sub d ->
  exists t', sgd_train sub iters d ms t0 = Some t'
             /\ same_mode t0 t' /\ params_frame t0 t'.
Proof.
  intros Hlw Hdo Hft Hpg Hit Hex. unfold sgd_train, TrainInitialize.
  destruct (for_loop_opt_inv
              (fun _ t => same_mode t0 t /\ params_frame t0 t) 0 iters
              (fun _ t =>
                 t <- IterInitialize sub t ;;
                 t <- for_loop_opt 0 (n_examples sub d)
                        (fun example t => train_example sub d example t) t ;;
                 Some (IterFinalize t))
              t0 Hit) as (t1 & E1 & Hm1 & Hfr1).
  - split; [unfold same_mode; repeat split | intros o k _; reflexivity].
  - intros i t Hi [Hm Hfr].
    pose proof Hm as (Hs & Hmm & Hc & Hd & Hf & Hp & Hl & Hll & Hpb).
    unfold IterInitialize. rewrite Hd, Hdo. cbn [andb].
    destruct (for_loop_opt_inv
                (fun _ t => same_mode t0 t /\ params_frame t0 t)
                0 (n_examples sub d)
                (fun example t => train_example sub d example t) t Hex)
      as (t2 & E2 & Hm2 & Hfr2); [split; assumption | |].
    + intros e t' He [Hm' Hfr'].
      destruct (train_example_layerwise sub d e t0 t' Hm' Hfr' Hlw Hft)
        as (t'' & E & ? & ?). eauto.
    + rewrite E2. eexists. split; [reflexivity|].
      destruct Hm2 as (Hs2 & Hmm2 & Hc2 & Hd2 & Hf2 & Hp2 & Hl2 & Hll2 & Hpb2).
      unfold IterFinalize. rewrite Hp2, Hpg. split.
      * unfold same_mode. cbn. repeat split; congruence.
      * intros o k Ho. cbn. now apply Hfr2.
  - rewrite E1. unfold TrainFinalize.
    destruct Hm1 as (Hs2 & Hmm2 & Hc2 & Hd2 & Hf2 & Hp2 & Hl2 & Hll2 & Hpb2).
    rewrite Hp2, Hpg. eexists. split; [reflexivity|].
    split; [unfold same_mode; repeat split; assumption | assumption].
Qed.

Lemma scenario_mesd_owners :
  owners scenario_sae (MesdMachine 0) = [Decoder 0; Encoder 0].
Proof. vm_compute. reflexivity. Qed.

(** C2. In layerwise mode one forward/backward pass forwards the mesd
    machine of the current layer and calls backward on that layer's
    autoencoder only; parameter-gradients outside the blocks of that
    autoencoder (its encoder and decoder) are left as they were, and no
    parameter changes in the pass. In the end-to-end scenario (one hidden
    layer, one iteration over one example, not tied, not noisy) the layerwise
    phase completes and only the parameters of [Encoder 0] and [Decoder 0]
    may differ from the initial ones: those of the outputer are the same. *)
Theorem layerwise_backward_only_autoencoder (sub : Substrate) (d : DataSet)
    (t : Trainer) :
  layerwise_training t = true ->
  let l := layerwise_layer t in
  let t' := fpropbprop sub d t in
  calls t'
  = calls t
    ++ [Forward (MesdMachine l) DataInputs;
        CriterionForward (criterion t) (Outputs (machine t));
        CriterionBackward (criterion t) (Outputs (machine t));
        Backward (Module (Autoencoder l)) DataInputs
                 (CriterionBeta (criterion t))]
  /\ (forall o k, ~ In o (module_owners (sae t) (Autoencoder l)) ->
                  der_params t' o k = der_params t o k)
  /\ (forall o, In o (module_owners (sae t) (Autoencoder l)) ->
                o = Encoder l \/ o = NoisyEncoder l \/ o = Decoder l)
  /\ (forall o k, params t' o k = params t o k)
  /\ (forall bw step lr ders ar partial0 params0 der0,
        let sub1 := mkSubstrate bw step lr ders (fun _ => 1) ar in
        let t0 := new_StackedAutoencoderTrainer scenario_sae false
                    partial0 params0 der0 in
        exists t1,
          TrainUnsupLayerwise (sgd_train sub1 1) t0 = Some t1
          /\ (forall o k, o <> Encoder 0 -> o <> Decoder 0 ->
                          params t1 o k = params0 o k)
          /\ (forall k, params t1 Outputer k = params0 Outputer k)).
Proof.
  intros Hl l t'. subst t'. rewrite fpropbprop_layerwise by assumption.
  fold l. split; [|split; [|split; [|split]]].
  - cbn. rewrite <- !app_assoc. reflexivity.
  - intros o k Ho. unfold do_backward.
    cbn [der_params set_der_params call sae].
    rewrite owns_false by exact Ho. reflexivity.
  - apply autoencoder_owners.
  - reflexivity.
  - intros bw step lr ders ar partial0 params0 der0 sub1 t0.
    unfold TrainUnsupLayerwise.
    change (n_hidden_layers (sae (set_layerwise_training true t0))) with 1.
    rewrite for_loop_opt_one.
    unfold TrainUnsupLayer at 1.
    cbn [layerwise_training layerwise_layer set_layerwise_layer
         set_layerwise_training negb].
    destruct (sgd_train_layerwise sub1 1 (UnsupData 0) [UnsupMeasurer 0]
                (set_criterion (UnsupCriterion 0)
                   (set_machine (MesdMachine 0)
                      (set_layerwise_layer 0
                         (set_layerwise_training true t0)))))
      as (t1 & E & Hm & Hfr); try reflexivity; try (cbn; lia).
    cbn [set_layerwise_training set_layerwise_layer set_machine set_criterion
         sae machine criterion layerwise_training layerwise_layer] in E |- *.
    rewrite E.
    eexists. split; [reflexivity|].
    assert (Hframe : forall o k, o <> Encoder 0 -> o <> Decoder 0 ->
                                 params t1 o k = params0 o k).
    { intros o k H1 H2. rewrite (Hfr o k); [reflexivity|].
      apply owns_false.
      change (~ In o (owners scenario_sae (MesdMachine 0))).
      rewrite scenario_mesd_owners. intros [H|[H|[]]]; congruence. }
    split; [exact Hframe|].
    intros k. apply Hframe; discriminate.
Qed.

(** ** Top-K supervised training *)

Lemma for_down_descending {S : Type} (hi lo : Z) (body : Z -> S -> S) (s : S) :
  for_down hi lo body s = fold_left (fun s i => body i s) (descending hi lo) s.
Proof.
  unfold for_down, descending. now rewrite fold_left_over_map.
Qed.

Lemma In_descending (hi lo i : Z) : In i (descending hi lo) <-> lo < i <= hi.
Proof.
  unfold descending. rewrite in_map_iff. split.
  - intros (k & <- & Hk). apply in_seq in Hk. lia.
  - intros H. exists (Z.to_nat (hi - i)). split; [lia|]. apply in_seq. lia.
Qed.

Lemma do_backward_calls (sub : Substrate) (gm : GradientMachine)
    (inputs alpha : Sequence) (t : Trainer) :
  calls (do_backward sub gm inputs alpha t)
  = calls t ++ [Backward gm inputs alpha].
Proof. reflexivity. Qed.

Lemma backward_chain_calls (sub : Substrate) (n : Z) (l : list Z)
    (t : Trainer) :
  calls (fold_left
           (fun t i => do_backward sub (Module (Encoder i)) (topK_inputs n i)
                                   (topK_alpha n i) t) l t)
  = calls t
    ++ map (fun i => Backward (Module (Encoder i)) (topK_inputs n i)
                              (topK_alpha n i)) l.
Proof.
  revert t. induction l as [|i l IH]; intros t.
  - cbn. now rewrite app_nil_r.
  - cbn [fold_left map]. rewrite IH, do_backward_calls, <- app_assoc.
    reflexivity.
Qed.

(** The calls of one top-K pass: a full forward, then backward through the
    criterion, the outputer and the encoders [N-1] down to [N-K+1]. *)
Lemma fpropbprop_topK (sub : Substrate) (d : DataSet) (t : Trainer) :
  topK_training t = true ->
  layerwise_training t = false ->
  let n := n_hidden_layers (sae t) in
  calls (fpropbprop sub d t)
  = calls t
    ++ [Forward (machine t) DataInputs;
        CriterionForward (criterion t) (Outputs (machine t));
        CriterionBackward (criterion t) (Outputs (machine t));
        Backward (Module Outputer) (Outputs (Module (Encoder (n - 1))))
                 (CriterionBeta (criterion t))]
    ++ map (fun i => Backward (Module (Encoder i)) (topK_inputs n i)
                              (topK_alpha n i))
           (descending (n - 1) (n - topKlayers t)).
Proof.
  intros Htop Hlw n. unfold fpropbprop. rewrite Htop, Hlw.
  cbn [negb andb]. rewrite andb_false_r. fold n.
  rewrite for_down_descending.
  cbn [machine criterion topKlayers call do_backward set_der_params].
  rewrite (fold_left_ext _
             (fun t i => do_backward sub (Module (Encoder i)) (topK_inputs n i)
                                     (topK_alpha n i) t)).
  - rewrite backward_chain_calls, do_backward_calls. cbn [calls call].
    rewrite <- !app_assoc. reflexivity.
  - intros s i. unfold topK_inputs, topK_alpha.
    destruct (i =? n - 1); [reflexivity|]. destruct (i =? 0); reflexivity.
Qed.

(** C4, on a stack of one hidden layer with [K = 2] (which the assertion of
    [TrainSupervisedTopKLayers] admits): the only encoder is backwarded with
    the outputs of [encoders[-1]], an entry below the array, where the raw
    input is due. *)
Theorem topK_single_layer_reads_below_first_encoder
    (sub : Substrate)
    (train : DataSet -> MeasurerList -> Trainer -> option Trainer)
    (d : DataSet) (ms : MeasurerList)
    (partial0 : Machine -> bool) (params0 der0 : Machine -> nat -> R) :
  let t0 := new_StackedAutoencoderTrainer scenario_sae false
              partial0 params0 der0 in
  let t1 := set_criterion SupCriterion
              (set_machine Sae
                 (set_topKlayers 2 (set_topK_training true t0))) in
  TrainSupervisedTopKLayers train d ms 2 t0
  = (t <- train d ms t1 ;; Some (set_topK_training false t))
  /\ calls (fpropbprop sub d t1)
     = [Forward Sae DataInputs;
        CriterionForward SupCriterion (Outputs Sae);
        CriterionBackward SupCriterion (Outputs Sae);
        Backward (Module Outputer) (Outputs (Module (Encoder 0)))
                 (CriterionBeta SupCriterion);
        Backward (Module (Encoder 0)) (Outputs (Module (Encoder (-1))))
                 (Beta (Module Outputer))].
Proof.
  intros t0 t1. split; [reflexivity|].
  rewrite fpropbprop_topK by reflexivity. reflexivity.
Qed.

(** With two hidden layers or more and [0 < K <= N+1], the backward pass of
    the top-K phase is the chain the design describes: the outputer, then
    the encoders [N-1] down to [N-K+1], each on the outputs of the encoder
    below it (the raw input for encoder 0) and the stored gradient of the
    module above it; no encoder of index [N-K] or less is backwarded. *)
Theorem topK_backward_chain (sub : Substrate) (d : DataSet) (t : Trainer) :
  topK_training t = true ->
  layerwise_training t = false ->
  let n := n_hidden_layers (sae t) in
  let k := topKlayers t in
  2 <= n ->
  0 < k <= n + 1 ->
  exists chain,
    calls (fpropbprop sub d t)
    = calls t
      ++ [Forward (machine t) DataInputs;
          CriterionForward (criterion t) (Outputs (machine t));
          CriterionBackward (criterion t) (Outputs (machine t));
          Backward (Module Outputer) (Outputs (Module (Encoder (n - 1))))
                   (CriterionBeta (criterion t))]
      ++ map (fun i =>
                Backward (Module (Encoder i))
                         (if i =? 0 then DataInputs
                          else Outputs (Module (Encoder (i - 1))))
                         (if i =? n - 1 then Beta (Module Outputer)
                          else Beta (Module (Encoder (i + 1)))))
             chain
    /\ chain = descending (n - 1) (n - k)
    /\ List.length chain = Z.to_nat (k - 1)
    /\ (forall i, In i chain <-> n - k < i <= n - 1)
    /\ (forall i, 0 <= i <= n - k -> ~ In i chain).
Proof.
  intros Htop Hlw n k Hn Hk. exists (descending (n - 1) (n - k)).
  split; [|split; [reflexivity | split; [|split]]].
  - rewrite fpropbprop_topK by assumption. fold n k. do 2 f_equal.
    apply map_ext_in. intros i Hi. apply In_descending in Hi.
    unfold topK_inputs, topK_alpha.
    destruct (Z.eqb_spec i (n - 1)); destruct (Z.eqb_spec i 0);
      try reflexivity; lia.
  - unfold descending. rewrite length_map, length_seq. lia.
  - intros i. apply In_descending.
  - intros i Hi Hin. apply In_descending in Hin. lia.
Qed.

(** ** The other options *)

Lemma setROption_other_key (m m' : Machine) (key key' : string) (v : R)
    (o : Options) :
  key' <> key -> setROption m key v o m' key' = o m' key'.
Proof.
  intros H. unfold setROption. destruct (Machine_eq_dec m' m); [|reflexivity].
  destruct (String.eqb_spec key' key); [contradiction | reflexivity].
Qed.

Lemma decay_loop_other_key (f : Z -> Machine) (key key' : string) (n : Z)
    (v : R) (o : Options) (m : Machine) :
  key' <> key ->
  for_loop 0 n (fun i o => setROption (f i) key v o) o m key' = o m key'.
Proof.
  intros H. unfold for_loop.
  generalize (seq 0 (Z.to_nat (n - 0))). intros l. revert o.
  induction l as [|a l IH]; intros o; [reflexivity|].
  cbn [fold_left]. rewrite IH. now apply setROption_other_key.
Qed.

Lemma set_decay_other_key (key key' : string) (s : StackedAutoencoder)
    (wd : R) (o : Options) (m : Machine) :
  key' <> key -> set_decay key s wd o m key' = o m key'.
Proof.
  intros H. unfold set_decay.
  destruct (negb (tied_weights s)).
  - rewrite decay_loop_other_key by assumption.
    rewrite setROption_other_key by assumption.
    now apply decay_loop_other_key.
  - rewrite setROption_other_key by assumption.
    now apply decay_loop_other_key.
Qed.

Lemma setBiasDecay_spec (s : StackedAutoencoder) (b : R) (o : Options) :
  (forall i, 0 <= i < n_hidden_layers s ->
             setBiasDecay s b o (Encoder i) "bias decay"%string = Some b)
  /\ (forall m k, (forall i, m <> Encoder i) ->
                  setBiasDecay s b o m k = o m k)
  /\ (forall m k, k <> "bias decay"%string -> setBiasDecay s b o m k = o m k).
Proof.
  unfold setBiasDecay.
  destruct (decay_loop Encoder "bias decay" (n_hidden_layers s) b o)
    as [E1 E2]; [congruence|].
  split; [exact E1|]. split; [exact E2|].
  intros m k Hk. now apply decay_loop_other_key.
Qed.

(** The three decays compose: set one after the other, in any stack, they
    leave each encoder with its L1, L2 and bias decay; the outputer with the
    L1 and L2 decay and the bias decay it had; every decoder with the bias
    decay it had, and with tied weights with every option it had. *)
Theorem decays_compose (s : StackedAutoencoder) (l1 l2 b : R) (o : Options) :
  let o' := setBiasDecay s b (setL2WeightDecay s l2 (setL1WeightDecay s l1 o)) in
  (forall i, 0 <= i < n_hidden_layers s ->
     o' (Encoder i) "l1 weight decay"%string = Some l1
     /\ o' (Encoder i) "weight decay"%string = Some l2
     /\ o' (Encoder i) "bias decay"%string = Some b)
  /\ o' Outputer "l1 weight decay"%string = Some l1
  /\ o' Outputer "weight decay"%string = Some l2
  /\ o' Outputer "bias decay"%string = o Outputer "bias decay"%string
  /\ (forall i, o' (Decoder i) "bias decay"%string
                = o (Decoder i) "bias decay"%string)
  /\ (tied_weights s = true -> forall i k, o' (Decoder i) k = o (Decoder i) k)
  /\ (tied_weights s = false ->
      forall i, 0 <= i < n_hidden_layers s ->
        o' (Decoder i) "l1 weight decay"%string = Some l1
        /\ o' (Decoder i) "weight decay"%string = Some l2).
Proof.
  intros o'. subst o'.
  set (o1 := setL1WeightDecay s l1 o).
  set (o2 := setL2WeightDecay s l2 o1).
  destruct (setBiasDecay_spec s b o2) as (B1 & B2 & B3).
  destruct (set_decay_spec "l1 weight decay" s l1 o) as (L1e & L1o & L1t & L1d).
  destruct (set_decay_spec "weight decay" s l2 o1) as (L2e & L2o & L2t & L2d).
  fold (setL1WeightDecay s l1 o) in L1e, L1o, L1t, L1d.
  fold (setL2WeightDecay s l2 o1) in L2e, L2o, L2t, L2d.
  fold o1 in L1e, L1o, L1t, L1d. fold o2 in L2e, L2o, L2t, L2d.
  assert (K12 : forall m, o2 m "l1 weight decay"%string
                          = o1 m "l1 weight decay"%string).
  { intros m. apply set_decay_other_key. discriminate. }
  assert (Kb : forall m, o2 m "bias decay"%string = o m "bias decay"%string).
  { intros m. unfold o2, o1, setL2WeightDecay, setL1WeightDecay.
    rewrite !set_decay_other_key by discriminate. reflexivity. }
  split; [|split; [|split; [|split; [|split; [|split]]]]].
  - intros i Hi. split; [|split].
    + rewrite B3 by discriminate. rewrite K12. now apply L1e.
    + rewrite B3 by discriminate. now apply L2e.
    + now apply B1.
  - rewrite B3 by discriminate. rewrite K12. exact L1o.
  - rewrite B3 by discriminate. exact L2o.
  - rewrite B2 by discriminate. apply Kb.
  - intros i. rewrite B2 by discriminate. apply Kb.
  - intros Ht i k. rewrite B2 by discriminate.
    rewrite L2t by assumption. now apply L1t.
  - intros Ht i Hi. split.
    + rewrite B3 by discriminate. rewrite K12. now apply L1d.
    + rewrite B3 by discriminate. now apply L2d.
Qed.

(** The corruption settings reach the destructive layer of every noisy
    encoder, and nothing else; without noise nothing is set. The smoothing
    decays reach the first encoder only, and only when it is smoothed. *)
Theorem destruction_and_smoothing_options (s : StackedAutoencoder)
    (p v l1 l2 : R) (o : Options) :
  (is_noisy s = false -> setDestructionOptions s p v o = o)
  /\ (is_noisy s = true ->
      (forall i, 0 <= i < n_hidden_layers s ->
         setDestructionOptions s p v o (NoisyEncoder i)
                               "Destruction probability"%string = Some p
         /\ setDestructionOptions s p v o (NoisyEncoder i)
                                  "Destruction value"%string = Some v)
      /\ (forall m k, (forall i, 0 <= i < n_hidden_layers s ->
                                 m <> NoisyEncoder i) ->
                      setDestructionOptions s p v o m k = o m k))
  /\ (first_layer_smoothed s = false -> setSmoothingDecay s l1 l2 o = o)
  /\ (first_layer_smoothed s = true ->
      setSmoothingDecay s l1 l2 o (Encoder 0)
                        "l1 smoothing weight decay"%string = Some l1
      /\ setSmoothingDecay s l1 l2 o (Encoder 0)
                           "l2 smoothing weight decay"%string = Some l2
      /\ (forall m k, m <> Encoder 0 -> setSmoothingDecay s l1 l2 o m k = o m k)
      /\ (forall k, k <> "l1 smoothing weight decay"%string ->
                    k <> "l2 smoothing weight decay"%string ->
                    setSmoothingDecay s l1 l2 o (Encoder 0) k
                    = o (Encoder 0) k)).
Proof.
  split; [|split; [|split]].
  - intros H. unfold setDestructionOptions. now rewrite H.
  - intros H. unfold setDestructionOptions. rewrite H.
    destruct (Z.le_gt_cases 0 (n_hidden_layers s)) as [Hn|Hn].
    + apply (for_loop_inv
               (fun b o' =>
                  (forall i, 0 <= i < b ->
                     o' (NoisyEncoder i) "Destruction probability"%string
                     = Some p
                     /\ o' (NoisyEncoder i) "Destruction value"%string
                        = Some v)
                  /\ (forall m k, (forall i, 0 <= i < b -> m <> NoisyEncoder i) ->
                                  o' m k = o m k)));
        [assumption | split; [intros; lia | reflexivity] |].
      intros i o1 Hi [H1 H2]. split.
      * intros j Hj. destruct (Z.eq_dec j i) as [->|Hne].
        -- split.
           ++ rewrite setROption_other_key by discriminate.
              apply setROption_same.
           ++ apply setROption_same.
        -- rewrite !setROption_other by congruence. apply H1. lia.
      * intros m k Hm.
        rewrite !setROption_other by (apply Hm; lia).
        apply H2. intros j Hj. apply Hm. lia.
    + rewrite for_loop_empty by lia. split; [intros; lia | reflexivity].
  - intros H. unfold setSmoothingDecay. now rewrite H.
  - intros H. unfold setSmoothingDecay. rewrite H.
    split; [|split; [|split]].
    + rewrite setROption_other_key by discriminate. apply setROption_same.
    + apply setROption_same.
    + intros m k Hm. now rewrite !setROption_other.
    + intros k H1 H2. now rewrite !setROption_other_key.
Qed.

(** ** The joint machine and the plain unsupervised machine *)

Lemma for_loop_opt_ext {S : Type} (lo hi : Z) (f g : Z -> S -> option S)
    (s : S) :
  (forall i s, lo <= i < hi -> f i s = g i s) ->
  for_loop_opt lo hi f s = for_loop_opt lo hi g s.
Proof.
  intros H. unfold for_loop_opt.
  assert (Hl : forall k, In k (seq 0 (Z.to_nat (hi - lo))) ->
                         lo <= lo + Z.of_nat k < hi).
  { intros k Hk. apply in_seq in Hk. lia. }
  revert Hl. generalize (seq 0 (Z.to_nat (hi - lo))). intros l.
  generalize (Some s). induction l as [|a l IH]; intros o Hl; [reflexivity|].
  cbn [fold_left].
  replace (s0 <- o ;; g (lo + Z.of_nat a) s0)
    with (s0 <- o ;; f (lo + Z.of_nat a) s0).
  - apply IH. intros k Hk. apply Hl. now right.
  - destruct o; [|reflexivity]. apply H. apply Hl. now left.
Qed.

Lemma AddUnsupMachines_spec (s : StackedAutoencoder) (g0 : ConnectedMachine) :
  0 <= n_hidden_layers s ->
  built g0 = false ->
  (forall k, 0 <= k < n_hidden_layers s ->
             In (recon_source (is_noisy s) k) (modules g0)) ->
  exists g, AddUnsupMachines s g0 = Some g
            /\ add_recon_inv (is_noisy s) g0 (n_hidden_layers s) g.
Proof.
  intros Hn Hb0 Hsrc. unfold AddUnsupMachines.
  apply (for_loop_opt_inv (add_recon_inv (is_noisy s) g0)); [assumption | |].
  - unfold add_recon_inv. repeat split; auto; intros; lia.
  - intros i g Hi (Hb & Hcur & Hnodes & Hshape & Hlinks & Hae & Hreg).
    assert (Hp : In (recon_source (is_noisy s) i) (modules g)).
    { apply In_modules.
      destruct (proj1 (In_modules g0 _) (Hsrc i Hi)) as [l Hl].
      exists l. now apply Hnodes. }
    assert (E : (if negb (is_noisy s)
                 then mch <- addMachine (Decoder i) g ;;
                      connectOn (Encoder i) mch
                 else if 0 <? i
                      then mch <- addMachine (Autoencoder i) g ;;
                           connectOn (Encoder (i - 1)) mch
                      else mch <- addMachine (Autoencoder i) g ;;
                           connectOn InputHandle mch)
                = (mch <- addMachine (recon (is_noisy s) i) g ;;
                   connectOn (recon_source (is_noisy s) i) mch)).
    { unfold recon, recon_source, noisy_source.
      destruct (is_noisy s); cbn [negb]; [|reflexivity].
      destruct (0 <? i); reflexivity. }
    rewrite E, add_connect_ok by assumption.
    eexists. split; [reflexivity|]. unfold add_recon_inv. cbn.
    repeat split; try assumption.
    + intros x Hx. right. now apply Hnodes.
    + intros m l [E'|Hin].
      * inversion E'; subst. right. exists i.
        repeat split; try reflexivity; try lia; try assumption.
        eexists. now left.
      * destruct (Hshape m l Hin) as [?|(k & -> & ? & -> & p & Hp')];
          [now left|].
        right. exists k. repeat split; try reflexivity; try lia.
        exists p. now right.
    + intros x Hx. right. now apply Hlinks.
    + intros k Hk. destruct (Z.eq_dec k i) as [->|Hne];
        [now left | right; apply Hae; lia].
    + intros k Hk. destruct (Z.eq_dec k i) as [->|Hne];
        [now left | right; apply Hreg; lia].
Qed.

(** With a hidden layer, [AddCoreMachines] on a new machine is the encoder
    loop of [AddEncodersUpToIncluded] up to the last layer. *)
Lemma AddCoreMachines_new (s : StackedAutoencoder) :
  1 <= n_hidden_layers s ->
  AddCoreMachines s new_machine
  = AddEncodersUpToIncluded new_machine (n_hidden_layers s - 1) (is_noisy s).
Proof.
  intros Hn. unfold AddCoreMachines, AddEncodersUpToIncluded.
  replace (n_hidden_layers s - 1 + 1) with (n_hidden_layers s) by lia.
  destruct (for_loop_opt 0 (n_hidden_layers s) _ new_machine);
    [|reflexivity].
  destruct (Z.ltb_spec (n_hidden_layers s - 1) 0); [lia | reflexivity].
Qed.

(** Without noise the encoder loop of [BuildUnsupMachine] skips nothing. *)
Lemma unsup_encoders_plain (s : StackedAutoencoder) :
  is_noisy s = false ->
  0 <= n_hidden_layers s ->
  unsup_encoders s new_machine
  = AddEncodersUpToIncluded new_machine (n_hidden_layers s - 1) false.
Proof.
  intros Hnoisy Hn. unfold unsup_encoders, AddEncodersUpToIncluded.
  rewrite Hnoisy.
  replace (n_hidden_layers s - 1 + 1) with (n_hidden_layers s) by lia.
  rewrite andb_false_r.
  rewrite (for_loop_opt_ext 0 (n_hidden_layers s) _
             (fun i mch =>
                mch <- addMachine (Encoder i) mch ;;
                mch <- (if 0 <? i then connectOn (Encoder (i - 1)) mch
                        else Some mch) ;;
                mch <- (if (i =? 0) && false then addMachine InputHandle mch
                        else Some mch) ;;
                addLayer mch)).
  - destruct (for_loop_opt 0 (n_hidden_layers s) _ new_machine); reflexivity.
  - intros i g Hi. cbn [negb]. rewrite !orb_true_r, !andb_false_r.
    destruct (addMachine (Encoder i) g) as [g1|]; [|reflexivity].
    destruct (if 0 <? i then connectOn (Encoder (i - 1)) g1 else Some g1);
      reflexivity.
Qed.

Lemma recon_not_core (noisy : bool) (k : Z) :
  recon noisy k <> InputHandle
  /\ recon noisy k <> Outputer
  /\ forall j, recon noisy k <> Encoder j.
Proof. unfold recon. destruct noisy; repeat split; discriminate. Qed.

(** The joint machine. With one hidden layer or more, in either mode, it is
    built; it holds every encoder (the last one too, which the outputer is
    connected on), the outputer, the reconstruction branch of every layer
    connected on its source (the decoder on its encoder; with noise the
    autoencoder on the encoder below, or on the input handle), the input
    handle exactly with noise; and its backward pass finds a consumer for
    every module outside the last layer. *)
Theorem joint_machine_holds_every_encoder (s : StackedAutoencoder) :
  1 <= n_hidden_layers s ->
  let n := n_hidden_layers s in
  let noisy := is_noisy s in
  exists g,
    BuildSupUnsupMachine s = Some g
    /\ built g = true
    /\ (forall j, In (Encoder j) (modules g) <-> 0 <= j < n)
    /\ In Outputer (modules g)
    /\ In (Outputer, Encoder (n - 1)) (links g)
    /\ (forall k, In (recon noisy k) (modules g) <-> 0 <= k < n)
    /\ (forall k, 0 <= k < n ->
                  In (recon noisy k, recon_source noisy k) (links g))
    /\ (forall k, ~ In (recon (negb noisy) k) (modules g))
    /\ (In InputHandle (modules g) <-> noisy = true)
    /\ missing_consumers g = []
    /\ backward_completes g = true.
Proof.
  intros Hn n noisy. unfold BuildSupUnsupMachine.
  rewrite AddCoreMachines_new by assumption. fold n noisy.
  destruct (AddEncodersUpToIncluded_new (n - 1) noisy)
    as (g0 & E0 & Hb0 & Hshape0 & Hprod0 & Hreg0 & Hh0).
  rewrite E0.
  assert (Hlast : In (Encoder (n - 1)) (modules g0)) by (apply Hreg0; lia).
  pose proof (add_connect_ok Outputer (Encoder (n - 1)) g0 Hb0 Hlast) as E1.
  destruct (addMachine Outputer g0) as [gx|]; [|discriminate].
  cbn beta iota in E1. rewrite E1. clear gx E1.
  set (g1 := mkCM ((Outputer, current_layer g0) :: nodes g0)
                  (current_layer g0)
                  ((Outputer, Encoder (n - 1)) :: links g0) false).
  assert (Hin01 : forall m, In m (modules g0) -> In m (modules g1)).
  { intros m Hm. unfold modules, g1. cbn. now right. }
  destruct (AddUnsupMachines_spec s g1)
    as (g2 & E2 & Hb2 & Hcur2 & Hnodes2 & Hshape2 & Hlinks2 & Hrl2 & Hreg2);
    [lia | reflexivity | |].
  { intros k Hk. fold noisy. apply Hin01. unfold recon_source, noisy_source.
    destruct noisy eqn:En.
    - destruct (Z.ltb_spec 0 k); [apply Hreg0; lia | now apply Hh0].
    - apply Hreg0. lia. }
  fold n noisy in E2, Hshape2, Hrl2, Hreg2. rewrite E2.
  (* the shape of the nodes *)
  assert (Hshape : forall m l, In (m, l) (nodes g2) ->
            (m = InputHandle /\ noisy = true)
            \/ (exists j, m = Encoder j /\ 0 <= j < n)
            \/ (m = Outputer /\ l = current_layer g2)
            \/ (exists k, m = recon noisy k /\ 0 <= k < n
                          /\ l = current_layer g2)).
  { intros m l Hin.
    destruct (Hshape2 m l Hin) as [H1|(k & -> & Hk & -> & _)].
    - destruct H1 as [E|H0].
      + inversion E; subst. right. right. left. split; [reflexivity|].
        now rewrite Hcur2.
      + destruct (Hshape0 m l H0) as [[-> ?]|(j & -> & ?)];
          [now left | right; left; exists j; split; [reflexivity | lia]].
    - right. right. right. exists k. rewrite Hcur2. auto. }
  rewrite build_ok; [| assumption |].
  2:{ intros m l Hin.
      destruct (Hshape2 m l Hin) as [H1|(k & _ & _ & _ & Hp)]; [|now right].
      destruct H1 as [E|H0].
      - inversion E; subst. right. exists (Encoder (n - 1)).
        apply Hlinks2. now left.
      - destruct (Hprod0 m l H0) as [?|(p & Hp)]; [now left|].
        right. exists p. apply Hlinks2. now right. }
  assert (Hcons : forall m l, In (m, l) (nodes g2) ->
            l = current_layer g2 \/ exists c, In (c, m) (links g2)).
  { intros m l Hin.
    destruct (Hshape m l Hin)
      as [[-> Hnoisy]|[(j & -> & Hj)|[[_ ->]|(k & _ & _ & ->)]]];
      try (now left); right.
    - exists (recon noisy 0).
      replace InputHandle with (recon_source noisy 0);
        [apply Hrl2; lia | now rewrite Hnoisy].
    - destruct noisy eqn:En.
      + destruct (Z.eq_dec j (n - 1)) as [->|Hne].
        * exists Outputer. apply Hlinks2. now left.
        * exists (recon true (j + 1)).
          replace (Encoder j) with (recon_source true (j + 1));
            [apply Hrl2; lia|].
          unfold recon_source, noisy_source.
          destruct (Z.ltb_spec 0 (j + 1)); [|lia]. f_equal. lia.
      + exists (recon false j). apply (Hrl2 j). lia. }
  assert (Hcomplete :
            backward_completes
              (mkCM (nodes g2) (current_layer g2) (links g2) true) = true).
  { apply backward_completes_ok; [reflexivity | exact Hcons]. }
  eexists. split; [reflexivity|]. split; [reflexivity|].
  change (modules (mkCM (nodes g2) (current_layer g2) (links g2) true))
    with (modules g2).
  cbn [links].
  split.
  { intros j. split.
    - intros Hin. apply In_modules in Hin. destruct Hin as [l Hin].
      destruct (Hshape _ l Hin)
        as [[E _]|[(j' & E & Hj)|[[E _]|(k & E & _)]]];
        try discriminate.
      + inversion E. lia.
      + exfalso. symmetry in E. revert E. apply recon_not_core.
    - intros Hj. apply In_modules.
      destruct (proj1 (In_modules g0 _) (Hreg0 j ltac:(lia))) as [l Hl].
      exists l. apply Hnodes2. now right. }
  split.
  { apply In_modules. exists (current_layer g0). apply Hnodes2. now left. }
  split; [apply Hlinks2; now left|].
  split.
  { intros k. split; [|apply Hreg2].
    intros Hin. apply In_modules in Hin. destruct Hin as [l Hin].
    destruct (Hshape _ l Hin)
      as [[E _]|[(j' & E & Hj)|[[E _]|(k' & E & Hk & _)]]].
    - exfalso. revert E. apply recon_not_core.
    - exfalso. revert E. apply recon_not_core.
    - exfalso. revert E. apply recon_not_core.
    - unfold recon in E. destruct noisy; inversion E; lia. }
  split; [exact Hrl2|].
  split.
  { intros k Hin. apply In_modules in Hin. destruct Hin as [l Hin].
    destruct (Hshape _ l Hin)
      as [[E _]|[(j' & E & Hj)|[[E _]|(k' & E & Hk & _)]]];
      unfold recon in E; destruct noisy; discriminate. }
  split.
  { split.
    - intros Hin. apply In_modules in Hin. destruct Hin as [l Hin].
      destruct (Hshape _ l Hin)
        as [[_ ?]|[(j' & E & Hj)|[[E _]|(k' & E & Hk & _)]]];
        try assumption; try discriminate.
      exfalso. symmetry in E. revert E. apply recon_not_core.
    - intros Hnoisy. apply In_modules.
      destruct (proj1 (In_modules g0 _) (Hh0 Hnoisy)) as [l Hl].
      exists l. apply Hnodes2. now right. }
  split; [|exact Hcomplete].
  unfold backward_completes in Hcomplete. cbn [built andb] in Hcomplete.
  destruct (missing_consumers _); [reflexivity | discriminate].
Qed.

(** The unsupervised machine without noise. It is built for every stack; it
    holds every encoder, the last one included, and the decoder of every
    layer connected on its encoder; it holds no input handle, no autoencoder
    and not the outputer; its backward pass finds a consumer for every module
    outside the last layer. *)
Theorem plain_unsup_machine_pairs_coders (s : StackedAutoencoder) :
  is_noisy s = false ->
  0 <= n_hidden_layers s ->
  let n := n_hidden_layers s in
  exists g,
    BuildUnsupMachine s = Some g
    /\ built g = true
    /\ (forall j, In (Encoder j) (modules g) <-> 0 <= j < n)
    /\ (forall k, In (Decoder k) (modules g) <-> 0 <= k < n)
    /\ (forall k, 0 <= k < n -> In (Decoder k, Encoder k) (links g))
    /\ ~ In InputHandle (modules g)
    /\ ~ In Outputer (modules g)
    /\ (forall k, ~ In (Autoencoder k) (modules g))
    /\ (forall k, ~ In (NoisyEncoder k) (modules g))
    /\ missing_consumers g = []
    /\ backward_completes g = true.
Proof.
  intros Hnoisy Hn n. unfold BuildUnsupMachine.
  rewrite unsup_encoders_plain by assumption. fold n.
  destruct (AddEncodersUpToIncluded_new (n - 1) false)
    as (g0 & E0 & Hb0 & Hshape0 & Hprod0 & Hreg0 & _).
  rewrite E0.
  destruct (AddUnsupMachines_spec s g0)
    as (g2 & E2 & Hb2 & Hcur2 & Hnodes2 & Hshape2 & Hlinks2 & Hrl2 & Hreg2);
    [assumption | assumption | |].
  { intros k Hk. rewrite Hnoisy. cbn. apply Hreg0. lia. }
  rewrite Hnoisy in Hshape2, Hrl2, Hreg2. fold n in Hshape2, Hrl2, Hreg2.
  cbn [recon recon_source] in Hshape2, Hrl2, Hreg2.
  rewrite E2.
  assert (Hshape : forall m l, In (m, l) (nodes g2) ->
            (exists j, m = Encoder j /\ 0 <= j < n)
            \/ (exists k, m = Decoder k /\ 0 <= k < n
                          /\ l = current_layer g2)).
  { intros m l Hin.
    destruct (Hshape2 m l Hin) as [H0|(k & -> & Hk & -> & _)].
    - destruct (Hshape0 m l H0) as [[_ ?]|(j & -> & ?)]; [discriminate|].
      left. exists j. split; [reflexivity | lia].
    - right. exists k. rewrite Hcur2. auto. }
  rewrite build_ok; [| assumption |].
  2:{ intros m l Hin.
      destruct (Hshape2 m l Hin) as [H0|(k & _ & _ & _ & Hp)]; [|now right].
      destruct (Hprod0 m l H0) as [?|(p & Hp)]; [now left|].
      right. exists p. now apply Hlinks2. }
  assert (Hcons : forall m l, In (m, l) (nodes g2) ->
            l = current_layer g2 \/ exists c, In (c, m) (links g2)).
  { intros m l Hin.
    destruct (Hshape m l Hin) as [(j & -> & Hj)|(k & _ & _ & ->)];
      [right | now left].
    exists (Decoder j). now apply Hrl2. }
  assert (Hcomplete :
            backward_completes
              (mkCM (nodes g2) (current_layer g2) (links g2) true) = true).
  { apply backward_completes_ok; [reflexivity | exact Hcons]. }
  assert (Hnot : forall m, (forall j, m <> Encoder j) ->
                           (forall k, m <> Decoder k) ->
                           ~ In m (modules g2)).
  { intros m H1 H2 Hin. apply In_modules in Hin. destruct Hin as [l Hin].
    destruct (Hshape m l Hin) as [(j & E & _)|(k & E & _)];
      [apply (H1 j E) | apply (H2 k E)]. }
  eexists. split; [reflexivity|]. split; [reflexivity|].
  change (modules (mkCM (nodes g2) (current_layer g2) (links g2) true))
    with (modules g2).
  cbn [links].
  split.
  { intros j. split.
    - intros Hin. apply In_modules in Hin. destruct Hin as [l Hin].
      destruct (Hshape _ l Hin) as [(j' & E & Hj)|(k & E & _)];
        [inversion E; lia | discriminate].
    - intros Hj. apply In_modules.
      destruct (proj1 (In_modules g0 _) (Hreg0 j ltac:(lia))) as [l Hl].
      exists l. now apply Hnodes2. }
  split.
  { intros k. split; [|apply Hreg2].
    intros Hin. apply In_modules in Hin. destruct Hin as [l Hin].
    destruct (Hshape _ l Hin) as [(j' & E & Hj)|(k' & E & Hk & _)];
      [discriminate | inversion E; lia]. }
  split; [exact Hrl2|].
  split; [apply Hnot; discriminate|].
  split; [apply Hnot; discriminate|].
  split; [intros k; apply Hnot; discriminate|].
  split; [intros k; apply Hnot; discriminate|].
  split; [|exact Hcomplete].
  unfold backward_completes in Hcomplete. cbn [built andb] in Hcomplete.
  destruct (missing_consumers _); [reflexivity | discriminate].
Qed.

(** ** Layer-specific fine-tuning *)

(** The parameter blocks behind a single encoder and behind the outputer are
    their own. *)
Lemma owners_encoder (s : StackedAutoencoder) (i : Z) :
  owners s (Module (Encoder i))
  = if (0 <=? i) && (i <? n_hidden_layers s) then [Encoder i] else [].
Proof.
  cbn [owners module_owners]. unfold coder_owners.
  destruct ((0 <=? i) && (i <? n_hidden_layers s)) eqn:E.
  - apply coder_of_range in E. rewrite coder_of_encoder by assumption.
    rewrite encoder_built by assumption. reflexivity.
  - unfold coder_of. rewrite E. reflexivity.
Qed.

Lemma owners_outputer (s : StackedAutoencoder) :
  owners s (Module Outputer) = [Outputer].
Proof. reflexivity. Qed.

Lemma owns_encoder (s : StackedAutoencoder) (i : Z) (o : Machine) :
  owns s (Module (Encoder i)) o = true
  <-> (o = Encoder i /\ 0 <= i < n_hidden_layers s).
Proof.
  unfold owns. rewrite owners_encoder.
  destruct ((0 <=? i) && (i <? n_hidden_layers s)) eqn:E.
  - apply coder_of_range in E. cbn. rewrite orb_false_r, Machine_eqb_true.
    tauto.
  - cbn. split; [discriminate|]. intros [_ H].
    destruct (Z.leb_spec 0 i); destruct (Z.ltb_spec i (n_hidden_layers s));
      cbn in E; try discriminate; lia.
Qed.

Lemma owns_outputer (s : StackedAutoencoder) (o : Machine) :
  owns s (Module Outputer) o = true <-> o = Outputer.
Proof.
  unfold owns. rewrite owners_outputer. cbn.
  rewrite orb_false_r. apply Machine_eqb_true.
Qed.

Lemma finetune_encoders (sub : Substrate) (t : Trainer) :
  0 <= n_hidden_layers (sae t) ->
  finetune_inv sub t (n_hidden_layers (sae t))
    (for_loop 0 (n_hidden_layers (sae t))
       (fun i t =>
          if Rlt_dec 0 (aget 0%R (finetuning_learning_rates t) i)
          then parent_UpdateMachine sub (Module (Encoder i))
                 (aget 0%R (finetuning_learning_rates t) i) t
          else t)
       t).
Proof.
  intros Hn.
  set (n := n_hidden_layers (sae t)) in *.
  apply (for_loop_inv (finetune_inv sub t)); [assumption | |].
  - unfold finetune_inv. repeat split; auto. intros; lia.
  - intros i t1 Hi (Hs & Hr & Hd & Hin & Hout). rewrite Hr.
    unfold finetune_inv. unfold finetuned in *.
    destruct (Rlt_dec 0 (aget 0%R (finetuning_learning_rates t) i)) as [Hpos|Hneg].
    + cbn [parent_UpdateMachine set_params call sae finetuning_learning_rates
           der_params params]. rewrite Hs.
      repeat split; try assumption.
      * intros j k Hj. destruct (Z.eq_dec j i) as [->|Hne].
        -- replace (owns (sae t) (Module (Encoder i)) (Encoder i)) with true.
           2:{ symmetry. apply owns_encoder. split; [reflexivity | exact Hi]. }
           destruct (Rlt_dec 0 (aget 0%R (finetuning_learning_rates t) i));
             [|contradiction].
           rewrite Hd. rewrite Hout; [reflexivity|].
           intros i' Hi' E. inversion E. lia.
        -- replace (owns (sae t) (Module (Encoder i)) (Encoder j)) with false.
           2:{ symmetry. apply not_true_is_false. rewrite owns_encoder.
               intros [E _]. inversion E. contradiction. }
           apply Hin. lia.
      * intros o k Ho.
        replace (owns (sae t) (Module (Encoder i)) o) with false.
        2:{ symmetry. apply not_true_is_false. rewrite owns_encoder.
            intros [E _]. apply (Ho i); [lia | exact E]. }
        apply Hout. intros i' Hi'. apply Ho. lia.
    + repeat split; try assumption.
      * intros j k Hj. destruct (Z.eq_dec j i) as [->|Hne].
        -- destruct (Rlt_dec 0 (aget 0%R (finetuning_learning_rates t) i));
             [contradiction|].
           apply Hout. intros i' Hi' E. inversion E. lia.
        -- apply Hin. lia.
      * intros o k Ho. apply Hout. intros i' Hi'. apply Ho. lia.
Qed.

(** In fine-tuning mode the update is per layer: the machine must be the
    stacked autoencoder itself; encoder [i] moves at its own rate
    [finetuning_learning_rates[i]], the outputer at rate [N]; a rate that is
    not positive freezes the layer; the rate handed to [UpdateMachine] is not
    used; no other parameter block (decoders, noisy encoders) and no
    parameter-gradient changes. *)
Theorem finetuning_updates_each_layer_at_its_rate (sub : Substrate)
    (t : Trainer) (current_learning_rate : R) :
  is_finetuning t = true ->
  0 <= n_hidden_layers (sae t) ->
  let n := n_hidden_layers (sae t) in
  let rate := aget 0%R (finetuning_learning_rates t) in
  (forall gm, gm <> Sae -> UpdateMachine sub gm current_learning_rate t = None)
  /\ exists t',
       UpdateMachine sub Sae current_learning_rate t = Some t'
       /\ (forall i k, 0 <= i < n ->
             params t' (Encoder i) k
             = if Rlt_dec 0 (rate i)
               then sgd_step sub (rate i) (params t (Encoder i) k)
                             (der_params t (Encoder i) k)
               else params t (Encoder i) k)
       /\ (forall k,
             params t' Outputer k
             = if Rlt_dec 0 (rate n)
               then sgd_step sub (rate n) (params t Outputer k)
                             (der_params t Outputer k)
               else params t Outputer k)
       /\ (forall o k, o <> Outputer ->
             (forall i, 0 <= i < n -> o <> Encoder i) ->
             params t' o k = params t o k)
       /\ (forall o k, der_params t' o k = der_params t o k).
Proof.
  intros Hft Hn n rate. split.
  - intros gm Hgm. unfold UpdateMachine. rewrite Hft. cbn [negb].
    destruct gm; congruence.
  - unfold UpdateMachine. rewrite Hft. cbn [negb].
    pose proof (finetune_encoders sub t Hn) as (Hs & Hr & Hd & Hin & Hout).
    fold n in Hs, Hr, Hd, Hin, Hout |- *.
    set (t1 := for_loop 0 n _ t) in *.
    rewrite Hr. fold rate. unfold finetuned in Hin. fold rate in Hin.
    destruct (Rlt_dec 0 (rate n)) as [Hpos|Hneg].
    + eexists. split; [reflexivity|].
      cbn [parent_UpdateMachine set_params call params der_params].
      repeat split.
      * intros i k Hi.
        replace (owns (sae t1) (Module Outputer) (Encoder i)) with false
          by (symmetry; apply not_true_is_false; rewrite owns_outputer;
              discriminate).
        now apply Hin.
      * intros k.
        replace (owns (sae t1) (Module Outputer) Outputer) with true
          by (symmetry; now apply owns_outputer).
        rewrite Hd, Hout by discriminate. reflexivity.
      * intros o k Ho Henc.
        replace (owns (sae t1) (Module Outputer) o) with false
          by (symmetry; apply not_true_is_false; now rewrite owns_outputer).
        now apply Hout.
      * intros o k. now rewrite Hd.
    + exists t1. split; [reflexivity|]. repeat split.
      * intros i k Hi. now apply Hin.
      * intros k. apply Hout. discriminate.
      * intros o k Ho Henc. now apply Hout.
      * intros o k. now rewrite Hd.
Qed.

(** ** When the reweighting aborts *)

Lemma for_loop_opt_abort {S : Type} (lo hi i : Z) (body : Z -> S -> option S)
    (s : S) :
  lo <= i < hi ->
  (forall s, body i s = None) ->
  for_loop_opt lo hi body s = None.
Proof.
  intros Hi Hnone.
  assert (H : forall k : nat, for_loop_opt lo (i + 1 + Z.of_nat k) body s = None).
  { induction k as [|k IH].
    - rewrite Z.add_0_r, for_loop_opt_last by lia.
      destruct (for_loop_opt lo i body s); [apply Hnone | reflexivity].
    - rewrite Nat2Z.inj_succ, <- Z.add_1_r, Z.add_assoc.
      rewrite for_loop_opt_last by lia. now rewrite IH. }
  specialize (H (Z.to_nat (hi - (i + 1)))).
  now replace (i + 1 + Z.of_nat (Z.to_nat (hi - (i + 1)))) with hi in H by lia.
Qed.

(** With reweighting enabled, a non-zero epoch counter and the supervised
    data set recorded, [IterInitialize] completes exactly when that data set
    and the data set of every layer hold the 1000 examples that [EvalHessian]
    is asked to sample; otherwise the iteration aborts on the assertion of
    [EvalHessian]. *)
Theorem reweighting_needs_1000_examples (sub : Substrate) (t : Trainer)
    (d : DataSet) :
  do_eval_criterion_weights t = true ->
  epoch t <> 0 ->
  sup_dataset t = Some d ->
  0 <= n_hidden_layers (sae t) ->
  IterInitialize sub t <> None
  <-> (1000 <= n_examples sub d
       /\ forall i, 0 <= i < n_hidden_layers (sae t) ->
                    1000 <= n_examples sub (UnsupData i)).
Proof.
  intros Hon Hep Hd Hn. unfold IterInitialize. rewrite Hon, Hd.
  destruct (Z.eqb_spec (epoch t) 0) as [|_]; [contradiction|]. cbn [negb andb].
  destruct (Z.lt_ge_cases (n_examples sub d) 1000) as [Hlt|Hge].
  { rewrite EvalHessian_none by assumption.
    split; [congruence|]. intros [H _]. lia. }
  destruct (EvalHessian_some (arith sub) (derivatives sub Sae SupCriterion d)
              (n_examples sub d) 1000) as (out & E); [lia|].
  rewrite E. cbn [fst snd].
  set (t1 := set_criterions_weights _ _).
  set (body := fun (i : Z) (t : Trainer) =>
                 r <- EvalHessian (arith sub)
                        (derivatives sub (MesdMachine i) (UnsupCriterion i)
                                     (UnsupData i))
                        (n_examples sub (UnsupData i)) 1000 ;;
                 Some (set_criterions_weights
                         (aset (criterions_weights t) (1 + i) (fst r))
                         (print_all (snd r) t))).
  split.
  - intros Hsome. split; [lia|].
    intros i Hi.
    destruct (Z.lt_ge_cases (n_examples sub (UnsupData i)) 1000) as [Hlt|];
      [|lia].
    exfalso. apply Hsome.
    rewrite (for_loop_opt_abort 0 (n_hidden_layers (sae t)) i body t1);
      [reflexivity | assumption |].
    intros x. unfold body. now rewrite EvalHessian_none.
  - intros [_ Hall].
    destruct (for_loop_opt_inv (fun _ _ => True) 0 (n_hidden_layers (sae t))
                body t1) as (t2 & E2 & _); [assumption | exact I | |].
    + intros i x Hi _. unfold body.
      destruct (EvalHessian_some (arith sub)
                  (derivatives sub (MesdMachine i) (UnsupCriterion i)
                               (UnsupData i))
                  (n_examples sub (UnsupData i)) 1000) as (o & Eo);
        [specialize (Hall i Hi); lia|].
      rewrite Eo. eauto.
    + fold body. rewrite E2. discriminate.
Qed.

(** ** The generic trainer keeps the mode and counts the epochs *)

Lemma fold_left_keeps {S A B : Type} (f : S -> B) (body : S -> A -> S)
    (l : list A) (s : S) :
  (forall s a, f (body s a) = f s) -> f (fold_left body l s) = f s.
Proof.
  intros H. revert s. induction l as [|a l IH]; intros s; [reflexivity|].
  simpl. now rewrite IH.
Qed.

Lemma for_loop_keeps {S B : Type} (f : S -> B) (lo hi : Z) (body : Z -> S -> S)
    (s : S) :
  (forall i s, f (body i s) = f s) -> f (for_loop lo hi body s) = f s.
Proof. intros H. unfold for_loop. apply fold_left_keeps. intros; apply H. Qed.

Lemma for_down_keeps {S B : Type} (f : S -> B) (hi lo : Z) (body : Z -> S -> S)
    (s : S) :
  (forall i s, f (body i s) = f s) -> f (for_down hi lo body s) = f s.
Proof. intros H. unfold for_down. apply fold_left_keeps. intros; apply H. Qed.

Lemma for_loop_opt_keeps {S B : Type} (f : S -> B) (lo hi : Z)
    (body : Z -> S -> option S) (s s' : S) :
  (forall i s s', body i s = Some s' -> f s' = f s) ->
  for_loop_opt lo hi body s = Some s' -> f s' = f s.
Proof.
  intros H. unfold for_loop_opt.
  generalize (seq 0 (Z.to_nat (hi - lo))). intros l. revert s'.
  induction l as [|a l IH] using rev_ind; intros s'.
  - simpl. congruence.
  - rewrite fold_left_app. simpl.
    destruct (fold_left _ l (Some s)) as [s1|]; [|discriminate].
    intros E. rewrite (H _ _ _ E). now apply IH.
Qed.

Lemma ProfileLocalGradMeasureExample_schedule (sub : Substrate) (t : Trainer) :
  schedule (ProfileLocalGradMeasureExample sub t) = schedule t.
Proof.
  unfold ProfileLocalGradMeasureExample.
  rewrite for_loop_keeps by reflexivity.
  change (schedule (do_backward sub ?gm ?i ?a ?x)) with (schedule x).
  change (schedule (do_clear_derivatives ?gm ?x)) with (schedule x).
  rewrite for_loop_keeps by reflexivity. reflexivity.
Qed.

Lemma fpropbprop_schedule (sub : Substrate) (d : DataSet) (t : Trainer) :
  schedule (fpropbprop sub d t) = schedule t.
Proof.
  unfold fpropbprop.
  destruct (negb (profile_gradients t) && negb (layerwise_training t)
            && negb (topK_training t)); [reflexivity|].
  destruct (layerwise_training t); [reflexivity|].
  destruct (topK_training t).
  - rewrite for_down_keeps; [reflexivity|].
    intros i x. destruct (i =? _); [reflexivity|].
    destruct (i =? 0); reflexivity.
  - now rewrite ProfileLocalGradMeasureExample_schedule.
Qed.

Lemma UpdateMachine_schedule (sub : Substrate) (gm : GradientMachine) (lr : R)
    (t t' : Trainer) :
  UpdateMachine sub gm lr t = Some t' -> schedule t' = schedule t.
Proof.
  unfold UpdateMachine. destruct (negb (is_finetuning t)).
  - intros E. inversion E. reflexivity.
  - destruct gm; try discriminate.
    set (t1 := for_loop 0 _ _ t).
    assert (H1 : schedule t1 = schedule t).
    { apply for_loop_keeps. intros i x.
      destruct (Rlt_dec _ _); reflexivity. }
    destruct (Rlt_dec _ _); intros E; inversion E; subst; rewrite <- H1;
      reflexivity.
Qed.

Lemma print_all_schedule (os : list Output) (t : Trainer) :
  schedule (print_all os t) = schedule t.
Proof. unfold print_all. now apply fold_left_keeps. Qed.

Lemma IterInitialize_schedule (sub : Substrate) (t t' : Trainer) :
  IterInitialize sub t = Some t' -> schedule t' = schedule t.
Proof.
  unfold IterInitialize.
  destruct (do_eval_criterion_weights t && negb (epoch t =? 0));
    [|intros E; inversion E; reflexivity].
  destruct (sup_dataset t) as [d|]; [|discriminate].
  destruct (EvalHessian _ _ _) as [r|]; [|discriminate].
  set (t1 := set_criterions_weights _ _).
  assert (H1 : schedule t1 = schedule t).
  { subst t1. change (schedule (set_criterions_weights ?w ?x))
      with (schedule x). apply print_all_schedule. }
  destruct (for_loop_opt _ _ _ t1) as [t2|] eqn:E2; [|discriminate].
  assert (H2 : schedule t2 = schedule t1).
  { revert E2. apply for_loop_opt_keeps. intros i x x'.
    destruct (EvalHessian _ _ _); [|discriminate].
    intros E. inversion E.
    change (schedule (set_criterions_weights ?w ?x)) with (schedule x).
    apply print_all_schedule. }
  intros E. inversion E.
  change (schedule (set_criterions_weights ?w ?x)) with (schedule x).
  rewrite for_loop_keeps by reflexivity. congruence.
Qed.

Lemma train_example_schedule (sub : Substrate) (d : DataSet) (e : Z)
    (t t' : Trainer) :
  train_example sub d e t = Some t' -> schedule t' = schedule t.
Proof.
  unfold train_example. intros E. apply UpdateMachine_schedule in E.
  rewrite E, fpropbprop_schedule. reflexivity.
Qed.

Lemma IterFinalize_schedule (t : Trainer) :
  settings (IterFinalize t) = settings t
  /\ epoch (IterFinalize t) = epoch t + 1.
Proof.
  unfold IterFinalize, ProfileLocalGradMeasureIteration.
  destruct (profile_gradients t).
  - change (settings (set_epoch ?e ?x)) with (settings x).
    change (epoch (set_epoch ?e ?x)) with e.
    split; [apply for_loop_keeps; reflexivity|].
    f_equal. apply for_loop_keeps; reflexivity.
  - split; reflexivity.
Qed.

(** A run of the generic trainer through the hooks, when it completes,
    leaves the active machine, the criterion, the recorded data set, the
    mode switches (layerwise, top-K, fine-tuning, profiling), the
    fine-tuning rates and the partial-backprop flags as they were, and has
    advanced the epoch counter by the number of iterations: the counter is
    never reset. *)
Theorem sgd_train_keeps_settings_and_counts_epochs (sub : Substrate)
    (n_iterations : Z) (d : DataSet) (ms : MeasurerList) (t t' : Trainer) :
  0 <= n_iterations ->
  sgd_train sub n_iterations d ms t = Some t' ->
  settings t' = settings t /\ epoch t' = epoch t + n_iterations.
Proof.
  intros Hn. unfold sgd_train, TrainInitialize.
  destruct (for_loop_opt 0 n_iterations _ t) as [t1|] eqn:E1; [|discriminate].
  intros E. inversion E. subst t'. clear E.
  assert (H1 : settings t1 = settings t /\ epoch t1 = epoch t + n_iterations).
  { refine (for_loop_opt_some
              (fun b x => settings x = settings t /\ epoch x = epoch t + b)
              0 n_iterations _ t t1 Hn _ _ E1).
    - split; [reflexivity | lia].
    - intros i x x' Hi [Hs He].
      destruct (IterInitialize sub x) as [x1|] eqn:Ei; [|discriminate].
      destruct (for_loop_opt 0 _ _ x1) as [x2|] eqn:Ex; [|discriminate].
      intros E. inversion E. subst x'. clear E.
      apply IterInitialize_schedule in Ei.
      assert (H2 : schedule x2 = schedule x1).
      { revert Ex. apply for_loop_opt_keeps. intros j y y'.
        apply train_example_schedule. }
      destruct (IterFinalize_schedule x2) as [Fs Fe]. rewrite Fs, Fe.
      unfold schedule in Ei, H2. inversion Ei. inversion H2.
      split; [congruence | lia]. }
  destruct H1 as [Hs He]. rewrite <- Hs, <- He.
  unfold TrainFinalize, ProfileLocalGradMeasureEnd.
  destruct (profile_gradients t1); [|split; reflexivity].
  split; apply for_loop_keeps; reflexivity.
Qed.

(** ** The machines of the unsupervised phases do not reach the outputer *)

Lemma for_loop_opt_preserves {S : Type} (P : S -> Prop) (lo hi : Z)
    (body : Z -> S -> option S) (s s' : S) :
  (forall i s s', body i s = Some s' -> P s -> P s') ->
  P s ->
  for_loop_opt lo hi body s = Some s' -> P s'.
Proof.
  intros H. unfold for_loop_opt.
  generalize (seq 0 (Z.to_nat (hi - lo))). intros l. revert s'.
  induction l as [|a l IH] using rev_ind; intros s' H0.
  - simpl. intros E. inversion E. now subst.
  - rewrite fold_left_app. simpl.
    destruct (fold_left _ l (Some s)) as [s1|]; [|discriminate].
    intros E. apply (H _ _ _ E). now apply IH.
Qed.

Lemma addMachine_modules (m : Machine) (g g' : ConnectedMachine) :
  addMachine m g = Some g' -> modules g' = m :: modules g.
Proof.
  unfold addMachine. destruct (built g); [discriminate|].
  intros E. inversion E. reflexivity.
Qed.

Lemma connectOn_modules (p : Machine) (g g' : ConnectedMachine) :
  connectOn p g = Some g' -> modules g' = modules g.
Proof.
  unfold connectOn. destruct (built g); [discriminate|].
  destruct (nodes g) as [|[c l] ns] eqn:En; [discriminate|].
  destruct (_ && _); [|discriminate].
  intros E. inversion E. unfold modules. cbn. now rewrite En.
Qed.

Lemma addLayer_modules (g g' : ConnectedMachine) :
  addLayer g = Some g' -> modules g' = modules g.
Proof.
  unfold addLayer. destruct (built g); [discriminate|].
  intros E. inversion E. reflexivity.
Qed.

Lemma build_modules (g g' : ConnectedMachine) :
  build g = Some g' -> modules g' = modules g.
Proof.
  unfold build. destruct (built g); [discriminate|].
  destruct (forallb _ _); [|discriminate].
  intros E. inversion E. reflexivity.
Qed.

Lemma addFCL_modules (m : Machine) (g g' : ConnectedMachine) :
  addFCL m g = Some g' -> modules g' = m :: modules g.
Proof.
  unfold addFCL.
  destruct (if existsb _ (nodes g) then addLayer g else Some g)
    as [g1|] eqn:E1; [|discriminate].
  assert (H1 : modules g1 = modules g).
  { destruct (existsb _ (nodes g)).
    - eapply addLayer_modules; eassumption.
    - inversion E1. reflexivity. }
  destruct (addMachine m g1) as [g2|] eqn:E2; [|discriminate].
  apply addMachine_modules in E2.
  destruct (Nat.eqb (current_layer g2) 0).
  - intros E. inversion E. subst. now rewrite E2, H1.
  - generalize (rev (on_layer g2 (pred (current_layer g2)))). intros l.
    assert (H : forall o,
              (forall x, o = Some x -> modules x = m :: modules g) ->
              fold_left (fun o p => g <- o ;; connectOn p g) l o = Some g' ->
              modules g' = m :: modules g).
    { induction l as [|p l IH]; intros o Ho; cbn [fold_left].
      - intros E. now apply Ho.
      - apply IH. intros x Ex. destruct o as [y|]; [|discriminate].
        apply connectOn_modules in Ex. rewrite Ex. now apply Ho. }
    apply H. intros x Ex. inversion Ex. subst. now rewrite E2, H1.
Qed.

(** A module other than the outputer keeps its parameters in blocks other
    than the outputer's. *)
Lemma module_owners_outputer (s : StackedAutoencoder) (m : Machine) :
  In Outputer (module_owners s m) -> m = Outputer.
Proof.
  assert (Hc : forall m', m' <> Outputer ->
                          (forall l, m' <> Autoencoder l) ->
                          ~ In Outputer (coder_owners s m')).
  { intros m' Hm' Ha Hin. apply coder_owners_shape in Hin.
    destruct Hin as [E|(c & Ec & Ef)]; [congruence|].
    destruct m' as [l|l|l|l| |].
    - apply encoder_from in Ec. congruence.
    - pose proof (noisy_encoder_from s l c _ Ec Ef). discriminate.
    - pose proof (decoder_from s l c _ Ec Ef). discriminate.
    - now apply (Ha l).
    - now apply Hm'.
    - unfold coder_of in Ec. discriminate. }
  destruct m as [l|l|l|l| |]; cbn [module_owners]; intros Hin;
    try reflexivity; try (exfalso; revert Hin; apply Hc; discriminate).
  - exfalso. apply in_app_or in Hin. destruct Hin as [Hin|Hin].
    + destruct (is_noisy s); revert Hin; apply Hc; discriminate.
    + revert Hin. apply Hc; discriminate.
  - contradiction.
Qed.

Lemma owns_outputer_false (s : StackedAutoencoder) (gm : GradientMachine) :
  (forall g, graph_of s gm = Some g -> ~ In Outputer (modules g)) ->
  (forall m, gm <> Module m) ->
  owns s gm Outputer = false.
Proof.
  intros Hg Hm. apply owns_false. unfold owners.
  destruct gm as [| i | | | g | m]; try (exfalso; now apply (Hm m));
    (destruct (graph_of s _) as [g'|] eqn:E; [|intros []];
     intros Hin; apply in_flat_map in Hin; destruct Hin as (m & Hm1 & Hm2);
     apply module_owners_outputer in Hm2; subst m;
     exact (Hg g' eq_refl Hm1)).
Qed.

Lemma unsup_machine_no_outputer (s : StackedAutoencoder)
    (g : ConnectedMachine) :
  BuildUnsupMachine s = Some g -> ~ In Outputer (modules g).
Proof.
  unfold BuildUnsupMachine.
  destruct (unsup_encoders s new_machine) as [g0|] eqn:E0; [|discriminate].
  destruct (AddUnsupMachines s g0) as [g1|] eqn:E1; [|discriminate].
  intros E. apply build_modules in E. rewrite E.
  assert (H0 : ~ In Outputer (modules g0)).
  { revert E0. unfold unsup_encoders.
    apply (for_loop_opt_preserves (fun g => ~ In Outputer (modules g)));
      [|intros []].
    intros i x x' Ex Hx.
    destruct (_ || _).
    - destruct (addMachine (Encoder i) x) as [x1|] eqn:A1; [|discriminate].
      apply addMachine_modules in A1.
      destruct (if 0 <? i then connectOn (Encoder (i - 1)) x1 else Some x1)
        as [x2|] eqn:A2; [|discriminate].
      assert (H2 : modules x2 = modules x1).
      { destruct (0 <? i); [eapply connectOn_modules; eassumption|].
        inversion A2. reflexivity. }
      destruct (if (i =? 0) && is_noisy s then addMachine InputHandle x2
                else Some x2) as [x3|] eqn:A3; [|discriminate].
      assert (H3 : ~ In Outputer (modules x3)).
      { destruct ((i =? 0) && is_noisy s).
        - apply addMachine_modules in A3. rewrite A3, H2, A1.
          intros [H|[H|H]]; [discriminate | discriminate | now apply Hx].
        - inversion A3. subst. rewrite H2, A1.
          intros [H|H]; [discriminate | now apply Hx]. }
      apply addLayer_modules in Ex. now rewrite Ex.
    - destruct (if (i =? 0) && is_noisy s then addMachine InputHandle x
                else Some x) as [x3|] eqn:A3; [|discriminate].
      assert (H3 : ~ In Outputer (modules x3)).
      { destruct ((i =? 0) && is_noisy s).
        - apply addMachine_modules in A3. rewrite A3.
          intros [H|H]; [discriminate | now apply Hx].
        - inversion A3. now subst. }
      destruct ((i =? 0) && is_noisy s).
      + apply addLayer_modules in Ex. now rewrite Ex.
      + inversion Ex. now subst. }
  revert E1. unfold AddUnsupMachines.
  apply (for_loop_opt_preserves (fun g => ~ In Outputer (modules g)));
    [|exact H0].
  intros i x x' Ex Hx.
  assert (H : forall m p, m <> Outputer ->
                          (y <- addMachine m x ;; connectOn p y) = Some x' ->
                          ~ In Outputer (modules x')).
  { intros m p Hm Ey.
    destruct (addMachine m x) as [y|] eqn:A1; [|discriminate].
    apply addMachine_modules in A1. apply connectOn_modules in Ey.
    rewrite Ey, A1. intros [H|H]; [congruence | now apply Hx]. }
  destruct (negb (is_noisy s));
    [apply (H (Decoder i) (Encoder i)); [discriminate | exact Ex]|].
  destruct (0 <? i);
    [apply (H (Autoencoder i) (Encoder (i - 1)))
    | apply (H (Autoencoder i) InputHandle)];
    (discriminate || exact Ex).
Qed.

Lemma mesd_machine_no_outputer (s : StackedAutoencoder) (i : Z)
    (g : ConnectedMachine) :
  BuildMesdMachine s i = Some g -> ~ In Outputer (modules g).
Proof.
  unfold BuildMesdMachine.
  destruct (for_loop_opt 0 i _ new_machine) as [g0|] eqn:E0; [|discriminate].
  assert (H0 : ~ In Outputer (modules g0)).
  { revert E0.
    apply (for_loop_opt_preserves (fun g => ~ In Outputer (modules g)));
      [|intros []].
    intros j x x' Ex Hx. apply addFCL_modules in Ex. rewrite Ex.
    intros [H|H]; [discriminate | now apply Hx]. }
  destruct (if is_noisy s then addFCL (NoisyEncoder i) g0
            else addFCL (Encoder i) g0) as [g1|] eqn:E1; [|discriminate].
  assert (H1 : ~ In Outputer (modules g1)).
  { destruct (is_noisy s); apply addFCL_modules in E1; rewrite E1;
      (intros [H|H]; [discriminate | now apply H0]). }
  destruct (addFCL (Decoder i) g1) as [g2|] eqn:E2; [|discriminate].
  apply addFCL_modules in E2.
  intros E. apply build_modules in E. rewrite E, E2.
  intros [H|H]; [discriminate | now apply H1].
Qed.

(** The machines trained without supervision (the unsupervised machine and
    the machine of each layer) hold no parameter block of the outputer,
    whatever the stack: a backward pass through them leaves the outputer's
    parameter-gradients as they were, and an update of them leaves its
    parameters as they were. *)
Theorem unsupervised_machines_leave_outputer (s : StackedAutoencoder)
    (sub : Substrate) :
  owns s UnsupMachine Outputer = false
  /\ (forall i, owns s (MesdMachine i) Outputer = false)
  /\ (forall gm inputs alpha lr t k,
        sae t = s ->
        gm = UnsupMachine \/ (exists i, gm = MesdMachine i) ->
        der_params (do_backward sub gm inputs alpha t) Outputer k
        = der_params t Outputer k
        /\ params (parent_UpdateMachine sub gm lr t) Outputer k
           = params t Outputer k).
Proof.
  assert (H1 : owns s UnsupMachine Outputer = false).
  { apply owns_outputer_false; [|discriminate].
    intros g. apply unsup_machine_no_outputer. }
  assert (H2 : forall i, owns s (MesdMachine i) Outputer = false).
  { intros i. apply owns_outputer_false; [|discriminate].
    intros g. apply mesd_machine_no_outputer. }
  split; [exact H1|]. split; [exact H2|].
  intros gm inputs alpha lr t k Hs Hgm.
  assert (Ho : owns (sae t) gm Outputer = false).
  { rewrite Hs. destruct Hgm as [->|[i ->]]; [exact H1 | apply H2]. }
  unfold do_backward, parent_UpdateMachine.
  cbn [der_params params set_der_params set_params call sae].
  rewrite Ho. split; reflexivity.
Qed.

(** ** The criteria of the unsupervised phases *)

Lemma ones_filled (n : Z) (w : R) (l : list R) :
  0 <= n ->
  Z.of_nat (List.length l) = n + 1 ->
  for_loop 0 n (fun i l => aset l (1 + i) w) l
  = aget 0%R l 0 :: repeat w (Z.to_nat n).
Proof.
  intros Hn Hlen.
  assert (H : List.length (for_loop 0 n (fun i l => aset l (1 + i) w) l)
              = List.length l
              /\ aget 0%R (for_loop 0 n (fun i l => aset l (1 + i) w) l) 0
                 = aget 0%R l 0
              /\ forall j, 1 <= j < 1 + n ->
                   aget 0%R (for_loop 0 n (fun i l => aset l (1 + i) w) l) j
                   = w).
  { apply (for_loop_inv
             (fun b l' => List.length l' = List.length l
                          /\ aget 0%R l' 0 = aget 0%R l 0
                          /\ forall j, 1 <= j < 1 + b -> aget 0%R l' j = w));
      [assumption | |].
    - split; [reflexivity|]. split; [reflexivity | intros; lia].
    - intros i l' Hi (Hl & H0 & Hj). split; [now rewrite aset_length|].
      split; [rewrite aget_aset_other by lia; assumption|].
      intros j Hj'. destruct (Z.eq_dec j (1 + i)) as [->|Hne].
      + apply aget_aset_same. lia.
      + rewrite aget_aset_other by lia. apply Hj. lia. }
  destruct H as (Hl & H0 & Hj).
  apply (nth_ext _ _ 0%R 0%R).
  - rewrite Hl. cbn [List.length]. rewrite repeat_length. lia.
  - intros k Hk. rewrite Hl in Hk. destruct k as [|k].
    + exact H0.
    + cbn [nth]. rewrite nth_repeat_lt by lia.
      specialize (Hj (Z.of_nat (S k)) ltac:(lia)).
      unfold aget in Hj. now rewrite Nat2Z.id in Hj.
Qed.

(** [TrainUnsupNotOutput] hands [train] the unsupervised machine and the
    concatenation of the [N] unsupervised criteria, which reads its weights
    past the supervised entry of the shared array: all 1.0. The supervised
    entry is left as it was; the machine does not reach the outputer. *)
Theorem unsup_not_output_weights
    (train : DataSet -> MeasurerList -> Trainer -> option Trainer)
    (t : Trainer) :
  0 <= n_hidden_layers (sae t) ->
  Z.of_nat (List.length (criterions_weights t)) = n_hidden_layers (sae t) + 1 ->
  let n := n_hidden_layers (sae t) in
  exists t1,
    TrainUnsupNotOutput train t
    = (x <- train (UnsupData 0)
               (map (fun i => FakeDataMeasurer (UnsupData 0) (UnsupMeasurer i))
                    (range n))
               t1 ;;
       Some (set_criterion SupCriterion (set_machine Sae x)))
    /\ machine t1 = UnsupMachine
    /\ criterion t1
       = ConcatCriterion UnsupMachine n (map UnsupCriterion (range n)) (Some 1)
    /\ concat_weights t1 = Some (repeat 1%R (Z.to_nat n))
    /\ criterions_weights t1
       = aget 0%R (criterions_weights t) 0 :: repeat 1%R (Z.to_nat n)
    /\ partial_backprop t1 = partial_backprop t
    /\ owns (sae t1) (machine t1) Outputer = false.
Proof.
  intros Hn Hlen n.
  pose proof (weights_loop n (fun i l => aset l (1 + i) 1%R) t Hn) as H.
  cbv beta zeta in H.
  unfold TrainUnsupNotOutput. fold n.
  remember (for_loop 0 n
              (fun i t => set_criterions_weights
                            (aset (criterions_weights t) (1 + i) 1%R) t) t)
    as L eqn:EL.
  destruct H as (Hw & Hs & Hm & Hc & Hd & Hp & Hcalls).
  rewrite (ones_filled n 1%R (criterions_weights t) Hn Hlen) in Hw.
  eexists. split; [reflexivity|].
  cbn [machine criterion criterions_weights partial_backprop sae
       set_machine set_criterion].
  split; [reflexivity|]. split; [reflexivity|].
  split; [unfold concat_weights; cbn [criterion criterions_weights
                                       set_machine set_criterion];
          rewrite Hw; reflexivity|].
  split; [exact Hw|]. split; [exact Hp|].
  apply owns_outputer_false; [|discriminate].
  intros g. apply unsup_machine_no_outputer.
Qed.

Lemma collect_included {A : Type} (f : Z -> A) (pl : list Z) (n : Z) :
  for_loop 0 n
    (fun i cs => if aget 0 pl i =? 1 then cs ++ [f i] else cs) []
  = map f (included_layers n pl).
Proof.
  rewrite for_loop_range. unfold included_layers.
  assert (H : forall l acc,
            fold_left (fun cs i => if aget 0 pl i =? 1 then cs ++ [f i]
                                   else cs) l acc
            = acc ++ map f (filter (fun i => aget 0 pl i =? 1) l)).
  { induction l as [|a l IH]; intros acc; cbn [fold_left filter].
    - cbn. now rewrite app_nil_r.
    - rewrite IH. destruct (aget 0 pl a =? 1); [|reflexivity].
      cbn [map]. now rewrite <- app_assoc. }
  now rewrite H.
Qed.

Lemma find_topmost_count (n : Z) (pl : list Z) :
  snd (find_topmost n pl) = Z.of_nat (List.length (included_layers n pl)).
Proof.
  unfold find_topmost, included_layers. rewrite for_loop_range.
  assert (H : forall l r,
            snd (fold_left
                   (fun r i => if aget 0 pl i =? 1 then (i, snd r + 1) else r)
                   l r)
            = snd r
              + Z.of_nat (List.length
                            (filter (fun i => aget 0 pl i =? 1) l))).
  { induction l as [|a l IH]; intros r; cbn [fold_left filter].
    - cbn. lia.
    - rewrite IH. destruct (aget 0 pl a =? 1); cbn [snd List.length]; lia. }
  rewrite H. cbn. lia.
Qed.

Lemma selective_decoders_flags (t0 : Trainer) (pl : list Z) (pb : bool)
    (g0 : ConnectedMachine) (tg : Trainer * ConnectedMachine) :
  0 <= n_hidden_layers (sae t0) ->
  selective_decoders pl pb (t0, g0) = Some tg ->
  flags_inv t0 pl pb (n_hidden_layers (sae t0)) tg.
Proof.
  intros Hn. unfold selective_decoders. cbn [fst].
  refine (for_loop_opt_some (flags_inv t0 pl pb) 0 (n_hidden_layers (sae t0))
            _ (t0, g0) tg Hn _ _).
  - unfold flags_inv. cbn. repeat split; intros; lia.
  - intros i [t g] [t' g'] Hi (Hs & He & Ha). cbn [fst snd] in *.
    set (t1 := if pb then call (ClearSequence (Encoder i))
                              (setPartialBackprop (Encoder i) pb t)
               else setPartialBackprop (Encoder i) pb t).
    assert (P1 : forall m, partial_backprop t1 m
                           = if Machine_eq_dec m (Encoder i) then pb
                             else partial_backprop t m).
    { intros m. subst t1. destruct pb; reflexivity. }
    assert (S1 : sae t1 = sae t0).
    { subst t1. destruct pb; exact Hs. }
    set (t2 := if pb then call (ClearSequence (Autoencoder i))
                              (setPartialBackprop (Autoencoder i) pb t1)
               else setPartialBackprop (Autoencoder i) pb t1).
    assert (P2 : forall m, partial_backprop t2 m
                           = if Machine_eq_dec m (Autoencoder i) then pb
                             else partial_backprop t1 m).
    { intros m. subst t2. destruct pb; reflexivity. }
    assert (S2 : sae t2 = sae t0).
    { subst t2. destruct pb; exact S1. }
    assert (F1 : forall gx, is_noisy (sae t0) = false \/ aget 0 pl i <> 1 ->
                            flags_inv t0 pl pb (i + 1) (t1, gx)).
    { intros gx Hcase. unfold flags_inv. cbn [fst].
      split; [exact S1|]. split.
      - intros j Hj. rewrite P1.
        destruct (Machine_eq_dec (Encoder j) (Encoder i)) as [|Hne];
          [reflexivity|]. apply He.
        assert (j <> i) by congruence. lia.
      - intros Hnoisy j Hj Hj1. rewrite P1.
        destruct (Machine_eq_dec (Autoencoder j) (Encoder i));
          [discriminate|].
        destruct Hcase as [Hc|Hc]; [congruence|].
        apply Ha; try assumption.
        assert (j <> i) by congruence. lia. }
    assert (F2 : forall gx, flags_inv t0 pl pb (i + 1) (t2, gx)).
    { intros gx. unfold flags_inv. cbn [fst].
      split; [exact S2|]. split.
      - intros j Hj. rewrite P2.
        destruct (Machine_eq_dec (Encoder j) (Autoencoder i));
          [discriminate|]. rewrite P1.
        destruct (Machine_eq_dec (Encoder j) (Encoder i)) as [|Hne];
          [reflexivity|]. apply He.
        assert (j <> i) by congruence. lia.
      - intros Hnoisy j Hj Hj1. rewrite P2.
        destruct (Machine_eq_dec (Autoencoder j) (Autoencoder i)) as [|Hne];
          [reflexivity|]. rewrite P1.
        destruct (Machine_eq_dec (Autoencoder j) (Encoder i));
          [discriminate|].
        apply Ha; try assumption.
        assert (j <> i) by congruence. lia. }
    cbv zeta. cbn [fst snd]. fold t1. fold t2.
    destruct (Z.eqb_spec (aget 0 pl i) 1) as [E1|E1].
    + destruct (is_noisy (sae t0)) eqn:En; cbn [negb].
      * destruct (0 <? i);
          (destruct (addMachine (Autoencoder i) g) as [gx|]; [|discriminate];
           destruct (connectOn _ gx) as [gy|]; [|discriminate];
           intros E; inversion E; subst; apply F2).
      * destruct (addMachine (Decoder i) g) as [gx|]; [|discriminate].
        destruct (connectOn _ gx) as [gy|]; [|discriminate].
        intros E; inversion E; subst. apply F1. now left.
    + intros E. inversion E. subst. apply F1. now right.
Qed.

(** The selective phase hands [train] a concatenated criterion that lists
    the criteria of the included layers, in increasing order, with a count
    equal to their number and no weights; there is one measurer for each of
    them; every encoder has the partial-backprop flag the caller gave, and
    with noise the autoencoder of every included layer too. *)
Theorem selective_criteria_follow_flags (t : Trainer) (pl : list Z)
    (pb : bool) :
  0 <= n_hidden_layers (sae t) ->
  let n := n_hidden_layers (sae t) in
  exists t' ms g,
    TrainSelectiveUnsup_begin pl pb t = Some (t', ms)
    /\ machine t' = SelectiveMachine g
    /\ criterion t'
       = ConcatCriterion (SelectiveMachine g)
           (Z.of_nat (List.length (included_layers n pl)))
           (map UnsupCriterion (included_layers n pl)) None
    /\ ms = map (fun i => FakeDataMeasurer (UnsupData 0) (UnsupMeasurer i))
                (included_layers n pl)
    /\ (forall i, In i (included_layers n pl)
                  <-> (0 <= i < n /\ aget 0 pl i = 1))
    /\ (forall i, 0 <= i < n -> partial_backprop t' (Encoder i) = pb)
    /\ (is_noisy (sae t) = true ->
        forall i, 0 <= i < n -> aget 0 pl i = 1 ->
                  partial_backprop t' (Autoencoder i) = pb).
Proof.
  intros Hn n.
  destruct (TrainSelectiveUnsup_begin_spec t pl pb Hn)
    as (t' & ms & g & E & _).
  exists t', ms. revert E. unfold TrainSelectiveUnsup_begin. fold n.
  destruct (selective_encoders (sae t) pl new_machine) as [g0|];
    [|discriminate].
  set (t0 := if fst (find_topmost n pl) <? 0
             then call (Warning "no layer to pretrain!") t else t).
  assert (S0 : sae t0 = sae t) by (subst t0; destruct (_ <? 0); reflexivity).
  destruct (selective_decoders pl pb (t0, g0)) as [[t1 g1]|] eqn:Ed;
    [|discriminate].
  destruct (build (snd (t1, g1))) as [g2|]; [|discriminate].
  intros E. inversion E. subst t' ms. clear E.
  exists g2.
  apply selective_decoders_flags in Ed; [|rewrite S0; exact Hn].
  destruct Ed as (S1 & He & Ha). cbn [fst] in S1, He, Ha.
  rewrite S0 in He, Ha. fold n in He, Ha.
  cbn [machine criterion partial_backprop set_machine set_criterion fst].
  rewrite find_topmost_count, !collect_included.
  split; [reflexivity|]. split; [reflexivity|]. split; [reflexivity|].
  split; [reflexivity|].
  split.
  { intros i. unfold included_layers. rewrite filter_In, In_range.
    destruct (Z.eqb_spec (aget 0 pl i) 1); split; intros [H1 H2];
      try (split; [assumption|]); try assumption; try reflexivity;
      try discriminate. contradiction. }
  split; [exact He | exact Ha].
Qed.

(** ** Flat vectors and grouped parameters *)

Lemma offset_of_succ (sizes : list Z) (pg : Z) :
  0 <= pg -> offset_of sizes (pg + 1) = offset_of sizes pg + aget 0 sizes pg.
Proof. intros H. unfold offset_of. now rewrite for_loop_last. Qed.

Lemma offset_of_0 (sizes : list Z) : offset_of sizes 0 = 0.
Proof. reflexivity. Qed.

Lemma offset_of_mono (p : Analysis.Parameters) (a b : Z) :
  shaped p -> 0 <= a <= b -> b <= Analysis.n_data p ->
  0 <= offset_of (Analysis.size p) a <= offset_of (Analysis.size p) b.
Proof.
  intros (Hn & _ & Hs) Hab Hb.
  assert (H0 : forall k : nat, Z.of_nat k <= Analysis.n_data p ->
                 0 <= offset_of (Analysis.size p) (Z.of_nat k)).
  { induction k as [|k IH]; intros Hk; [cbn; lia|].
    rewrite Nat2Z.inj_succ, <- Z.add_1_r, offset_of_succ by lia.
    specialize (IH ltac:(lia)). destruct (Hs (Z.of_nat k)); lia. }
  assert (H : forall k : nat, a + Z.of_nat k <= Analysis.n_data p ->
                offset_of (Analysis.size p) a
                <= offset_of (Analysis.size p) (a + Z.of_nat k)).
  { induction k as [|k IH]; intros Hk; [rewrite Z.add_0_r; lia|].
    rewrite Nat2Z.inj_succ, <- Z.add_1_r, Z.add_assoc, offset_of_succ by lia.
    specialize (IH ltac:(lia)). destruct (Hs (a + Z.of_nat k)); lia. }
  split.
  - specialize (H0 (Z.to_nat a)). rewrite Z2Nat.id in H0 by lia.
    apply H0. lia.
  - specialize (H (Z.to_nat (b - a))).
    replace (a + Z.of_nat (Z.to_nat (b - a))) with b in H by lia.
    apply H. lia.
Qed.

Lemma GetNParams_offset (p : Analysis.Parameters) :
  Analysis.GetNParams p = offset_of (Analysis.size p) (Analysis.n_data p).
Proof. reflexivity. Qed.

(** A slot of a group lies inside the flat vector, before the next group. *)
Lemma slot_in_vector (p : Analysis.Parameters) (pg i : Z) :
  shaped p -> in_group p pg i ->
  offset_of (Analysis.size p) pg <= offset_of (Analysis.size p) pg + i
  /\ offset_of (Analysis.size p) pg + i < offset_of (Analysis.size p) (pg + 1)
  /\ offset_of (Analysis.size p) (pg + 1) <= Analysis.GetNParams p
  /\ 0 <= offset_of (Analysis.size p) pg.
Proof.
  intros Hp [Hpg Hi]. rewrite offset_of_succ by lia.
  rewrite GetNParams_offset.
  pose proof (offset_of_mono p (pg + 1) (Analysis.n_data p) Hp
                ltac:(lia) ltac:(lia)) as H1.
  pose proof (offset_of_mono p 0 pg Hp ltac:(lia) ltac:(lia)) as H2.
  rewrite offset_of_succ in H1 by lia. lia.
Qed.

Lemma load_store_same (p : Analysis.Parameters) (i j : Z) (v : R) :
  0 <= i < Z.of_nat (List.length (Analysis.data p)) ->
  0 <= j < Z.of_nat (List.length (aget [] (Analysis.data p) i)) ->
  Analysis.load (Analysis.store p i j v) i j = v.
Proof.
  intros Hi Hj. unfold Analysis.load, Analysis.store. cbn [Analysis.data].
  rewrite aget_aset_same by assumption. now apply aget_aset_same.
Qed.

Lemma upd_nat_overflow {A : Type} (a : list A) (n : nat) (v : A) :
  (List.length a <= n)%nat -> upd_nat a n v = a.
Proof.
  revert n. induction a as [|h t IH]; intros [|n] Hn; cbn in *; try lia;
    try reflexivity. f_equal. apply IH. lia.
Qed.

Lemma load_store_other (p : Analysis.Parameters) (i j i' j' : Z) (v : R) :
  0 <= i' -> 0 <= j' -> (i', j') <> (i, j) ->
  Analysis.load (Analysis.store p i j v) i' j' = Analysis.load p i' j'.
Proof.
  intros Hi Hj Hne. unfold Analysis.load, Analysis.store. cbn [Analysis.data].
  destruct (Z.eq_dec i i') as [->|Hi'].
  - destruct (Z_lt_ge_dec i' (Z.of_nat (List.length (Analysis.data p))))
      as [Hlt|Hge].
    + rewrite aget_aset_same by lia. apply aget_aset_other; [lia|].
      intros ->. now apply Hne.
    + unfold aset at 1. destruct (i' <? 0); [reflexivity|].
      rewrite upd_nat_overflow by lia. reflexivity.
  - now rewrite aget_aset_other by lia.
Qed.

Lemma store_layout (p : Analysis.Parameters) (i j : Z) (v : R) :
  same_layout p (Analysis.store p i j v).
Proof.
  unfold same_layout, Analysis.store.
  cbn [Analysis.n_data Analysis.size Analysis.data].
  split; [reflexivity|]. split; [reflexivity|].
  split; [apply aset_length|].
  intros k. unfold aget. unfold aset at 1.
  destruct (i <? 0); [reflexivity|].
  destruct (Nat.eq_dec (Z.to_nat i) (Z.to_nat k)) as [E|Hne].
  - rewrite <- E.
    destruct (Nat.lt_ge_cases (Z.to_nat i) (List.length (Analysis.data p)))
      as [Hlt|Hge].
    + rewrite nth_upd_nat_same by assumption. apply aset_length.
    + now rewrite upd_nat_overflow by assumption.
  - now rewrite nth_upd_nat_other by assumption.
Qed.

Lemma same_layout_trans (p q r : Analysis.Parameters) :
  same_layout p q -> same_layout q r -> same_layout p r.
Proof.
  intros (A1 & A2 & A3 & A4) (B1 & B2 & B3 & B4).
  unfold same_layout.
  split; [congruence|]. split; [congruence|]. split; [congruence|].
  intros i. rewrite B4. apply A4.
Qed.

Lemma same_layout_refl (p : Analysis.Parameters) : same_layout p p.
Proof. unfold same_layout. auto. Qed.

Lemma same_layout_shaped (p q : Analysis.Parameters) :
  same_layout p q -> shaped p -> shaped q.
Proof.
  intros (A1 & A2 & A3 & A4) (Hn & Hl & Hs). unfold shaped.
  rewrite A1, A2, A3. split; [assumption|]. split; [assumption|].
  intros i Hi. rewrite A4. now apply Hs.
Qed.

(** One group rewritten slot by slot: [f j] of the value the slot had goes
    in slot [j]. *)
Lemma group_rewritten (p : Analysis.Parameters) (i : Z) (f : Z -> R -> R) :
  shaped p -> 0 <= i < Analysis.n_data p ->
  let p' := for_loop 0 (aget 0 (Analysis.size p) i)
              (fun j q => Analysis.store q i j (f j (Analysis.load q i j))) p in
  same_layout p p'
  /\ (forall j, 0 <= j < aget 0 (Analysis.size p) i ->
                Analysis.load p' i j = f j (Analysis.load p i j))
  /\ (forall i' j', 0 <= i' -> 0 <= j' -> i' <> i ->
                    Analysis.load p' i' j' = Analysis.load p i' j').
Proof.
  intros Hp Hi p'. subst p'.
  destruct Hp as (Hn & Hl & Hs). destruct (Hs i Hi) as [Hsz Hlen].
  pose proof (for_loop_inv
                (fun b q =>
                   same_layout p q
                   /\ (forall j, 0 <= j < aget 0 (Analysis.size p) i ->
                         Analysis.load q i j
                         = if j <? b then f j (Analysis.load p i j)
                           else Analysis.load p i j)
                   /\ (forall i' j', 0 <= i' -> 0 <= j' -> i' <> i ->
                         Analysis.load q i' j' = Analysis.load p i' j'))
                0 (aget 0 (Analysis.size p) i)
                (fun j q => Analysis.store q i j (f j (Analysis.load q i j)))
                p Hsz) as H.
  cbv beta in H. destruct H as (HL & Hin & Hout).
  - split; [apply same_layout_refl|]. split; [|reflexivity].
    intros j Hj. destruct (Z.ltb_spec j 0); [lia | reflexivity].
  - intros j q Hj (HL & Hin & Hout).
    split; [eapply same_layout_trans; [exact HL | apply store_layout]|].
    destruct HL as (L1 & L2 & L3 & L4).
    split.
    + intros k Hk. destruct (Z.eq_dec k j) as [->|Hne].
      * rewrite load_store_same; [| rewrite L3; lia | rewrite L4; lia].
        rewrite Hin by lia.
        destruct (Z.ltb_spec j j); [lia|].
        destruct (Z.ltb_spec j (j + 1)); [reflexivity | lia].
      * rewrite load_store_other; [| lia | lia | congruence].
        rewrite Hin by assumption.
        destruct (Z.ltb_spec k j); destruct (Z.ltb_spec k (j + 1));
          try reflexivity; lia.
    + intros i' j' Hi' Hj' Hne.
      rewrite load_store_other; [| assumption | assumption | congruence].
      now apply Hout.
  - split; [exact HL|]. split; [|exact Hout].
    intros j Hj. rewrite Hin by assumption.
    destruct (Z.ltb_spec j (aget 0 (Analysis.size p) i)); [reflexivity | lia].
Qed.

(** Every group rewritten in turn, the running offset being that of the
    group. *)
Lemma groups_rewritten (p : Analysis.Parameters) (f : Z -> R -> R) :
  shaped p ->
  let st := for_loop 0 (Analysis.n_data p)
              (fun i st =>
                 (for_loop 0 (aget 0 (Analysis.size (fst st)) i)
                    (fun j q =>
                       Analysis.store q i j
                         (f (snd st + j) (Analysis.load q i j)))
                    (fst st),
                  snd st + aget 0 (Analysis.size (fst st)) i))
              (p, 0) in
  same_layout p (fst st)
  /\ forall i j, in_group p i j ->
       Analysis.load (fst st) i j
       = f (offset_of (Analysis.size p) i + j) (Analysis.load p i j).
Proof.
  intros Hp st. subst st. pose proof Hp as (Hn & Hl & Hs).
  pose proof (for_loop_inv
                (fun b st =>
                   same_layout p (fst st)
                   /\ snd st = offset_of (Analysis.size p) b
                   /\ forall i j, in_group p i j ->
                        Analysis.load (fst st) i j
                        = if i <? b
                          then f (offset_of (Analysis.size p) i + j)
                                 (Analysis.load p i j)
                          else Analysis.load p i j)
                0 (Analysis.n_data p)
                (fun i st =>
                   (for_loop 0 (aget 0 (Analysis.size (fst st)) i)
                      (fun j q =>
                         Analysis.store q i j
                           (f (snd st + j) (Analysis.load q i j)))
                      (fst st),
                    snd st + aget 0 (Analysis.size (fst st)) i))
                (p, 0) Hn) as H.
  cbv beta in H. destruct H as (HL & _ & Hin).
  - cbn [fst snd]. split; [apply same_layout_refl|]. split; [reflexivity|].
    intros i j [Hi Hj]. destruct (Z.ltb_spec i 0); [lia | reflexivity].
  - intros i [q o] Hi (HL & Ho & Hin). cbn [fst snd] in *.
    pose proof (same_layout_shaped p q HL Hp) as Hq.
    pose proof HL as (L1 & L2 & L3 & L4).
    destruct (group_rewritten q i (fun j => f (o + j)) Hq ltac:(lia))
      as (GL & Gin & Gout).
    cbv zeta in GL, Gin, Gout. rewrite L2 in *.
    split; [eapply same_layout_trans; eassumption|].
    split; [rewrite offset_of_succ by lia; now rewrite Ho|].
    intros i' j' [Hi' Hj'].
    destruct (Z.eq_dec i' i) as [->|Hne].
    + rewrite Gin by assumption.
      rewrite (Hin i j') by (split; assumption).
      destruct (Z.ltb_spec i i); [lia|].
      destruct (Z.ltb_spec i (i + 1)); [|lia]. now rewrite Ho.
    + rewrite Gout by lia. rewrite (Hin i' j') by (split; assumption).
      destruct (Z.ltb_spec i' i); destruct (Z.ltb_spec i' (i + 1));
        try reflexivity; lia.
  - split; [exact HL|]. intros i j Hij. rewrite Hin by assumption.
    destruct Hij as [Hi _].
    destruct (Z.ltb_spec i (Analysis.n_data p)); [reflexivity | lia].
Qed.

(** [ClearDerivatives] zeroes every value of every group and keeps the
    layout. *)
Lemma ClearDerivatives_spec (p : Analysis.Parameters) :
  shaped p ->
  same_layout p (Analysis.ClearDerivatives p)
  /\ forall i j, in_group p i j ->
       Analysis.load (Analysis.ClearDerivatives p) i j = 0%R.
Proof.
  intros Hp. pose proof Hp as (Hn & Hl & Hs).
  unfold Analysis.ClearDerivatives.
  pose proof (for_loop_inv
                (fun b q =>
                   same_layout p q
                   /\ forall i j, in_group p i j -> i < b ->
                        Analysis.load q i j = 0%R)
                0 (Analysis.n_data p)
                (fun i q =>
                   for_loop 0 (aget 0 (Analysis.size q) i)
                     (fun j q => Analysis.store q i j 0%R) q)
                p Hn) as H.
  cbv beta in H. destruct H as (HL & Hz).
  - split; [apply same_layout_refl | intros ? ? [? ?] ?; lia].
  - intros i q Hi (HL & Hz).
    pose proof (same_layout_shaped p q HL Hp) as Hq.
    pose proof HL as (L1 & L2 & L3 & L4).
    destruct (group_rewritten q i (fun _ _ => 0%R) Hq ltac:(lia))
      as (GL & Gin & Gout).
    cbv zeta in GL, Gin, Gout. rewrite L2 in *.
    split; [eapply same_layout_trans; eassumption|].
    intros i' j' [Hi' Hj'] Hlt.
    destruct (Z.eq_dec i' i) as [->|Hne].
    + now apply Gin.
    + rewrite Gout by lia. apply Hz; [split; assumption | lia].
  - split; [exact HL|]. intros i j Hij. apply Hz; [assumption|].
    destruct Hij. lia.
Qed.

(** The copy of the groups into a flat vector. *)
Lemma groups_copied (p : Analysis.Parameters) (h : R -> R) (g : list R) :
  shaped p ->
  Analysis.GetNParams p <= Z.of_nat (List.length g) ->
  let st := for_loop 0 (Analysis.n_data p)
              (fun pg st =>
                 (for_loop 0 (aget 0 (Analysis.size p) pg)
                    (fun i g => aset g (snd st + i) (h (Analysis.load p pg i)))
                    (fst st),
                  snd st + aget 0 (Analysis.size p) pg))
              (g, 0) in
  List.length (fst st) = List.length g
  /\ (forall pg i, in_group p pg i ->
        aget 0%R (fst st) (offset_of (Analysis.size p) pg + i)
        = h (Analysis.load p pg i))
  /\ (forall k, Analysis.GetNParams p <= k ->
                aget 0%R (fst st) k = aget 0%R g k).
Proof.
  intros Hp Hlen st. subst st. pose proof Hp as (Hn & Hl & Hs).
  set (off := offset_of (Analysis.size p)) in *.
  pose proof (for_loop_inv
                (fun b st =>
                   List.length (fst st) = List.length g
                   /\ snd st = off b
                   /\ (forall pg i, in_group p pg i -> pg < b ->
                         aget 0%R (fst st) (off pg + i)
                         = h (Analysis.load p pg i))
                   /\ (forall k, off b <= k ->
                         aget 0%R (fst st) k = aget 0%R g k))
                0 (Analysis.n_data p)
                (fun pg st =>
                   (for_loop 0 (aget 0 (Analysis.size p) pg)
                      (fun i g =>
                         aset g (snd st + i) (h (Analysis.load p pg i)))
                      (fst st),
                    snd st + aget 0 (Analysis.size p) pg))
                (g, 0) Hn) as H.
  cbv beta in H. destruct H as (HL & _ & Hin & Hout).
  - cbn [fst snd]. split; [reflexivity|]. split; [reflexivity|].
    split; [intros ? ? [? ?] ?; lia | reflexivity].
  - intros pg [g1 o] Hpg (HL & Ho & Hin & Hout). cbn [fst snd] in *.
    destruct (Hs pg Hpg) as [Hsz _].
    assert (Hb : 0 <= off pg
                 /\ off pg + aget 0 (Analysis.size p) pg
                    <= Z.of_nat (List.length g)).
    { pose proof (offset_of_mono p 0 pg Hp ltac:(lia) ltac:(lia)) as M1.
      pose proof (offset_of_mono p (pg + 1) (Analysis.n_data p) Hp
                    ltac:(lia) ltac:(lia)) as M2.
      fold off in M1, M2. unfold off in M2 at 2.
      rewrite offset_of_succ in M2 by lia. fold off in M2.
      rewrite GetNParams_offset in Hlen. fold off in Hlen. lia. }
    pose proof (for_loop_inv
                  (fun c g2 =>
                     List.length g2 = List.length g
                     /\ (forall k, 0 <= k ->
                           aget 0%R g2 k
                           = if (o <=? k) && (k <? o + c)
                             then h (Analysis.load p pg (k - o))
                             else aget 0%R g1 k))
                  0 (aget 0 (Analysis.size p) pg)
                  (fun i g => aset g (o + i) (h (Analysis.load p pg i)))
                  g1 Hsz) as G.
    cbv beta in G. destruct G as (GL & Gk).
    + split; [exact HL|]. intros k Hk.
      destruct (Z.leb_spec o k); destruct (Z.ltb_spec k (o + 0));
        cbn [andb]; try reflexivity; lia.
    + intros i g2 Hi (GL & Gk). split; [now rewrite aset_length|].
      intros k Hk. destruct (Z.eq_dec k (o + i)) as [->|Hne].
      * rewrite aget_aset_same by (rewrite GL, Ho; lia).
        destruct (Z.leb_spec o (o + i)); [|lia].
        destruct (Z.ltb_spec (o + i) (o + (i + 1))); [|lia]. cbn [andb].
        f_equal. f_equal. lia.
      * rewrite aget_aset_other by (rewrite ?Ho; lia). rewrite Gk by lia.
        destruct (Z.leb_spec o k); destruct (Z.ltb_spec k (o + i));
          destruct (Z.ltb_spec k (o + (i + 1)));
          cbn [andb]; try reflexivity; lia.
    + split; [exact GL|]. split.
      { unfold off. rewrite offset_of_succ by lia. fold off. now rewrite Ho. }
      split.
      * intros pg' i' [Hpg' Hi'] Hlt.
        pose proof (slot_in_vector p pg' i' Hp (conj Hpg' Hi'))
          as (S1 & S2 & S3 & S4). fold off in S1, S2, S3, S4.
        rewrite Gk by lia.
        destruct (Z.eq_dec pg' pg) as [->|Hne].
        -- rewrite Ho.
           destruct (Z.leb_spec (off pg) (off pg + i')); [|lia].
           destruct (Z.ltb_spec (off pg + i')
                                (off pg + aget 0 (Analysis.size p) pg));
             [|lia]. cbn [andb]. f_equal. f_equal. lia.
        -- pose proof (offset_of_mono p (pg' + 1) pg Hp ltac:(lia) ltac:(lia))
             as M. fold off in M.
           destruct (Z.leb_spec o (off pg' + i')); [lia|]. cbn [andb].
           apply Hin; [split; assumption | lia].
      * intros k Hk. unfold off in Hk. rewrite offset_of_succ in Hk by lia.
        fold off in Hk. rewrite Gk by lia.
        destruct (Z.leb_spec o k);
          destruct (Z.ltb_spec k (o + aget 0 (Analysis.size p) pg));
          cbn [andb]; try lia; apply Hout; lia.
  - split; [exact HL|]. split.
    + intros pg i Hij. apply Hin; [assumption|]. destruct Hij. lia.
    + intros k Hk. apply Hout. exact Hk.
Qed.

(** [EvaluateGradient] and [StepInParameterSpace] agree on the layout of the
    flat vector. When the gradients the pass leaves are allocated as their
    sizes say and the vector has room for them, [EvaluateGradient] writes
    the gradient of slot [i] of group [pg], divided by the number of
    examples, at the offset of the group plus [i], zeroes every
    parameter-gradient and keeps their layout; and a step of
    [StepInParameterSpace] along that vector, on parameters of the same
    layout, moves every parameter by the step size times its own mean
    gradient and no other. *)
Theorem step_along_evaluated_gradient (ar : Arithmetic)
    (pass : Analysis.Parameters -> Analysis.Parameters)
    (der_params params : Analysis.Parameters) (n_examples : Z)
    (gradient : list R) (stepsize : R) :
  let acc := pass (Analysis.ClearDerivatives der_params) in
  let r := Analysis.EvaluateGradient ar pass der_params n_examples gradient in
  shaped acc ->
  shaped params ->
  same_layout acc params ->
  Analysis.GetNParams acc <= Z.of_nat (List.length gradient) ->
  List.length (fst r) = List.length gradient
  /\ (forall pg i, in_group acc pg i ->
        aget 0%R (fst r) (offset_of (Analysis.size acc) pg + i)
        = real_div ar (Analysis.load acc pg i) (real_of_int ar n_examples))
  /\ (forall k, Analysis.GetNParams acc <= k < Z.of_nat (List.length gradient) ->
                aget 0%R (fst r) k = 0%R)
  /\ same_layout acc (snd r)
  /\ (forall pg i, in_group acc pg i -> Analysis.load (snd r) pg i = 0%R)
  /\ same_layout params
       (Analysis.StepInParameterSpace ar params (fst r) stepsize)
  /\ (forall pg i, in_group params pg i ->
        Analysis.load (Analysis.StepInParameterSpace ar params (fst r) stepsize)
                      pg i
        = real_add ar (Analysis.load params pg i)
            (real_mul ar stepsize
               (real_div ar (Analysis.load acc pg i)
                         (real_of_int ar n_examples)))).
Proof.
  intros acc r Hacc Hparams Hsame Hroom.
  set (g0 := for_loop 0 (Z.of_nat (List.length gradient))
               (fun i g => aset g i 0%R) gradient).
  assert (Hg0 : List.length g0 = List.length gradient
                /\ forall k, 0 <= k < Z.of_nat (List.length gradient) ->
                             aget 0%R g0 k = 0%R).
  { subst g0.
    pose proof (for_loop_inv
                  (fun b g => List.length g = List.length gradient
                              /\ forall k, 0 <= k < b -> aget 0%R g k = 0%R)
                  0 (Z.of_nat (List.length gradient))
                  (fun i g => aset g i 0%R) gradient ltac:(lia)) as H.
    cbv beta in H. apply H.
    - split; [reflexivity | intros; lia].
    - intros i g Hi [Hl Hk]. split; [now rewrite aset_length|].
      intros k Hk'. destruct (Z.eq_dec k i) as [->|Hne].
      + apply aget_aset_same. rewrite Hl. lia.
      + rewrite aget_aset_other by lia. apply Hk. lia. }
  destruct Hg0 as [Hl0 Hz0].
  destruct (groups_copied acc (fun v => real_div ar v (real_of_int ar n_examples))
              g0 Hacc ltac:(rewrite Hl0; exact Hroom))
    as (CL & Cin & Cout).
  cbv zeta in CL, Cin, Cout.
  destruct (ClearDerivatives_spec acc Hacc) as (ZL & Zin).
  assert (Er : r = (fst (for_loop 0 (Analysis.n_data acc)
                           (fun pg st =>
                              (for_loop 0 (aget 0 (Analysis.size acc) pg)
                                 (fun i g =>
                                    aset g (snd st + i)
                                      (real_div ar (Analysis.load acc pg i)
                                                (real_of_int ar n_examples)))
                                 (fst st),
                               snd st + aget 0 (Analysis.size acc) pg))
                           (g0, 0)),
                    Analysis.ClearDerivatives acc)) by reflexivity.
  rewrite Er. cbn [fst snd].
  set (g1 := fst (for_loop 0 (Analysis.n_data acc) _ (g0, 0))) in *.
  destruct (groups_rewritten params
              (fun k v => real_add ar v (real_mul ar stepsize (aget 0%R g1 k)))
              Hparams) as (SL & Sin).
  cbv zeta in SL, Sin.
  change (Analysis.StepInParameterSpace ar params g1 stepsize)
    with (fst (for_loop 0 (Analysis.n_data params)
                 (fun i st =>
                    (for_loop 0 (aget 0 (Analysis.size (fst st)) i)
                       (fun j q =>
                          Analysis.store q i j
                            (real_add ar (Analysis.load q i j)
                               (real_mul ar stepsize
                                         (aget 0%R g1 (snd st + j)))))
                       (fst st),
                     snd st + aget 0 (Analysis.size (fst st)) i))
                 (params, 0))).
  destruct Hsame as (E1 & E2 & _).
  split; [now rewrite CL|]. split; [exact Cin|].
  split.
  { intros k Hk. rewrite Cout by lia. apply Hz0.
    pose proof (offset_of_mono acc 0 (Analysis.n_data acc) Hacc) as M.
    rewrite <- GetNParams_offset in M. destruct Hacc as (Hn & _). lia. }
  split; [exact ZL|]. split; [exact Zin|]. split; [exact SL|].
  intros pg i Hij. rewrite Sin by assumption.
  rewrite E2. rewrite Cin; [reflexivity|].
  destruct Hij as [H1 H2]. split; [now rewrite <- E1 | now rewrite <- E2].
Qed.

(** ** Worked instances *)

Lemma layerwise_backward_only_autoencoder_witness :
  calls (fpropbprop example_substrate (UnsupData 0)
           (set_layerwise_training true example_trainer))
  = [Forward (MesdMachine 0) DataInputs;
     CriterionForward SupCriterion (Outputs Sae);
     CriterionBackward SupCriterion (Outputs Sae);
     Backward (Module (Autoencoder 0)) DataInputs (CriterionBeta SupCriterion)].
Proof.
  exact (proj1 (layerwise_backward_only_autoencoder example_substrate
                  (UnsupData 0) (set_layerwise_training true example_trainer)
                  eq_refl)).
Defined.

Lemma joint_criterion_weights_witness :
  concat_weights
    (fst (TrainSupUnsup_begin (UserData 0) [] (1 / 2)%R example_trainer))
  = Some [1%R; (1 / 2)%R].
Proof.
  refine (proj1 (proj2 (proj2 (joint_criterion_weights (UserData 0) []
                                 (1 / 2)%R example_trainer _ _)))).
  - simpl. lia.
  - reflexivity.
Defined.




Lemma selective_machine_modules_witness :
  exists t' ms g,
    TrainSelectiveUnsup_begin [1; 1; 0] false three_layer_trainer
    = Some (t', ms)
    /\ machine t' = SelectiveMachine g
    /\ In (Encoder 0) (modules g)
    /\ In (Encoder 1) (modules g)
    /\ ~ In (Encoder 2) (modules g)
    /\ ~ In InputHandle (modules g).
Proof.
  destruct (selective_machine_modules three_layer_trainer [1; 1; 0] false)
    as (t' & ms & g & E & Hm & _ & _ & _ & Henc & Habove & _ & _ & Hh).
  - simpl. lia.
  - exists t', ms, g. split; [exact E|]. split; [exact Hm|].
    split; [apply Henc; simpl; lia|]. split; [apply Henc; simpl; lia|].
    split; [apply Habove; simpl; lia|].
    intros Hin. apply Hh in Hin. destruct Hin as [Hn _]. discriminate.
Defined.

Lemma phases_restore_defaults_witness :
  exists t',
    TrainUnsup one_pass (UserData 0) [] example_trainer = Some t'
    /\ defaults_restored t'
    /\ partial_backprop t' Outputer = false.
Proof.
  destruct (phases_restore_defaults one_pass [1] false (UserData 0) []
              (1 / 2)%R example_trainer)
    as (_ & _ & _ & _ & _ & Hrestore & _).
  - simpl. lia.
  - eexists. split; [reflexivity|]. now apply Hrestore.
Defined.


Lemma topK_backward_chain_witness :
  calls (fpropbprop example_substrate (UserData 0)
           (set_topKlayers 3 (set_topK_training true three_layer_trainer)))
  = [Forward Sae DataInputs;
     CriterionForward SupCriterion (Outputs Sae);
     CriterionBackward SupCriterion (Outputs Sae);
     Backward (Module Outputer) (Outputs (Module (Encoder 2)))
              (CriterionBeta SupCriterion);
     Backward (Module (Encoder 2)) (Outputs (Module (Encoder 1)))
              (Beta (Module Outputer));
     Backward (Module (Encoder 1)) (Outputs (Module (Encoder 0)))
              (Beta (Module (Encoder 2)))].
Proof.
  destruct (topK_backward_chain example_substrate (UserData 0)
              (set_topKlayers 3 (set_topK_training true three_layer_trainer)))
    as (chain & E & Hc & _);
    [reflexivity | reflexivity | simpl; lia | simpl; lia |].
  rewrite E, Hc. reflexivity.
Defined.

Lemma weight_decay_once_when_tied_witness :
  let s := new_StackedAutoencoder "sae" "sigmoid" true false 4 2 [3; 3] 2
                                  false false in
  setL1WeightDecay s (1 / 2)%R no_options (Encoder 1)
                   "l1 weight decay"%string = Some (1 / 2)%R
  /\ setL1WeightDecay s (1 / 2)%R no_options (Decoder 1)
                      "l1 weight decay"%string = None
  /\ setL2WeightDecay s (1 / 2)%R no_options (Decoder 1)
                      "weight decay"%string = None.
Proof.
  intros s.
  destruct (weight_decay_once_when_tied s (1 / 2)%R no_options)
    as [(E1 & _ & T1 & _) (_ & _ & T2 & _)].
  split; [apply E1; simpl; lia|].
  split; [rewrite T1 by reflexivity | rewrite T2 by reflexivity]; reflexivity.
Defined.

Lemma joint_machine_holds_every_encoder_witness :
  let s := new_StackedAutoencoder "sae" "sigmoid" false false 4 3 [3; 3; 3] 2
                                  true false in
  exists g,
    BuildSupUnsupMachine s = Some g
    /\ In (Encoder 2) (modules g)
    /\ In (Outputer, Encoder 2) (links g)
    /\ In (Autoencoder 0, InputHandle) (links g)
    /\ missing_consumers g = [].
Proof.
  intros s.
  destruct (joint_machine_holds_every_encoder s)
    as (g & E & _ & Henc & _ & Hout & _ & Hrl & _ & _ & Hmiss & _).
  - simpl. lia.
  - exists g. split; [exact E|].
    split; [apply Henc; simpl; lia|]. split; [exact Hout|].
    split; [apply (Hrl 0); simpl; lia | exact Hmiss].
Defined.

Lemma plain_unsup_machine_pairs_coders_witness :
  let s := new_StackedAutoencoder "sae" "sigmoid" false false 4 2 [3; 3] 2
                                  false false in
  exists g,
    BuildUnsupMachine s = Some g
    /\ In (Encoder 1) (modules g)
    /\ In (Decoder 1, Encoder 1) (links g)
    /\ ~ In Outputer (modules g)
    /\ backward_completes g = true.
Proof.
  intros s.
  destruct (plain_unsup_machine_pairs_coders s)
    as (g & E & _ & Henc & _ & Hrl & _ & Hout & _ & _ & _ & Hc).
  - reflexivity.
  - simpl. lia.
  - exists g. split; [exact E|].
    split; [apply Henc; simpl; lia|].
    split; [apply (Hrl 1); simpl; lia|]. split; [exact Hout | exact Hc].
Defined.

Lemma sgd_train_keeps_settings_and_counts_epochs_witness :
  exists t',
    sgd_train example_substrate 3 (UnsupData 0) []
              (set_layerwise_training true example_trainer) = Some t'
    /\ machine t' = Sae
    /\ layerwise_training t' = true
    /\ epoch t' = 3.
Proof.
  destruct (sgd_train_layerwise example_substrate 3 (UnsupData 0) []
              (set_layerwise_training true example_trainer))
    as (t' & E & _); [reflexivity | reflexivity | reflexivity | reflexivity
                      | lia | simpl; lia |].
  exists t'. split; [exact E|].
  destruct (sgd_train_keeps_settings_and_counts_epochs example_substrate 3
              (UnsupData 0) [] (set_layerwise_training true example_trainer)
              t' ltac:(lia) E) as [Hs He].
  unfold settings in Hs. inversion Hs.
  split; [reflexivity|]. split; [reflexivity|]. exact He.
Defined.

Lemma selective_criteria_follow_flags_witness :
  exists t' ms g,
    TrainSelectiveUnsup_begin [1; 0; 1] true three_layer_trainer
    = Some (t', ms)
    /\ criterion t'
       = ConcatCriterion (SelectiveMachine g) 2
                         [UnsupCriterion 0; UnsupCriterion 2] None
    /\ partial_backprop t' (Encoder 1) = true.
Proof.
  destruct (selective_criteria_follow_flags three_layer_trainer [1; 0; 1] true)
    as (t' & ms & g & E & _ & Hc & _ & _ & He & _).
  - simpl. lia.
  - exists t', ms, g. split; [exact E|]. split; [exact Hc|].
    apply He. simpl. lia.
Defined.

Lemma unsup_not_output_weights_witness :
  exists t1,
    TrainUnsupNotOutput one_pass example_trainer
    = (x <- one_pass (UnsupData 0)
               [FakeDataMeasurer (UnsupData 0) (UnsupMeasurer 0)] t1 ;;
       Some (set_criterion SupCriterion (set_machine Sae x)))
    /\ concat_weights t1 = Some [1%R]
    /\ owns (sae t1) (machine t1) Outputer = false.
Proof.
  destruct (unsup_not_output_weights one_pass example_trainer)
    as (t1 & E & _ & _ & Hw & _ & _ & Ho).
  - simpl. lia.
  - reflexivity.
  - exists t1. split; [exact E|]. split; [exact Hw | exact Ho].
Defined.

Lemma finetuning_updates_each_layer_at_its_rate_witness :
  UpdateMachine example_substrate UnsupMachine 1%R finetuning_trainer = None
  /\ exists t',
       UpdateMachine example_substrate Sae 1%R finetuning_trainer = Some t'
       /\ (forall k, params t' Outputer k
                     = params finetuning_trainer Outputer k)
       /\ (forall k, params t' (Decoder 0) k
                     = params finetuning_trainer (Decoder 0) k).
Proof.
  destruct (finetuning_updates_each_layer_at_its_rate example_substrate
              finetuning_trainer 1%R)
    as [Hnone (t' & E & Henc & Hout & Hfr & _)].
  - reflexivity.
  - simpl. lia.
  - split; [apply Hnone; discriminate|].
    exists t'. split; [exact E|]. split.
    + intros k. rewrite Hout.
      destruct (Rlt_dec 0 _) as [H|]; [|reflexivity].
      exfalso. change (0 < 0)%R in H. lra.
    + intros k. apply Hfr; [discriminate|]. intros; discriminate.
Defined.

Lemma reweighting_needs_1000_examples_witness :
  IterInitialize example_substrate reweighting_trainer <> None.
Proof.
  apply (proj2 (reweighting_needs_1000_examples example_substrate
                  reweighting_trainer (UserData 0) eq_refl
                  ltac:(discriminate) eq_refl ltac:(simpl; lia))).
  split.
  - simpl. lia.
  - intros i _. simpl. lia.
Defined.

Lemma example_parameters_shaped :
  shaped example_gradients /\ shaped example_parameters.
Proof.
  split; (split; [cbn; lia|]; split; [reflexivity|]; intros i Hi;
          assert (Hc : i = 0 \/ i = 1) by (cbn in Hi; lia);
          destruct Hc; subst; (split; [vm_compute; discriminate | reflexivity])).
Qed.

Lemma step_along_evaluated_gradient_witness :
  let r := Analysis.EvaluateGradient unrounded (fun _ => example_gradients)
             example_parameters 2 [9%R; 9%R; 9%R; 9%R] in
  aget 0%R (fst r) 2 = (5 / 2)%R
  /\ aget 0%R (fst r) 3 = 0%R
  /\ Analysis.load
       (Analysis.StepInParameterSpace unrounded example_parameters (fst r) 1%R)
       1 1
     = (1 + 1 * (5 / 2))%R.
Proof.
  intros r.
  destruct (step_along_evaluated_gradient unrounded
              (fun _ => example_gradients) example_parameters
              example_parameters 2 [9%R; 9%R; 9%R; 9%R] 1%R)
    as (_ & Cin & Cz & _ & _ & _ & Sin).
  - apply example_parameters_shaped.
  - apply example_parameters_shaped.
  - unfold same_layout. cbn. repeat split.
    intros i. unfold aget. destruct (Z.to_nat i) as [|[|[|n]]]; reflexivity.
  - change (3 <= 4). lia.
  - split; [|split].
    + exact (Cin 1 1 (conj (conj (Z.le_0_1) eq_refl) (conj (Z.le_0_1) eq_refl))).
    + apply (Cz 3). change (3 <= 3 < 4). lia.
    + exact (Sin 1 1 (conj (conj (Z.le_0_1) eq_refl) (conj (Z.le_0_1) eq_refl))).
Defined.
